(** * Binary black hole collision simulator: specification against code

    The C++ sources (physics.cpp, integrator.cpp, merger.cpp, simulation.cpp,
    main.cpp) compute on [double] and on [glm::dvec3].  Two shallow embeddings
    of the same functions are given.

    - Module [Double]: [double] is IEEE-754 binary64, i.e. Rocq's primitive
      [float]; [+ - * / sqrt fabs < <=] are the correctly rounded machine
      operations (no contraction into fused multiply-add).  Everything in
      this module is executable.  It holds the functions that use no libm
      call beyond [sqrt].
    - Module [Exact]: [double] is idealised as a real number, so a formula
      of the source denotes the real it is written to approximate; libm
      calls ([exp], [cos], [sin], [cbrt], [atan2], [pow]) denote the real
      functions.  No rounding, overflow or NaN exists in this model.
      Division by zero and the square root of a negative number have the
      value Rocq gives them; a statement proved in this model either
      carries the hypotheses that keep each operation in its domain or
      holds whatever that value is.

    GLM is a third-party header library; [glm::dot], [glm::cross],
    [glm::length] and [glm::normalize] are written out from its reference
    implementation for [vec<3,double>]. *)

From Stdlib Require Import ZArith Bool List String Lia.
From Stdlib Require Import Floats.
From Stdlib Require Import Reals Lra Psatz.
From Stdlib Require Import Sorted.
From Equations Require Import Equations.
Import ListNotations.

Set Warnings "-inexact-float".

(* ====================================================================== *)
(** * Part I: the binary64 model *)
(* ====================================================================== *)

Module Double.

Open Scope float_scope.

(** ** glm::dvec3 *)

Record dvec3 : Set := mk_dvec3 { vx : float; vy : float; vz : float }.

Definition dvec3_zero : dvec3 := mk_dvec3 0 0 0.

Definition vadd (a b : dvec3) : dvec3 :=
  mk_dvec3 (vx a + vx b) (vy a + vy b) (vz a + vz b).

Definition vsub (a b : dvec3) : dvec3 :=
  mk_dvec3 (vx a - vx b) (vy a - vy b) (vz a - vz b).

(** [scalar * vec] *)
Definition smul (s : float) (v : dvec3) : dvec3 :=
  mk_dvec3 (s * vx v) (s * vy v) (s * vz v).

(** [vec * scalar] *)
Definition vmuls (v : dvec3) (s : float) : dvec3 :=
  mk_dvec3 (vx v * s) (vy v * s) (vz v * s).

(** [vec / scalar] *)
Definition vdivs (v : dvec3) (s : float) : dvec3 :=
  mk_dvec3 (vx v / s) (vy v / s) (vz v / s).

(** [glm::dot]: the three products are summed left to right. *)
Definition glm_dot (a b : dvec3) : float :=
  vx a * vx b + vy a * vy b + vz a * vz b.

Definition glm_cross (x y : dvec3) : dvec3 :=
  mk_dvec3 (vy x * vz y - vy y * vz x)
           (vz x * vx y - vz y * vx x)
           (vx x * vy y - vx y * vy x).

Definition glm_length (v : dvec3) : float := PrimFloat.sqrt (glm_dot v v).

Definition inversesqrt (x : float) : float := 1 / PrimFloat.sqrt x.

Definition glm_normalize (v : dvec3) : dvec3 :=
  vmuls v (inversesqrt (glm_dot v v)).

(** A zero of either sign. *)
Definition is_zero_SF (x : float) : Prop :=
  exists s : bool, Prim2SF x = S754_zero s.

(** ** <algorithm> and <cmath> helpers *)

(** [std::clamp(v, lo, hi)]; the standard requires [lo <= hi]. *)
Definition std_clamp (v lo hi : float) : float :=
  if v <? lo then lo else if hi <? v then hi else v.

(** [std::max(a, b)] is [(a < b) ? b : a]. *)
Definition std_max (a b : float) : float := if a <? b then b else a.

(** [std::min(a, b)] is [(b < a) ? b : a]. *)
Definition std_min (a b : float) : float := if b <? a then b else a.

Definition M_PI : float := 3.14159265358979323846.

(** ** black_hole.h *)

Record BlackHole : Set := mk_BlackHole {
  mass : float;
  chi : float;
  position : dvec3;
  velocity : dvec3;
  spin_axis : dvec3
}.

Definition schwarzschild_radius (bh : BlackHole) : float := 2.0 * mass bh.

Record BinaryConfig : Set := mk_BinaryConfig {
  m1 : float;
  m2 : float;
  chi1 : float;
  chi2 : float;
  spin_axis1 : dvec3;
  spin_axis2 : dvec3;
  initial_separation : float;
  eccentricity : float;
  inclination : float;
  distance : float
}.

(** ** merger.cpp *)

Definition should_merge (bh1 bh2 : BlackHole) (critical_factor : float) : bool :=
  let separation := glm_length (vsub (position bh1) (position bh2)) in
  let r_critical :=
    critical_factor * (schwarzschild_radius bh1 + schwarzschild_radius bh2) / 2.0 in
  let v := vsub (velocity bh1) (velocity bh2) in
  let v_mag := glm_length v in
  (separation <=? r_critical) || (2.0 <? v_mag).

(** The default argument of [should_merge] in merger.h. *)
Definition default_critical_factor : float := 0.5.

Definition final_mass_fraction (eta chi1 chi2 : float) : float :=
  let chi_eff := 0.5 * (chi1 + chi2) in
  let p0 := 0.04827 in
  let p1 := 0.01707 in
  let p2 := -0.0308 in
  let E_rad_base := eta * (p0 + 4.0 * eta * p0) in
  let spin_corr := 1.0 + p1 * chi_eff / (1.0 + p2 * chi_eff * chi_eff) in
  let E_rad := E_rad_base * spin_corr in
  let E_rad := std_clamp E_rad 0.0 0.1 in
  let E_rad :=
    if (PrimFloat.abs (eta - 0.25) <? 0.01) && (PrimFloat.abs chi_eff <? 0.01)
    then 0.035 else E_rad in
  1.0 - E_rad.

Definition final_spin (eta chi1 chi2 : float) : float :=
  let s4 := -0.1229 in
  let s5 := 0.4537 in
  let t0 := -2.8904 in
  let t2 := -3.5171 in
  let t3 := 2.5763 in
  let delta_m := PrimFloat.sqrt (1.0 - 4.0 * eta) in
  let a_init := 0.5 * ((1.0 + delta_m) * chi1 + (1.0 - delta_m) * chi2) in
  let L_orb := 2.0 * PrimFloat.sqrt 3.0 * eta
               + t2 * eta * eta
               + t3 * eta * eta * eta in
  let a_spin := a_init
                + s4 * a_init * a_init * eta
                + s5 * a_init * eta * delta_m
                + t0 * eta * a_init in
  let af := a_spin + L_orb in
  std_clamp af 0.0 0.998.

Definition recoil_kick (eta chi1 chi2 : float) : float :=
  let A := 1.2e4 in
  let B := -0.93 in
  let delta := PrimFloat.sqrt (std_max 0.0 (1.0 - 4.0 * eta)) in
  let v_mass := A * eta * eta * delta * (1.0 + B * eta) in
  let delta_chi := chi1 - chi2 in
  let v_spin := 3678.0 * eta * delta_chi in
  let v_total_kms := PrimFloat.sqrt (v_mass * v_mass + v_spin * v_spin) in
  let c_kms := 2.998e5 in
  v_total_kms / c_kms.

Record RemnantProperties : Set := mk_RemnantProperties {
  rem_mass : float;
  rem_spin : float;
  rem_position : dvec3;
  rem_velocity : dvec3;
  kick_velocity : float;
  energy_radiated : float
}.

Definition compute_remnant (bh1 bh2 : BlackHole) : RemnantProperties :=
  let M := mass bh1 + mass bh2 in
  let eta := mass bh1 * mass bh2 / (M * M) in
  let r_mass := M * final_mass_fraction eta (chi bh1) (chi bh2) in
  let r_spin := final_spin eta (chi bh1) (chi bh2) in
  let r_energy_radiated := 1.0 - r_mass / M in
  let r_kick_velocity := recoil_kick eta (chi bh1) (chi bh2) in
  let r_position :=
    vdivs (vadd (smul (mass bh1) (position bh1)) (smul (mass bh2) (position bh2))) M in
  let v_com :=
    vdivs (vadd (smul (mass bh1) (velocity bh1)) (smul (mass bh2) (velocity bh2))) M in
  let r := vsub (position bh1) (position bh2) in
  let v := vsub (velocity bh1) (velocity bh2) in
  let L_hat := glm_normalize (glm_cross r v) in
  let r_velocity := vadd v_com (smul r_kick_velocity L_hat) in
  mk_RemnantProperties r_mass r_spin r_position r_velocity
                       r_kick_velocity r_energy_radiated.

(** ** physics.cpp *)

Record AccelerationResult : Set := mk_AccelerationResult {
  a_newtonian : dvec3;
  a_1pn : dvec3;
  a_2pn : dvec3;
  a_25pn : dvec3
}.

Definition total (a : AccelerationResult) : dvec3 :=
  vadd (vadd (vadd (a_newtonian a) (a_1pn a)) (a_2pn a)) (a_25pn a).

(** [AccelerationResult result = {}]: value-initialised, all components zero. *)
Definition AccelerationResult_zero : AccelerationResult :=
  mk_AccelerationResult dvec3_zero dvec3_zero dvec3_zero dvec3_zero.

Definition compute_relative_acceleration
    (r v : dvec3) (m1 m2 : float) (enable_1pn enable_2pn enable_25pn : bool)
    : AccelerationResult :=
  let M := m1 + m2 in
  let eta := m1 * m2 / (M * M) in
  let r2 := glm_dot r r in
  let r_mag := PrimFloat.sqrt r2 in
  if r_mag <? 1e-10 then AccelerationResult_zero
  else
    let r3 := r2 * r_mag in
    let n := vdivs r r_mag in
    let v2 := glm_dot v v in
    let rdot := glm_dot n v in
    let res_newtonian := smul (- M / r2) n in
    let res_1pn :=
      if enable_1pn then
        let Mr := M / r_mag in
        let n_coeff := - v2
                       + 2.0 * (2.0 + eta) * Mr
                       + 1.5 * eta * rdot * rdot in
        let v_coeff := 2.0 * (2.0 - eta) * rdot in
        smul (- Mr / r_mag) (vadd (smul n_coeff n) (smul v_coeff v))
      else dvec3_zero in
    let res_2pn :=
      if enable_2pn then
        let Mr := M / r_mag in
        let Mr2 := Mr * Mr in
        let rdot2 := rdot * rdot in
        let v4 := v2 * v2 in
        let n_coeff :=
          -2.0 * (2.0 + 25.0 * eta + 2.0 * eta * eta) * Mr2
          + 1.5 * eta * (3.0 - 4.0 * eta) * v4
          + 0.5 * eta * (13.0 - 4.0 * eta) * Mr * v2
          - (2.0 + 15.0 * eta - 2.0 * eta * eta) * Mr * rdot2
          - 1.875 * eta * (1.0 - 3.0 * eta) * rdot2 * rdot2
          + 1.5 * eta * (3.0 - 4.0 * eta) * v2 * rdot2 in
        let v_coeff :=
          -0.5 * eta * (15.0 + 4.0 * eta) * v2 * rdot
          + (4.0 + 41.0 * eta / 4.0 + eta * eta) * Mr * rdot
          + 1.5 * eta * (3.0 + 2.0 * eta) * rdot * rdot2 in
        smul (- Mr / r_mag) (vadd (smul n_coeff n) (smul v_coeff v))
      else dvec3_zero in
    let res_25pn :=
      if enable_25pn then
        let Mr := M / r_mag in
        let Mr3 := M * M / (r2 * r_mag) in
        let rdot2 := rdot * rdot in
        let prefactor := 8.0 / 5.0 * eta * M * Mr / r2 in
        let n_coeff := rdot * (18.0 * v2 + (2.0 / 3.0) * Mr - 25.0 * rdot2) in
        let v_coeff := - (6.0 * v2 - 2.0 * Mr - 15.0 * rdot2) in
        smul prefactor (vadd (smul n_coeff n) (smul v_coeff v))
      else dvec3_zero in
    mk_AccelerationResult res_newtonian res_1pn res_2pn res_25pn.

Definition compute_acceleration
    (bh1 bh2 : BlackHole) (enable_1pn enable_2pn enable_25pn : bool)
    : AccelerationResult :=
  let r := vsub (position bh1) (position bh2) in
  let v := vsub (velocity bh1) (velocity bh2) in
  let rel_acc := compute_relative_acceleration r v (mass bh1) (mass bh2)
                   enable_1pn enable_2pn enable_25pn in
  let M := mass bh1 + mass bh2 in
  let factor := mass bh2 / M in
  mk_AccelerationResult (smul factor (a_newtonian rel_acc))
                        (smul factor (a_1pn rel_acc))
                        (smul factor (a_2pn rel_acc))
                        (smul factor (a_25pn rel_acc)).

(** ** integrator.h, integrator.cpp *)

Record BinaryState : Set := mk_BinaryState {
  pos1 : dvec3; vel1 : dvec3;
  pos2 : dvec3; vel2 : dvec3;
  time : float
}.

Record BinaryStateDerivative : Set := mk_BinaryStateDerivative {
  dpos1 : dvec3; dvel1 : dvec3;
  dpos2 : dvec3; dvel2 : dvec3
}.

Record IntegratorConfig : Set := mk_IntegratorConfig {
  dt_initial : float;
  dt_min : float;
  dt_max : float;
  safety_factor : float;
  adaptive : bool
}.

Definition DerivativeFunc : Set := BinaryState -> BinaryStateDerivative.

Definition state_add (s : BinaryState) (d : BinaryStateDerivative) (dt : float)
    : BinaryState :=
  mk_BinaryState (vadd (pos1 s) (vmuls (dpos1 d) dt))
                 (vadd (vel1 s) (vmuls (dvel1 d) dt))
                 (vadd (pos2 s) (vmuls (dpos2 d) dt))
                 (vadd (vel2 s) (vmuls (dvel2 d) dt))
                 (time s + dt).

Definition rk4_step (state : BinaryState) (dt : float) (deriv : DerivativeFunc)
    : BinaryState :=
  let k1 := deriv state in
  let k2 := deriv (state_add state k1 (dt * 0.5)) in
  let k3 := deriv (state_add state k2 (dt * 0.5)) in
  let k4 := deriv (state_add state k3 dt) in
  let w (y a b c d : dvec3) : dvec3 :=
    vadd y (smul (dt / 6.0) (vadd (vadd (vadd a (smul 2.0 b)) (smul 2.0 c)) d)) in
  mk_BinaryState
    (w (pos1 state) (dpos1 k1) (dpos1 k2) (dpos1 k3) (dpos1 k4))
    (w (vel1 state) (dvel1 k1) (dvel1 k2) (dvel1 k3) (dvel1 k4))
    (w (pos2 state) (dpos2 k1) (dpos2 k2) (dpos2 k3) (dpos2 k4))
    (w (vel2 state) (dvel2 k1) (dvel2 k2) (dvel2 k3) (dvel2 k4))
    (time state + dt).

Definition adaptive_timestep
    (state : BinaryState) (config : IntegratorConfig) (total_mass : float)
    : float :=
  if negb (adaptive config) then dt_initial config
  else
    let r := vsub (pos1 state) (pos2 state) in
    let separation := glm_length r in
    if separation <? 1e-10 then dt_min config
    else
      let orbital_period :=
        2.0 * M_PI * PrimFloat.sqrt (separation * separation * separation / total_mass) in
      let dt := safety_factor config * orbital_period in
      let r_isco := 6.0 * total_mass in
      let dt :=
        if separation <? 2.0 * r_isco then
          let scale := separation / (2.0 * r_isco) in
          dt * (scale * scale)
        else dt in
      std_clamp dt (dt_min config) (dt_max config).

(** ** simulation.cpp *)

Definition init_binary (config : BinaryConfig) : BlackHole * BlackHole :=
  let M := m1 config + m2 config in
  let r0 := initial_separation config in
  let r1 := r0 * m2 config / M in
  let r2 := r0 * m1 config / M in
  let v_circ_rel := PrimFloat.sqrt (M / r0) in
  let ecc := eccentricity config in
  let v_factor := PrimFloat.sqrt ((1.0 + ecc) / (1.0 - ecc)) in
  let v_rel := v_circ_rel * v_factor in
  let v1 := v_rel * m2 config / M in
  let v2 := v_rel * m1 config / M in
  (mk_BlackHole (m1 config) (chi1 config)
                (mk_dvec3 r1 0.0 0.0) (mk_dvec3 0.0 0.0 v1)
                (glm_normalize (spin_axis1 config)),
   mk_BlackHole (m2 config) (chi2 config)
                (mk_dvec3 (- r2) 0.0 0.0) (mk_dvec3 0.0 0.0 (- v2))
                (glm_normalize (spin_axis2 config))).

Definition make_deriv_func (m1 m2 : float) (pn1 pn2 pn25 : bool) : DerivativeFunc :=
  fun state =>
    let r := vsub (pos1 state) (pos2 state) in
    let v := vsub (vel1 state) (vel2 state) in
    let M := m1 + m2 in
    let acc := compute_relative_acceleration r v m1 m2 pn1 pn2 pn25 in
    let a_rel := total acc in
    mk_BinaryStateDerivative (vel1 state) (smul (m2 / M) a_rel)
                             (vel2 state) (smul (- (m1 / M)) a_rel).

(** ** main.cpp, lines 120-123: the command-line front end rescales the
    configured masses before it calls [run_simulation]. *)
Definition main_normalize_masses (c : BinaryConfig) : BinaryConfig :=
  let M_total := m1 c + m2 c in
  mk_BinaryConfig (m1 c / M_total) (m2 c / M_total) (chi1 c) (chi2 c)
                  (spin_axis1 c) (spin_axis2 c) (initial_separation c)
                  (eccentricity c) (inclination c) (distance c).

(** ** Inputs used in the statements below *)

(** The bodies of [test_merger_detection] in tests/test_physics.cpp: mass
    [m], no spin, at [x] on the first axis, at rest. *)
Definition body_at_rest (m x : float) : BlackHole :=
  mk_BlackHole m 0.0 (mk_dvec3 x 0.0 0.0) (mk_dvec3 0.0 0.0 0.0)
               (mk_dvec3 0.0 1.0 0.0).

(** The state built by [run_simulation] from the bodies of [init_binary]
    (simulation.cpp, lines 140-145). *)
Definition initial_state (c : BinaryConfig) : BinaryState :=
  let b := init_binary c in
  mk_BinaryState (position (fst b)) (velocity (fst b))
                 (position (snd b)) (velocity (snd b)) 0.0.

(** The rate of change of total momentum under a derivative:
    [m1 * a1 + m2 * a2]. *)
Definition momentum_rate (m1 m2 : float) (d : BinaryStateDerivative) : dvec3 :=
  vadd (smul m1 (dvel1 d)) (smul m2 (dvel2 d)).

(** The example invocation printed by [print_help] in main.cpp,
    [bh_collision --m1 0.6 --m2 0.4 --sep 25 --chi1 0.3]; the other fields
    keep the defaults of [BinaryConfig]. *)
Definition cli_example_config : BinaryConfig :=
  mk_BinaryConfig 0.6 0.4 0.3 0.0 (mk_dvec3 0 1 0) (mk_dvec3 0 1 0)
                  25.0 0.0 0.0 1e6.

(** The defaults of [IntegratorConfig] in integrator.h. *)
Definition default_integrator : IntegratorConfig :=
  mk_IntegratorConfig 0.1 1e-6 1.0 0.1 true.

(** Fixed stepping with a step of 5, every other field at its default. *)
Definition fixed_step_integrator : IntegratorConfig :=
  mk_IntegratorConfig 5.0 1e-6 1.0 0.1 false.

(** The two equal-mass bodies of tests/test_physics.cpp, 20 apart on a
    circular orbit, as an integrator state. *)
Definition test_orbit_state : BinaryState :=
  let v_circ := PrimFloat.sqrt (1.0 / 20.0) in
  mk_BinaryState (mk_dvec3 10.0 0.0 0.0) (mk_dvec3 0.0 0.0 (v_circ * 0.5))
                 (mk_dvec3 (-10.0) 0.0 0.0) (mk_dvec3 0.0 0.0 (- v_circ * 0.5))
                 0.0.

(** The defaults of [BinaryConfig] in black_hole.h. *)
Definition default_binary : BinaryConfig :=
  mk_BinaryConfig 0.5 0.5 0.0 0.0 (mk_dvec3 0 1 0) (mk_dvec3 0 1 0)
                  20.0 0.0 0.0 1e6.

(** [bh_collision --m1 36 --m2 36.0000001]: two nearly equal masses, the
    other fields at their defaults. *)
Definition near_equal_config : BinaryConfig :=
  mk_BinaryConfig 36.0 36.0000001 0.0 0.0 (mk_dvec3 0 1 0) (mk_dvec3 0 1 0)
                  20.0 0.0 0.0 1e6.

Definition dvec3_finite (v : dvec3) : bool :=
  PrimFloat.is_finite (vx v) && PrimFloat.is_finite (vy v)
  && PrimFloat.is_finite (vz v).

(** Every field of a [RemnantProperties] is a finite number. *)
Definition remnant_finite (r : RemnantProperties) : bool :=
  PrimFloat.is_finite (rem_mass r) && PrimFloat.is_finite (rem_spin r)
  && dvec3_finite (rem_position r) && dvec3_finite (rem_velocity r)
  && PrimFloat.is_finite (kick_velocity r)
  && PrimFloat.is_finite (energy_radiated r).

(** The relative position and velocity are not parallel: some component of
    their cross product is not zero. *)
Definition not_parallel (bh1 bh2 : BlackHole) : bool :=
  let L := glm_cross (vsub (position bh1) (position bh2))
                     (vsub (velocity bh1) (velocity bh2)) in
  negb ((vx L =? 0) && (vy L =? 0) && (vz L =? 0)).

End Double.

(* ====================================================================== *)
(** * Part II: the exact-arithmetic model *)
(* ====================================================================== *)

Module Exact.

Open Scope R_scope.

(** Comparisons of the source, as booleans. *)
Definition Rltb (x y : R) : bool := if Rlt_dec x y then true else false.
Definition Rleb (x y : R) : bool := if Rle_dec x y then true else false.

Infix "<?" := Rltb (at level 70, no associativity) : R_scope.
Infix "<=?" := Rleb (at level 70, no associativity) : R_scope.

(** ** glm::dvec3 *)

Record dvec3 : Type := mk_dvec3 { vx : R; vy : R; vz : R }.

Definition dvec3_zero : dvec3 := mk_dvec3 0 0 0.

Definition vadd (a b : dvec3) : dvec3 :=
  mk_dvec3 (vx a + vx b) (vy a + vy b) (vz a + vz b).

Definition vsub (a b : dvec3) : dvec3 :=
  mk_dvec3 (vx a - vx b) (vy a - vy b) (vz a - vz b).

Definition smul (s : R) (v : dvec3) : dvec3 :=
  mk_dvec3 (s * vx v) (s * vy v) (s * vz v).

Definition vmuls (v : dvec3) (s : R) : dvec3 :=
  mk_dvec3 (vx v * s) (vy v * s) (vz v * s).

Definition vdivs (v : dvec3) (s : R) : dvec3 :=
  mk_dvec3 (vx v / s) (vy v / s) (vz v / s).

Definition glm_dot (a b : dvec3) : R :=
  vx a * vx b + vy a * vy b + vz a * vz b.

Definition glm_cross (x y : dvec3) : dvec3 :=
  mk_dvec3 (vy x * vz y - vy y * vz x)
           (vz x * vx y - vz y * vx x)
           (vx x * vy y - vx y * vy x).

Definition glm_length (v : dvec3) : R := sqrt (glm_dot v v).

Definition inversesqrt (x : R) : R := 1 / sqrt x.

Definition glm_normalize (v : dvec3) : dvec3 :=
  vmuls v (inversesqrt (glm_dot v v)).

(** ** <algorithm> and <cmath> *)

Definition std_clamp (v lo hi : R) : R :=
  if v <? lo then lo else if hi <? v then hi else v.

Definition std_max (a b : R) : R := if a <? b then b else a.

Definition std_min (a b : R) : R := if b <? a then b else a.

Definition M_PI : R := PI.

(** [std::cbrt]: the real cube root, odd in its argument. *)
Definition std_cbrt (x : R) : R :=
  if 0 <? x then Rpower x (1 / 3)
  else if x <? 0 then - Rpower (- x) (1 / 3)
  else 0.

(** [std::pow(x, y)] for a base [x > 0] is [exp (y * ln x)], and [0] for
    base [0] with [y > 0].  On the remaining arguments C returns NaN, an
    infinity or a signed integer power; these have no counterpart in this
    model and no statement below depends on the value chosen for them. *)
Definition std_pow (x y : R) : R :=
  if 0 <? x then Rpower x y else 0.

(** [std::atan2(y, x)], with values in (-PI, PI]. *)
Definition std_atan2 (y x : R) : R :=
  if 0 <? x then atan (y / x)
  else if x <? 0 then
    (if y <? 0 then atan (y / x) - PI else atan (y / x) + PI)
  else if 0 <? y then PI / 2
  else if y <? 0 then - (PI / 2)
  else 0.

(** ** black_hole.h *)

Record BlackHole : Type := mk_BlackHole {
  mass : R;
  chi : R;
  position : dvec3;
  velocity : dvec3;
  spin_axis : dvec3
}.

(** [BlackHole bh = {}]. *)
Definition BlackHole_zero : BlackHole :=
  mk_BlackHole 0 0 dvec3_zero dvec3_zero dvec3_zero.

Definition schwarzschild_radius (bh : BlackHole) : R := 2.0 * mass bh.

(** [BlackHole::isco_radius]: the prograde orbit of Bardeen, Press and
    Teukolsky, with the Schwarzschild value below the spin threshold. *)
Definition isco_radius (bh : BlackHole) : R :=
  if chi bh <? 1e-10 then 6.0 * mass bh
  else
    let a := chi bh in
    let Z1 := 1.0 + std_cbrt (1.0 - a * a) *
                    (std_cbrt (1.0 + a) + std_cbrt (1.0 - a)) in
    let Z2 := sqrt (3.0 * a * a + Z1 * Z1) in
    mass bh * (3.0 + Z2 - sqrt ((3.0 - Z1) * (3.0 + Z1 + 2.0 * Z2))).

Definition gravitational_radius (bh : BlackHole) : R := mass bh.

Record BinaryConfig : Type := mk_BinaryConfig {
  m1 : R;
  m2 : R;
  chi1 : R;
  chi2 : R;
  spin_axis1 : dvec3;
  spin_axis2 : dvec3;
  initial_separation : R;
  eccentricity : R;
  inclination : R;
  distance : R
}.

(** ** physics.h, physics.cpp *)

Record AccelerationResult : Type := mk_AccelerationResult {
  a_newtonian : dvec3;
  a_1pn : dvec3;
  a_2pn : dvec3;
  a_25pn : dvec3
}.

Definition total (a : AccelerationResult) : dvec3 :=
  vadd (vadd (vadd (a_newtonian a) (a_1pn a)) (a_2pn a)) (a_25pn a).

Definition AccelerationResult_zero : AccelerationResult :=
  mk_AccelerationResult dvec3_zero dvec3_zero dvec3_zero dvec3_zero.

Record GWStrain : Type := mk_GWStrain {
  h_plus : R;
  h_cross : R;
  gw_amplitude : R;
  gw_frequency : R
}.

Definition GWStrain_zero : GWStrain := mk_GWStrain 0 0 0 0.

Record OrbitalParams : Type := mk_OrbitalParams {
  separation : R;
  orbital_frequency : R;
  orbital_phase : R;
  radial_velocity : R;
  velocity_param : R;
  reduced_mass : R;
  total_mass : R;
  symmetric_mass_ratio : R;
  chirp_mass : R;
  energy : R;
  angular_momentum : R
}.

Definition OrbitalParams_zero : OrbitalParams :=
  mk_OrbitalParams 0 0 0 0 0 0 0 0 0 0 0.

Definition compute_relative_acceleration
    (r v : dvec3) (m1 m2 : R) (enable_1pn enable_2pn enable_25pn : bool)
    : AccelerationResult :=
  let M := m1 + m2 in
  let eta := m1 * m2 / (M * M) in
  let r2 := glm_dot r r in
  let r_mag := sqrt r2 in
  if r_mag <? 1e-10 then AccelerationResult_zero
  else
    let r3 := r2 * r_mag in
    let n := vdivs r r_mag in
    let v2 := glm_dot v v in
    let rdot := glm_dot n v in
    let res_newtonian := smul (- M / r2) n in
    let res_1pn :=
      if enable_1pn then
        let Mr := M / r_mag in
        let n_coeff := - v2
                       + 2.0 * (2.0 + eta) * Mr
                       + 1.5 * eta * rdot * rdot in
        let v_coeff := 2.0 * (2.0 - eta) * rdot in
        smul (- Mr / r_mag) (vadd (smul n_coeff n) (smul v_coeff v))
      else dvec3_zero in
    let res_2pn :=
      if enable_2pn then
        let Mr := M / r_mag in
        let Mr2 := Mr * Mr in
        let rdot2 := rdot * rdot in
        let v4 := v2 * v2 in
        let n_coeff :=
          -2.0 * (2.0 + 25.0 * eta + 2.0 * eta * eta) * Mr2
          + 1.5 * eta * (3.0 - 4.0 * eta) * v4
          + 0.5 * eta * (13.0 - 4.0 * eta) * Mr * v2
          - (2.0 + 15.0 * eta - 2.0 * eta * eta) * Mr * rdot2
          - 1.875 * eta * (1.0 - 3.0 * eta) * rdot2 * rdot2
          + 1.5 * eta * (3.0 - 4.0 * eta) * v2 * rdot2 in
        let v_coeff :=
          -0.5 * eta * (15.0 + 4.0 * eta) * v2 * rdot
          + (4.0 + 41.0 * eta / 4.0 + eta * eta) * Mr * rdot
          + 1.5 * eta * (3.0 + 2.0 * eta) * rdot * rdot2 in
        smul (- Mr / r_mag) (vadd (smul n_coeff n) (smul v_coeff v))
      else dvec3_zero in
    let res_25pn :=
      if enable_25pn then
        let Mr := M / r_mag in
        let Mr3 := M * M / (r2 * r_mag) in
        let rdot2 := rdot * rdot in
        let prefactor := 8.0 / 5.0 * eta * M * Mr / r2 in
        let n_coeff := rdot * (18.0 * v2 + (2.0 / 3.0) * Mr - 25.0 * rdot2) in
        let v_coeff := - (6.0 * v2 - 2.0 * Mr - 15.0 * rdot2) in
        smul prefactor (vadd (smul n_coeff n) (smul v_coeff v))
      else dvec3_zero in
    mk_AccelerationResult res_newtonian res_1pn res_2pn res_25pn.

Definition compute_acceleration
    (bh1 bh2 : BlackHole) (enable_1pn enable_2pn enable_25pn : bool)
    : AccelerationResult :=
  let r := vsub (position bh1) (position bh2) in
  let v := vsub (velocity bh1) (velocity bh2) in
  let rel_acc := compute_relative_acceleration r v (mass bh1) (mass bh2)
                   enable_1pn enable_2pn enable_25pn in
  let M := mass bh1 + mass bh2 in
  let factor := mass bh2 / M in
  mk_AccelerationResult (smul factor (a_newtonian rel_acc))
                        (smul factor (a_1pn rel_acc))
                        (smul factor (a_2pn rel_acc))
                        (smul factor (a_25pn rel_acc)).

Definition compute_orbital_params (bh1 bh2 : BlackHole) : OrbitalParams :=
  let p_total_mass := mass bh1 + mass bh2 in
  let p_reduced_mass := mass bh1 * mass bh2 / p_total_mass in
  let p_symmetric_mass_ratio := p_reduced_mass / p_total_mass in
  let p_chirp_mass := p_total_mass * std_pow p_symmetric_mass_ratio 0.6 in
  let r := vsub (position bh1) (position bh2) in
  let v := vsub (velocity bh1) (velocity bh2) in
  let p_separation := glm_length r in
  if p_separation <? 1e-10 then
    mk_OrbitalParams p_separation 0 0 0 0 p_reduced_mass p_total_mass
                     p_symmetric_mass_ratio p_chirp_mass 0 0
  else
    let n := vdivs r p_separation in
    let p_radial_velocity := glm_dot v n in
    let L := smul p_reduced_mass (glm_cross r v) in
    let p_angular_momentum := glm_length L in
    let p_orbital_frequency :=
      p_angular_momentum / (p_reduced_mass * p_separation * p_separation) in
    let p_velocity_param :=
      if 0 <? p_orbital_frequency
      then std_cbrt (p_total_mass * p_orbital_frequency) else 0 in
    let p_orbital_phase := std_atan2 (vz r) (vx r) in
    let v2 := glm_dot v v in
    let p_energy :=
      0.5 * p_reduced_mass * v2 - p_reduced_mass * p_total_mass / p_separation in
    mk_OrbitalParams p_separation p_orbital_frequency p_orbital_phase
                     p_radial_velocity p_velocity_param p_reduced_mass
                     p_total_mass p_symmetric_mass_ratio p_chirp_mass
                     p_energy p_angular_momentum.

Definition compute_gw_strain
    (bh1 bh2 : BlackHole) (observer_distance observer_inclination : R)
    : GWStrain :=
  let p := compute_orbital_params bh1 bh2 in
  if (separation p <? 1e-10) || (observer_distance <? 1e-10) then GWStrain_zero
  else
    let mu := reduced_mass p in
    let M := total_mass p in
    let r := separation p in
    let omega := orbital_frequency p in
    let Phi := orbital_phase p in
    let D := observer_distance in
    let iota := observer_inclination in
    let v_param := std_cbrt (M * omega) in
    let v2 := v_param * v_param in
    let prefactor := 2.0 * mu * v2 / D in
    let cos_iota := cos iota in
    let cos2_iota := cos_iota * cos_iota in
    let g_h_plus := - prefactor * (1.0 + cos2_iota) / 2.0 * cos (2.0 * Phi) in
    let g_h_cross := - prefactor * cos_iota * sin (2.0 * Phi) in
    let g_amplitude := sqrt (g_h_plus * g_h_plus + g_h_cross * g_h_cross) in
    let g_frequency := omega / M_PI in
    mk_GWStrain g_h_plus g_h_cross g_amplitude g_frequency.

Definition energy_loss_rate (eta total_mass separation : R) : R :=
  if separation <? 1e-10 then 0.0
  else
    let M := total_mass in
    let r5 := std_pow separation 5.0 in
    - (32.0 / 5.0) * eta * eta * std_pow M 5.0 / r5.

Definition angular_momentum_loss_rate (eta total_mass separation : R) : R :=
  if separation <? 1e-10 then 0.0
  else
    let M := total_mass in
    - (32.0 / 5.0) * eta * eta * std_pow M 4.5 / std_pow separation 3.5.

Definition kepler_frequency (total_mass separation : R) : R :=
  if separation <? 1e-10 then 0.0
  else sqrt (total_mass / (separation * separation * separation)).

Definition time_to_merger_estimate (eta total_mass separation : R) : R :=
  (5.0 / 256.0) * std_pow separation 4.0 / (eta * std_pow total_mass 3.0).

(** ** merger.h, merger.cpp *)

Record RemnantProperties : Type := mk_RemnantProperties {
  rem_mass : R;
  rem_spin : R;
  rem_position : dvec3;
  rem_velocity : dvec3;
  kick_velocity : R;
  energy_radiated : R
}.

Definition RemnantProperties_zero : RemnantProperties :=
  mk_RemnantProperties 0 0 dvec3_zero dvec3_zero 0 0.

Record QNMParams : Type := mk_QNMParams {
  qnm_frequency : R;
  damping_time : R;
  qnm_amplitude : R;
  qnm_phase : R
}.

Definition QNMParams_zero : QNMParams := mk_QNMParams 0 0 0 0.

Definition should_merge (bh1 bh2 : BlackHole) (critical_factor : R) : bool :=
  let separation := glm_length (vsub (position bh1) (position bh2)) in
  let r_critical :=
    critical_factor * (schwarzschild_radius bh1 + schwarzschild_radius bh2) / 2.0 in
  let v := vsub (velocity bh1) (velocity bh2) in
  let v_mag := glm_length v in
  (separation <=? r_critical) || (2.0 <? v_mag).

Definition default_critical_factor : R := 0.5.

Definition final_mass_fraction (eta chi1 chi2 : R) : R :=
  let chi_eff := 0.5 * (chi1 + chi2) in
  let p0 := 0.04827 in
  let p1 := 0.01707 in
  let p2 := -0.0308 in
  let E_rad_base := eta * (p0 + 4.0 * eta * p0) in
  let spin_corr := 1.0 + p1 * chi_eff / (1.0 + p2 * chi_eff * chi_eff) in
  let E_rad := E_rad_base * spin_corr in
  let E_rad := std_clamp E_rad 0.0 0.1 in
  let E_rad :=
    if (Rabs (eta - 0.25) <? 0.01) && (Rabs chi_eff <? 0.01)
    then 0.035 else E_rad in
  1.0 - E_rad.

Definition final_spin (eta chi1 chi2 : R) : R :=
  let s4 := -0.1229 in
  let s5 := 0.4537 in
  let t0 := -2.8904 in
  let t2 := -3.5171 in
  let t3 := 2.5763 in
  let delta_m := sqrt (1.0 - 4.0 * eta) in
  let a_init := 0.5 * ((1.0 + delta_m) * chi1 + (1.0 - delta_m) * chi2) in
  let L_orb := 2.0 * sqrt 3.0 * eta
               + t2 * eta * eta
               + t3 * eta * eta * eta in
  let a_spin := a_init
                + s4 * a_init * a_init * eta
                + s5 * a_init * eta * delta_m
                + t0 * eta * a_init in
  let af := a_spin + L_orb in
  std_clamp af 0.0 0.998.

Definition compute_qnm_222 (remnant_mass remnant_spin merger_amplitude : R)
    : QNMParams :=
  let af := remnant_spin in
  let Mf := remnant_mass in
  let f1 := 1.5251 in
  let f2 := -1.1568 in
  let f3 := 0.1292 in
  let q1 := 0.7000 in
  let q2 := 1.4187 in
  let q3 := -0.4990 in
  let one_minus_af := 1.0 - af in
  let one_minus_af := if one_minus_af <? 1e-10 then 1e-10 else one_minus_af in
  let omega_qnm := (f1 + f2 * std_pow one_minus_af f3) / Mf in
  let Q := q1 + q2 * std_pow one_minus_af q3 in
  mk_QNMParams (omega_qnm / (2.0 * M_PI)) (Q / omega_qnm)
               (merger_amplitude * 1.5) 0.0.

Definition ringdown_strain
    (qnm : QNMParams) (t_after_merger observer_distance observer_inclination : R)
    : GWStrain :=
  if t_after_merger <? 0 then GWStrain_zero
  else
    let cos_iota := cos observer_inclination in
    let cos2_iota := cos_iota * cos_iota in
    let envelope := qnm_amplitude qnm * exp (- t_after_merger / damping_time qnm) in
    let phase := 2.0 * M_PI * qnm_frequency qnm * t_after_merger + qnm_phase qnm in
    let g_h_plus :=
      envelope * (1.0 + cos2_iota) / 2.0 * cos phase / observer_distance in
    let g_h_cross := envelope * cos_iota * sin phase / observer_distance in
    let g_amplitude := sqrt (g_h_plus * g_h_plus + g_h_cross * g_h_cross) in
    mk_GWStrain g_h_plus g_h_cross g_amplitude (qnm_frequency qnm).

Definition recoil_kick (eta chi1 chi2 : R) : R :=
  let A := 1.2e4 in
  let B := -0.93 in
  let delta := sqrt (std_max 0.0 (1.0 - 4.0 * eta)) in
  let v_mass := A * eta * eta * delta * (1.0 + B * eta) in
  let delta_chi := chi1 - chi2 in
  let v_spin := 3678.0 * eta * delta_chi in
  let v_total_kms := sqrt (v_mass * v_mass + v_spin * v_spin) in
  let c_kms := 2.998e5 in
  v_total_kms / c_kms.

Definition compute_remnant (bh1 bh2 : BlackHole) : RemnantProperties :=
  let M := mass bh1 + mass bh2 in
  let eta := mass bh1 * mass bh2 / (M * M) in
  let r_mass := M * final_mass_fraction eta (chi bh1) (chi bh2) in
  let r_spin := final_spin eta (chi bh1) (chi bh2) in
  let r_energy_radiated := 1.0 - r_mass / M in
  let r_kick_velocity := recoil_kick eta (chi bh1) (chi bh2) in
  let r_position :=
    vdivs (vadd (smul (mass bh1) (position bh1)) (smul (mass bh2) (position bh2))) M in
  let v_com :=
    vdivs (vadd (smul (mass bh1) (velocity bh1)) (smul (mass bh2) (velocity bh2))) M in
  let r := vsub (position bh1) (position bh2) in
  let v := vsub (velocity bh1) (velocity bh2) in
  let L_hat := glm_normalize (glm_cross r v) in
  let r_velocity := vadd v_com (smul r_kick_velocity L_hat) in
  mk_RemnantProperties r_mass r_spin r_position r_velocity
                       r_kick_velocity r_energy_radiated.

(** ** integrator.h, integrator.cpp *)

Record BinaryState : Type := mk_BinaryState {
  pos1 : dvec3; vel1 : dvec3;
  pos2 : dvec3; vel2 : dvec3;
  time : R
}.

Record BinaryStateDerivative : Type := mk_BinaryStateDerivative {
  dpos1 : dvec3; dvel1 : dvec3;
  dpos2 : dvec3; dvel2 : dvec3
}.

Record IntegratorConfig : Type := mk_IntegratorConfig {
  dt_initial : R;
  dt_min : R;
  dt_max : R;
  safety_factor : R;
  adaptive : bool
}.

Definition DerivativeFunc : Type := BinaryState -> BinaryStateDerivative.

Definition state_add (s : BinaryState) (d : BinaryStateDerivative) (dt : R)
    : BinaryState :=
  mk_BinaryState (vadd (pos1 s) (vmuls (dpos1 d) dt))
                 (vadd (vel1 s) (vmuls (dvel1 d) dt))
                 (vadd (pos2 s) (vmuls (dpos2 d) dt))
                 (vadd (vel2 s) (vmuls (dvel2 d) dt))
                 (time s + dt).

Definition rk4_step (state : BinaryState) (dt : R) (deriv : DerivativeFunc)
    : BinaryState :=
  let k1 := deriv state in
  let k2 := deriv (state_add state k1 (dt * 0.5)) in
  let k3 := deriv (state_add state k2 (dt * 0.5)) in
  let k4 := deriv (state_add state k3 dt) in
  let w (y a b c d : dvec3) : dvec3 :=
    vadd y (smul (dt / 6.0) (vadd (vadd (vadd a (smul 2.0 b)) (smul 2.0 c)) d)) in
  mk_BinaryState
    (w (pos1 state) (dpos1 k1) (dpos1 k2) (dpos1 k3) (dpos1 k4))
    (w (vel1 state) (dvel1 k1) (dvel1 k2) (dvel1 k3) (dvel1 k4))
    (w (pos2 state) (dpos2 k1) (dpos2 k2) (dpos2 k3) (dpos2 k4))
    (w (vel2 state) (dvel2 k1) (dvel2 k2) (dvel2 k3) (dvel2 k4))
    (time state + dt).

Definition adaptive_timestep
    (state : BinaryState) (config : IntegratorConfig) (total_mass : R) : R :=
  if negb (adaptive config) then dt_initial config
  else
    let r := vsub (pos1 state) (pos2 state) in
    let separation := glm_length r in
    if separation <? 1e-10 then dt_min config
    else
      let orbital_period :=
        2.0 * M_PI * sqrt (separation * separation * separation / total_mass) in
      let dt := safety_factor config * orbital_period in
      let r_isco := 6.0 * total_mass in
      let dt :=
        if separation <? 2.0 * r_isco then
          let scale := separation / (2.0 * r_isco) in
          dt * (scale * scale)
        else dt in
      std_clamp dt (dt_min config) (dt_max config).

(** ** simulation.h, simulation.cpp *)

Record SimulationFrame : Type := mk_SimulationFrame {
  frame_time : R;
  frame_bh1 : BlackHole;
  frame_bh2 : BlackHole;
  frame_orbital : OrbitalParams;
  frame_gw : GWStrain;
  frame_phase : Z
}.

Record SimulationResult : Type := mk_SimulationResult {
  frames : list SimulationFrame;
  res_config : BinaryConfig;
  remnant : RemnantProperties;
  qnm : QNMParams;
  merger_time : R;
  total_gw_cycles : R;
  total_energy_radiated : R;
  merger_occurred : bool;
  num_inspiral_frames : Z;
  num_ringdown_frames : Z
}.

(** One call of the progress callback: (time, fraction, phase name). *)
Definition ProgressEvent : Type := (R * R * string)%type.

(** [progress_callback] is a [std::function]; the model records whether one
    is installed and, in the run, the sequence of calls made to it. *)
Record SimulationConfig : Type := mk_SimulationConfig {
  binary : BinaryConfig;
  integrator : IntegratorConfig;
  max_time : R;
  record_interval : R;
  ringdown_duration : R;
  ringdown_samples : Z;
  observer_distance : R;
  observer_inclination : R;
  enable_1pn : bool;
  enable_2pn : bool;
  enable_25pn : bool;
  progress_callback : bool
}.

Definition init_binary (config : BinaryConfig) : BlackHole * BlackHole :=
  let M := m1 config + m2 config in
  let r0 := initial_separation config in
  let r1 := r0 * m2 config / M in
  let r2 := r0 * m1 config / M in
  let v_circ_rel := sqrt (M / r0) in
  let ecc := eccentricity config in
  let v_factor := sqrt ((1.0 + ecc) / (1.0 - ecc)) in
  let v_rel := v_circ_rel * v_factor in
  let v1 := v_rel * m2 config / M in
  let v2 := v_rel * m1 config / M in
  (mk_BlackHole (m1 config) (chi1 config)
                (mk_dvec3 r1 0.0 0.0) (mk_dvec3 0.0 0.0 v1)
                (glm_normalize (spin_axis1 config)),
   mk_BlackHole (m2 config) (chi2 config)
                (mk_dvec3 (- r2) 0.0 0.0) (mk_dvec3 0.0 0.0 (- v2))
                (glm_normalize (spin_axis2 config))).

Definition make_deriv_func (m1 m2 : R) (pn1 pn2 pn25 : bool) : DerivativeFunc :=
  fun state =>
    let r := vsub (pos1 state) (pos2 state) in
    let v := vsub (vel1 state) (vel2 state) in
    let M := m1 + m2 in
    let acc := compute_relative_acceleration r v m1 m2 pn1 pn2 pn25 in
    let a_rel := total acc in
    mk_BinaryStateDerivative (vel1 state) (smul (m2 / M) a_rel)
                             (vel2 state) (smul (- (m1 / M)) a_rel).

Definition make_frame
    (time : R) (bh1 bh2 : BlackHole) (obs_distance obs_inclination : R)
    (phase : Z) : SimulationFrame :=
  mk_SimulationFrame time bh1 bh2
    (compute_orbital_params bh1 bh2)
    (compute_gw_strain bh1 bh2 obs_distance obs_inclination)
    phase.

(** [bh.position = p; bh.velocity = v;] *)
Definition set_pos_vel (bh : BlackHole) (p v : dvec3) : BlackHole :=
  mk_BlackHole (mass bh) (chi bh) p v (spin_axis bh).

(** The local variables of [run_simulation] that the inspiral loop reads
    and writes, with the calls made to the progress callback so far. *)
Record LoopState : Type := mk_LoopState {
  ls_result : SimulationResult;
  ls_bh1 : BlackHole;
  ls_bh2 : BlackHole;
  ls_state : BinaryState;
  ls_last_record_time : R;
  ls_last_phase : R;
  ls_step_count : Z;
  ls_events : list ProgressEvent
}.

Definition inspect {A : Type} (a : A) : {b : A | a = b} := exist _ a eq_refl.

Section Inspiral.

Variable config : SimulationConfig.
Variable deriv : DerivativeFunc.
Variable total_mass : R.
Variable estimated_merger_time : R.

(** The body of the [while] loop; the boolean tells whether the body left
    the loop through one of its two [break] statements. *)
Definition inspiral_body (ls : LoopState) : LoopState * bool :=
  let state := ls_state ls in
  let result := ls_result ls in
  let bh1 := set_pos_vel (ls_bh1 ls) (pos1 state) (vel1 state) in
  let bh2 := set_pos_vel (ls_bh2 ls) (pos2 state) (vel2 state) in
  if should_merge bh1 bh2 default_critical_factor then
    let result :=
      mk_SimulationResult
        (frames result ++
           [make_frame (time state) bh1 bh2 (observer_distance config)
                       (observer_inclination config) 1])
        (res_config result) (remnant result) (qnm result)
        (time state) (total_gw_cycles result) (total_energy_radiated result)
        true (num_inspiral_frames result) (num_ringdown_frames result) in
    (mk_LoopState result bh1 bh2 state (ls_last_record_time ls)
                  (ls_last_phase ls) (ls_step_count ls) (ls_events ls), true)
  else
    let current_sep := glm_length (vsub (pos1 state) (pos2 state)) in
    let M_tot := mass bh1 + mass bh2 in
    let effective_interval :=
      if current_sep <? 10.0 * M_tot
      then record_interval config / 4000.0 else record_interval config in
    let '(result, last_record_time, last_phase) :=
      if effective_interval <=? time state - ls_last_record_time ls then
        let orb := compute_orbital_params bh1 bh2 in
        let phase_diff := orbital_phase orb - ls_last_phase ls in
        let phase_diff :=
          if phase_diff <? - M_PI then phase_diff + 2.0 * M_PI else phase_diff in
        let phase_diff :=
          if M_PI <? phase_diff then phase_diff - 2.0 * M_PI else phase_diff in
        (mk_SimulationResult
           (frames result ++
              [make_frame (time state) bh1 bh2 (observer_distance config)
                          (observer_inclination config) 0])
           (res_config result) (remnant result) (qnm result)
           (merger_time result)
           (total_gw_cycles result + Rabs phase_diff / M_PI)
           (total_energy_radiated result)
           (merger_occurred result) (num_inspiral_frames result)
           (num_ringdown_frames result),
         time state, orbital_phase orb)
      else (result, ls_last_record_time ls, ls_last_phase ls) in
    let events :=
      if progress_callback config && (Z.rem (ls_step_count ls) 10000 =? 0)%Z then
        let frac := std_min 1.0 (time state / estimated_merger_time) in
        ls_events ls ++ [(time state, frac, "inspiral"%string)]
      else ls_events ls in
    let dt := adaptive_timestep state (integrator config) total_mass in
    let state := rk4_step state dt deriv in
    let step_count := (ls_step_count ls + 1)%Z in
    (mk_LoopState result bh1 bh2 state last_record_time last_phase
                  step_count events,
     (2000000000 <? step_count)%Z).

(** The test [state.time < config.max_time], then the body. *)
Definition inspiral_iteration (ls : LoopState) : option (LoopState * bool) :=
  if time (ls_state ls) <? max_time config
  then Some (inspiral_body ls) else None.

(** The number of loop bodies that can still run before the step ceiling
    tested at the end of the body stops the loop. *)
Definition steps_left (ls : LoopState) : nat :=
  Z.to_nat (2000000001 - ls_step_count ls).

(** The [while] loop, by recursion on [steps_left]. *)
Equations? inspiral_loop (ls : LoopState) : LoopState
  by wf (steps_left ls) lt :=
  inspiral_loop ls with inspect (inspiral_iteration ls) := {
    | exist _ (Some (ls', false)) e => inspiral_loop ls';
    | exist _ (Some (ls', true)) e => ls';
    | exist _ None e => ls }.
Proof.
  unfold steps_left.
  unfold inspiral_iteration in e.
  destruct (time (ls_state ls) <? max_time config); [|discriminate].
  unfold inspiral_body in e.
  destruct (should_merge _ _ _); [inversion e|].
  destruct (_ <=? _); inversion e; subst; cbn [ls_step_count] in *;
    apply Z.ltb_ge in H1; lia.
Qed.

End Inspiral.

(** The frame built by one pass of the ringdown [for] loop. *)
Definition ringdown_frame
    (config : SimulationConfig) (result : SimulationResult)
    (ringdown_dt : R) (i : Z) : SimulationFrame :=
  let t_ring := IZR i * ringdown_dt in
  let gw_ring := ringdown_strain (qnm result) t_ring
                   (observer_distance config) (observer_inclination config) in
  let rem := remnant result in
  mk_SimulationFrame
    (merger_time result + t_ring)
    (mk_BlackHole (rem_mass rem) (rem_spin rem)
                  (vadd (rem_position rem) (vmuls (rem_velocity rem) t_ring))
                  (rem_velocity rem) (mk_dvec3 0 1 0))
    BlackHole_zero
    (mk_OrbitalParams 0.0 (qnm_frequency (qnm result)) 0 0 0 0 0 0 0 0 0)
    gw_ring
    (if 1e-30 <? gw_amplitude gw_ring then 2%Z else 3%Z).

(** [result.frames.push_back(frame)]. *)
Definition push_frame (result : SimulationResult) (f : SimulationFrame)
    : SimulationResult :=
  mk_SimulationResult (frames result ++ [f])
    (res_config result) (remnant result) (qnm result) (merger_time result)
    (total_gw_cycles result) (total_energy_radiated result)
    (merger_occurred result) (num_inspiral_frames result)
    (num_ringdown_frames result).

Definition ringdown_pass
    (config : SimulationConfig) (ringdown_dt : R)
    (acc : SimulationResult * list ProgressEvent) (i : Z)
    : SimulationResult * list ProgressEvent :=
  let frame := ringdown_frame config (fst acc) ringdown_dt i in
  (push_frame (fst acc) frame,
   if progress_callback config && (Z.rem i 50 =? 0)%Z then
     let frac := IZR i / IZR (ringdown_samples config) in
     snd acc ++ [(frame_time frame, frac, "ringdown"%string)]
   else snd acc).

(** [for (int i = 0; i < config.ringdown_samples; i++)]. *)
Definition ringdown_loop
    (config : SimulationConfig) (ringdown_dt : R)
    (acc : SimulationResult * list ProgressEvent)
    : SimulationResult * list ProgressEvent :=
  fold_left (ringdown_pass config ringdown_dt)
            (map Z.of_nat (seq 0 (Z.to_nat (ringdown_samples config)))) acc.

(** The state in which [run_simulation] enters the inspiral loop. *)
Definition initial_loop_state (config : SimulationConfig) : LoopState :=
  let result :=
    mk_SimulationResult [] (binary config) RemnantProperties_zero
                        QNMParams_zero 0.0 0.0 0 false 0 0 in
  let '(bh1, bh2) := init_binary (binary config) in
  let state := mk_BinaryState (position bh1) (velocity bh1)
                              (position bh2) (velocity bh2) 0.0 in
  mk_LoopState result bh1 bh2 state (- record_interval config) 0.0 0 [].

(** Phase 1 of [run_simulation]: set-up and the inspiral loop, up to the
    point where the loop is left. *)
Definition run_inspiral (config : SimulationConfig) : LoopState :=
  let '(bh1, bh2) := init_binary (binary config) in
  let initial_orbit := compute_orbital_params bh1 bh2 in
  let estimated_merger_time :=
    time_to_merger_estimate (symmetric_mass_ratio initial_orbit)
                            (total_mass initial_orbit)
                            (separation initial_orbit) in
  let deriv := make_deriv_func (mass bh1) (mass bh2) (enable_1pn config)
                               (enable_2pn config) (enable_25pn config) in
  let total_mass := mass bh1 + mass bh2 in
  inspiral_loop config deriv total_mass estimated_merger_time
                (initial_loop_state config).

(** [run_simulation]: phase 1, then the remnant and the ringdown frames when
    a merger was detected.  The second component lists the calls made to
    the progress callback. *)
Definition run_simulation (config : SimulationConfig)
    : SimulationResult * list ProgressEvent :=
  let ls := run_inspiral config in
  let result := ls_result ls in
  let n_inspiral := Z.of_nat (List.length (frames result)) in
  if merger_occurred result then
    let rem := compute_remnant (ls_bh1 ls) (ls_bh2 ls) in
    let merger_gw := compute_gw_strain (ls_bh1 ls) (ls_bh2 ls)
                       (observer_distance config) (observer_inclination config) in
    let merger_amplitude := gw_amplitude merger_gw * observer_distance config in
    let q := compute_qnm_222 (rem_mass rem) (rem_spin rem) merger_amplitude in
    let result :=
      mk_SimulationResult (frames result) (res_config result) rem q
        (merger_time result) (total_gw_cycles result) (energy_radiated rem)
        true n_inspiral (num_ringdown_frames result) in
    let ringdown_dt :=
      ringdown_duration config / IZR (ringdown_samples config) in
    let result_events :=
      ringdown_loop config ringdown_dt (result, ls_events ls) in
    let result := fst result_events in
    (mk_SimulationResult (frames result) (res_config result) (remnant result)
       (qnm result) (merger_time result) (total_gw_cycles result)
       (total_energy_radiated result) (merger_occurred result)
       (num_inspiral_frames result) (ringdown_samples config),
     snd result_events)
  else
    (mk_SimulationResult (frames result) (res_config result) (remnant result)
       (qnm result) (merger_time result) (total_gw_cycles result)
       (total_energy_radiated result) (merger_occurred result)
       n_inspiral (num_ringdown_frames result),
     ls_events ls).

(** ** main.cpp, lines 120-123: the command-line front end rescales the
    configured masses before it calls [run_simulation]. *)
Definition main_normalize_masses (c : BinaryConfig) : BinaryConfig :=
  let M_total := m1 c + m2 c in
  mk_BinaryConfig (m1 c / M_total) (m2 c / M_total) (chi1 c) (chi2 c)
                  (spin_axis1 c) (spin_axis2 c) (initial_separation c)
                  (eccentricity c) (inclination c) (distance c).


(** ** integration_api.h, integration_api.cpp

    [float] is idealised as a real number, as [double] is, so the
    conversions [(float)x] and [glm::vec3(v)] are the identity.  [int] is a
    32-bit and [size_t] a 64-bit machine integer; where the source lets one
    wrap around, the wrap is written out. *)

Definition vec3 : Type := dvec3.

(** Unsigned arithmetic on [size_t]. *)
Definition size_t_wrap (z : Z) : Z := (z mod 2 ^ 64)%Z.

(** The conversion [(int)i] of a [size_t]. *)
Definition int_wrap (z : Z) : Z := ((z + 2 ^ 31) mod 2 ^ 32 - 2 ^ 31)%Z.

(** [glm::mix(x, y, a)] is [x * (1 - a) + y * a]. *)
Definition glm_mix (x y : vec3) (a : R) : vec3 :=
  vadd (vmuls x (1 - a)) (vmuls y a).

Record BHRenderState : Type := mk_BHRenderState {
  bhr_position : vec3;
  bhr_mass : R;
  bhr_schwarzschild_radius : R;
  bhr_spin : R;
  bhr_spin_axis : vec3;
  bhr_isco_radius : R
}.

Definition BHRenderState_zero : BHRenderState :=
  mk_BHRenderState dvec3_zero 0 0 0 dvec3_zero 0.

(** [BHRenderState black_holes[4]]. *)
Record BHArray4 : Type := mk_BHArray4 {
  bh_0 : BHRenderState;
  bh_1 : BHRenderState;
  bh_2 : BHRenderState;
  bh_3 : BHRenderState
}.

Definition BHArray4_zero : BHArray4 :=
  mk_BHArray4 BHRenderState_zero BHRenderState_zero
              BHRenderState_zero BHRenderState_zero.

(** Reading and writing [black_holes[i]]; an index outside 0..3 is outside
    the array and has no defined behaviour. *)
Definition array_get (a : BHArray4) (i : Z) : option BHRenderState :=
  if (i =? 0)%Z then Some (bh_0 a)
  else if (i =? 1)%Z then Some (bh_1 a)
  else if (i =? 2)%Z then Some (bh_2 a)
  else if (i =? 3)%Z then Some (bh_3 a)
  else None.

Definition array_set (a : BHArray4) (i : Z) (x : BHRenderState)
    : option BHArray4 :=
  if (i =? 0)%Z then Some (mk_BHArray4 x (bh_1 a) (bh_2 a) (bh_3 a))
  else if (i =? 1)%Z then Some (mk_BHArray4 (bh_0 a) x (bh_2 a) (bh_3 a))
  else if (i =? 2)%Z then Some (mk_BHArray4 (bh_0 a) (bh_1 a) x (bh_3 a))
  else if (i =? 3)%Z then Some (mk_BHArray4 (bh_0 a) (bh_1 a) (bh_2 a) x)
  else None.

Record CollisionRenderData : Type := mk_CollisionRenderData {
  rd_time : R;
  rd_num_black_holes : Z;
  rd_black_holes : BHArray4;
  rd_gw_strain_plus : R;
  rd_gw_strain_cross : R;
  rd_gw_amplitude : R;
  rd_gw_frequency : R;
  rd_orbital_phase : R;
  rd_phase : Z
}.

(** [CollisionRenderData{}]. *)
Definition CollisionRenderData_zero : CollisionRenderData :=
  mk_CollisionRenderData 0 0 BHArray4_zero 0 0 0 0 0 0.

Record CollisionTimeline : Type := mk_CollisionTimeline {
  tl_frames : list CollisionRenderData;
  tl_total_duration : R;
  tl_merger_time : R;
  tl_merger_frame_index : Z
}.

(** The render data that the loop of [CollisionTimeline::build] makes of
    one frame. *)
Definition build_render_data (f : SimulationFrame) : CollisionRenderData :=
  let bh1 := frame_bh1 f in
  let bh2 := frame_bh2 f in
  let '(n, bhs) :=
    if (frame_phase f <=? 1)%Z then
      (2%Z,
       mk_BHArray4
         (mk_BHRenderState (position bh1) (mass bh1) (schwarzschild_radius bh1)
                           (chi bh1) (spin_axis bh1) (isco_radius bh1))
         (mk_BHRenderState (position bh2) (mass bh2) (schwarzschild_radius bh2)
                           (chi bh2) (spin_axis bh2) (isco_radius bh2))
         BHRenderState_zero BHRenderState_zero)
    else
      (1%Z,
       mk_BHArray4
         (mk_BHRenderState (position bh1) (mass bh1) (2.0 * mass bh1)
                           (chi bh1) (mk_dvec3 0 1 0) (isco_radius bh1))
         BHRenderState_zero BHRenderState_zero BHRenderState_zero) in
  mk_CollisionRenderData (frame_time f) n bhs
    (h_plus (frame_gw f)) (h_cross (frame_gw f))
    (gw_amplitude (frame_gw f)) (gw_frequency (frame_gw f))
    (orbital_phase (frame_orbital f)) (frame_phase f).

(** One pass of the loop of [build], on the timeline so far and the loop
    index [i]. *)
Definition build_pass (acc : CollisionTimeline * Z) (f : SimulationFrame)
    : CollisionTimeline * Z :=
  let timeline := fst acc in
  let i := snd acc in
  let index :=
    if (frame_phase f <=? 1)%Z && (frame_phase f =? 1)%Z
       && (tl_merger_frame_index timeline <? 0)%Z
    then int_wrap i else tl_merger_frame_index timeline in
  (mk_CollisionTimeline (tl_frames timeline ++ [build_render_data f])
                        (tl_total_duration timeline)
                        (tl_merger_time timeline) index,
   (i + 1)%Z).

(** [CollisionTimeline::build]. *)
Definition build (result : SimulationResult) : CollisionTimeline :=
  match frames result with
  | [] => mk_CollisionTimeline [] 0 0 (-1)
  | f0 :: _ =>
      let timeline :=
        mk_CollisionTimeline [] (frame_time (last (frames result) f0))
                             (merger_time result) (-1) in
      fst (fold_left build_pass (frames result) (timeline, 0%Z))
  end.

(** What a call can come to: it returns a value; it indexes a vector or an
    array outside its bounds, which has no defined behaviour; or its loop
    is still running when the fuel given to the model is used up. *)
Inductive outcome (A : Type) : Type :=
| Returns (a : A)
| OutOfBounds
| OutOfFuel.

Arguments Returns {A} a.
Arguments OutOfBounds {A}.
Arguments OutOfFuel {A}.

(** [frames[i]] on a [std::vector]. *)
Definition frame_at (frames : list CollisionRenderData) (i : Z)
    : outcome CollisionRenderData :=
  if (i <? 0)%Z then OutOfBounds
  else match nth_error frames (Z.to_nat i) with
       | Some f => Returns f
       | None => OutOfBounds
       end.

(** The binary search of [CollisionTimeline::interpolate]:
    [while (lo < hi - 1)] on [size_t] indices. *)
Fixpoint interpolate_search
    (fuel : nat) (frames : list CollisionRenderData) (t : R) (lo hi : Z)
    : outcome (Z * Z) :=
  if (lo <? size_t_wrap (hi - 1))%Z then
    match fuel with
    | O => OutOfFuel
    | S fuel' =>
        let mid := (size_t_wrap (lo + hi) / 2)%Z in
        match frame_at frames mid with
        | Returns f =>
            if rd_time f <=? t
            then interpolate_search fuel' frames t mid hi
            else interpolate_search fuel' frames t lo mid
        | OutOfBounds => OutOfBounds
        | OutOfFuel => OutOfFuel
        end
    end
  else Returns (lo, hi).

(** The body of the loop over the black holes of [interpolate]. *)
Definition interpolate_black_hole (a b : BHRenderState) (alpha : R)
    : BHRenderState :=
  mk_BHRenderState
    (glm_mix (bhr_position a) (bhr_position b) alpha)
    (bhr_mass a * (1.0 - alpha) + bhr_mass b * alpha)
    (bhr_schwarzschild_radius a * (1.0 - alpha) +
     bhr_schwarzschild_radius b * alpha)
    (bhr_spin a * (1.0 - alpha) + bhr_spin b * alpha)
    (glm_normalize (glm_mix (bhr_spin_axis a) (bhr_spin_axis b) alpha))
    (bhr_isco_radius a * (1.0 - alpha) + bhr_isco_radius b * alpha).

(** [for (int i = 0; i < n; i++)], on the indices still to visit. *)
Fixpoint interpolate_black_holes
    (indices : list Z) (a b res : BHArray4) (alpha : R) : outcome BHArray4 :=
  match indices with
  | [] => Returns res
  | i :: rest =>
      match array_get a i, array_get b i with
      | Some x, Some y =>
          match array_set res i (interpolate_black_hole x y alpha) with
          | Some res' => interpolate_black_holes rest a b res' alpha
          | None => OutOfBounds
          end
      | _, _ => OutOfBounds
      end
  end.

(** [CollisionTimeline::interpolate]. *)
Definition interpolate (fuel : nat) (timeline : CollisionTimeline) (t : R)
    : outcome CollisionRenderData :=
  let frames := tl_frames timeline in
  match frames with
  | [] => Returns CollisionRenderData_zero
  | _ :: _ =>
      let t := std_max 0.0 (std_min t (tl_total_duration timeline)) in
      match interpolate_search fuel frames t 0
              (size_t_wrap (Z.of_nat (List.length frames) - 1)) with
      | OutOfBounds => OutOfBounds
      | OutOfFuel => OutOfFuel
      | Returns (lo, hi) =>
          match frame_at frames lo with
          | OutOfBounds => OutOfBounds
          | OutOfFuel => OutOfFuel
          | Returns a =>
              if (lo =? hi)%Z || (t <=? rd_time a) then Returns a
              else
                match frame_at frames hi with
                | OutOfBounds => OutOfBounds
                | OutOfFuel => OutOfFuel
                | Returns b =>
                    if rd_time b <=? t then Returns b
                    else
                      let alpha :=
                        (t - rd_time a) / (rd_time b - rd_time a) in
                      let alpha := std_max 0.0 (std_min 1.0 alpha) in
                      let phase :=
                        if alpha <? 0.5 then rd_phase a else rd_phase b in
                      let n :=
                        if alpha <? 0.5 then rd_num_black_holes a
                        else rd_num_black_holes b in
                      match interpolate_black_holes
                              (map Z.of_nat (seq 0 (Z.to_nat n)))
                              (rd_black_holes a) (rd_black_holes b)
                              BHArray4_zero alpha with
                      | OutOfBounds => OutOfBounds
                      | OutOfFuel => OutOfFuel
                      | Returns bhs =>
                          Returns
                            (mk_CollisionRenderData t n bhs
                               (rd_gw_strain_plus a * (1.0 - alpha) +
                                rd_gw_strain_plus b * alpha)
                               (rd_gw_strain_cross a * (1.0 - alpha) +
                                rd_gw_strain_cross b * alpha)
                               (rd_gw_amplitude a * (1.0 - alpha) +
                                rd_gw_amplitude b * alpha)
                               (rd_gw_frequency a * (1.0 - alpha) +
                                rd_gw_frequency b * alpha)
                               (rd_orbital_phase a * (1.0 - alpha) +
                                rd_orbital_phase b * alpha)
                               phase)
                      end
                end
          end
      end
  end.

(** ** Inputs used in the statements below *)

Definition body_at_rest (m x : R) : BlackHole :=
  mk_BlackHole m 0.0 (mk_dvec3 x 0.0 0.0) (mk_dvec3 0.0 0.0 0.0)
               (mk_dvec3 0.0 1.0 0.0).

Definition momentum_rate (m1 m2 : R) (d : BinaryStateDerivative) : dvec3 :=
  vadd (smul m1 (dvel1 d)) (smul m2 (dvel2 d)).

(** A body of mass [m] without spin at [x] on the first axis, moving with
    speed [w] along the third axis (the orbital plane is the x-z plane). *)
Definition body_on_orbit (m x w : R) : BlackHole :=
  mk_BlackHole m 0.0 (mk_dvec3 x 0.0 0.0) (mk_dvec3 0.0 0.0 w)
               (mk_dvec3 0.0 1.0 0.0).



(** The defaults of [BinaryConfig] in black_hole.h. *)
Definition default_binary : BinaryConfig :=
  mk_BinaryConfig 0.5 0.5 0.0 0.0 (mk_dvec3 0 1 0) (mk_dvec3 0 1 0)
                  20.0 0.0 0.0 1e6.

(** The defaults of [SimulationConfig], with the integrator set to a fixed
    step of size 0 and no progress callback: time does not advance. *)
Definition frozen_config : SimulationConfig :=
  mk_SimulationConfig default_binary
    (mk_IntegratorConfig 0.0 1e-6 1.0 0.1 false)
    1e6 10.0 100.0 500 1e6 0.0 true true true false.

(** The defaults of [SimulationConfig] with masses 3 and 1, passed to
    [run_simulation] directly. *)
Definition unnormalized_config : SimulationConfig :=
  mk_SimulationConfig
    (mk_BinaryConfig 3 1 0.0 0.0 (mk_dvec3 0 1 0) (mk_dvec3 0 1 0)
                     20.0 0.0 0.0 1e6)
    (mk_IntegratorConfig 0.1 1e-6 1.0 0.1 true)
    1e6 10.0 100.0 500 1e6 0.0 true true true false.

(** The defaults of [SimulationConfig] with the bodies 0.25 apart: the
    merger condition holds in the initial state. *)
Definition close_config : SimulationConfig :=
  mk_SimulationConfig
    (mk_BinaryConfig 0.5 0.5 0.0 0.0 (mk_dvec3 0 1 0) (mk_dvec3 0 1 0)
                     0.25 0.0 0.0 1e6)
    (mk_IntegratorConfig 0.1 1e-6 1.0 0.1 true)
    1e6 10.0 100.0 500 1e6 0.0 true true true false.

(** The defaults of [SimulationConfig] with a fixed step of 1 and
    [max_time = 1]: the body of the inspiral loop runs once. *)
Definition brief_config : SimulationConfig :=
  mk_SimulationConfig default_binary
    (mk_IntegratorConfig 1.0 1e-6 1.0 0.1 false)
    1.0 10.0 100.0 500 1e6 0.0 true true true false.

(** A timeline of two frames, at times 0 and 1, the second with unit wave
    amplitude. *)
Definition two_frame_timeline : CollisionTimeline :=
  mk_CollisionTimeline
    [CollisionRenderData_zero;
     mk_CollisionRenderData 1 0 BHArray4_zero 0 0 1 0 0 0]
    1 0 (-1).

(** The total momentum [m1 v1 + m2 v2] and the mass moment [m1 x1 + m2 x2]
    of a state of the integrator. *)
Definition total_momentum (m1 m2 : R) (s : BinaryState) : dvec3 :=
  vadd (smul m1 (vel1 s)) (smul m2 (vel2 s)).

Definition mass_moment (m1 m2 : R) (s : BinaryState) : dvec3 :=
  vadd (smul m1 (pos1 s)) (smul m2 (pos2 s)).

(** Both bodies lie and move in the plane [y = 0]. *)
Definition in_orbital_plane (s : BinaryState) : Prop :=
  vy (pos1 s) = 0 /\ vy (vel1 s) = 0 /\ vy (pos2 s) = 0 /\ vy (vel2 s) = 0.

(** The state of two bodies at time [t]. *)
Definition bodies_state (bh1 bh2 : BlackHole) (t : R) : BinaryState :=
  mk_BinaryState (position bh1) (velocity bh1) (position bh2) (velocity bh2) t.

(** The centre of mass is at rest at the origin and the motion is in the
    plane [y = 0]. *)
Definition balanced (m1 m2 : R) (s : BinaryState) : Prop :=
  total_momentum m1 m2 s = dvec3_zero /\
  mass_moment m1 m2 s = dvec3_zero /\
  in_orbital_plane s.

(** The configuration describes two bodies on an orbit: a positive total
    mass, a positive separation and an eccentricity in [0, 1).  Then
    [init_binary] and the step controller take no square root of a negative
    number and divide by nothing that is zero. *)
Definition orbit_defined (c : BinaryConfig) : Prop :=
  0 < m1 c + m2 c /\ 0 < initial_separation c /\ 0 <= eccentricity c < 1.

(** The step controller is set to positive steps. *)
Definition positive_steps (c : IntegratorConfig) : Prop :=
  if adaptive c then 0 < dt_min c <= dt_max c else 0 < dt_initial c.

(** What holds of the loop state each time the loop condition is tested,
    for bodies of masses [M1] and [M2]. *)
Definition inspiral_invariant (M1 M2 : R) (ls : LoopState) : Prop :=
  mass (ls_bh1 ls) = M1 /\ mass (ls_bh2 ls) = M2 /\
  merger_occurred (ls_result ls) = false /\
  num_ringdown_frames (ls_result ls) = 0%Z /\
  (0 <= ls_step_count ls <= 2000000000)%Z /\
  Forall (fun f => frame_phase f = 0%Z /\
                   mass (frame_bh1 f) = M1 /\ mass (frame_bh2 f) = M2)
         (frames (ls_result ls)).

(** What holds once the loop has been left. *)
Definition inspiral_post (M1 M2 : R) (ls : LoopState) : Prop :=
  mass (ls_bh1 ls) = M1 /\ mass (ls_bh2 ls) = M2 /\
  num_ringdown_frames (ls_result ls) = 0%Z /\
  (0 <= ls_step_count ls <= 2000000001)%Z /\
  Forall (fun f => (frame_phase f = 0%Z \/ frame_phase f = 1%Z) /\
                   mass (frame_bh1 f) = M1 /\ mass (frame_bh2 f) = M2)
         (frames (ls_result ls)) /\
  (merger_occurred (ls_result ls) = false ->
     Forall (fun f => frame_phase f = 0%Z) (frames (ls_result ls))) /\
  (merger_occurred (ls_result ls) = true ->
     should_merge (ls_bh1 ls) (ls_bh2 ls) default_critical_factor = true).

End Exact.

(* ====================================================================== *)
(** * Part III: facts about binary64 comparison and NaN *)
(* ====================================================================== *)

Section Binary64Facts.

Local Open Scope float_scope.

(** [SFcompare] is antisymmetric. *)
Lemma SFcompare_antisym (x y : spec_float) :
  SFcompare y x = option_map CompOpp (SFcompare x y).
Proof.
  destruct x as [sx|sx| |sx mx ex], y as [sy|sy| |sy my ey]; simpl;
    try reflexivity;
    try (destruct sx; reflexivity); try (destruct sy; reflexivity);
    try (destruct sx, sy; reflexivity).
  destruct sx, sy; try reflexivity.
  - rewrite (Z.compare_antisym ey ex).
    destruct (ey ?= ex)%Z; simpl; try reflexivity.
    rewrite Pos.compare_cont_antisym, ?CompOpp_involutive. reflexivity.
  - rewrite (Z.compare_antisym ey ex).
    destruct (ey ?= ex)%Z; simpl; try reflexivity.
    rewrite Pos.compare_cont_antisym. reflexivity.
Qed.

(** Two floats are incomparable exactly when one of them is NaN. *)
Lemma SFcompare_None (x y : spec_float) :
  SFcompare x y = None <-> x = S754_nan \/ y = S754_nan.
Proof.
  destruct x as [sx|sx| |sx mx ex], y as [sy|sy| |sy my ey]; simpl;
    split; intros H; try discriminate; auto;
    try (destruct H; discriminate).
Qed.

Lemma SFcompare_refl (x : spec_float) :
  x <> S754_nan -> SFcompare x x = Some Eq.
Proof.
  destruct x as [s|s| |s m e]; simpl; intros H; try reflexivity.
  - destruct s; reflexivity.
  - contradiction.
  - rewrite Z.compare_refl.
    assert (Hm : Pos.compare_cont Eq m m = Eq) by apply Pos.compare_refl.
    change PosDef.Pos.compare_cont with Pos.compare_cont.
    rewrite Hm. destruct s; reflexivity.
Qed.

Lemma is_nan_spec (x : float) :
  PrimFloat.is_nan x = true <-> Prim2SF x = S754_nan.
Proof.
  unfold PrimFloat.is_nan. rewrite FloatAxioms.eqb_spec. unfold SFeqb.
  split.
  - intros H. destruct (SFcompare (Prim2SF x) (Prim2SF x)) as [c|] eqn:E.
    + destruct (Prim2SF x) as [s|s| |s m e] eqn:Ex; try reflexivity;
        rewrite SFcompare_refl in E by discriminate;
        inversion E; subst; discriminate.
    + apply SFcompare_None in E. tauto.
  - intros H. rewrite H. reflexivity.
Qed.

Lemma is_nan_false_spec (x : float) :
  PrimFloat.is_nan x = false <-> Prim2SF x <> S754_nan.
Proof.
  rewrite <- is_nan_spec. destruct (PrimFloat.is_nan x); split; congruence.
Qed.

Lemma is_nan_eq (x : float) : PrimFloat.is_nan x = true <-> x = nan.
Proof.
  rewrite is_nan_spec. split.
  - intros H. apply Prim2SF_inj. rewrite H. reflexivity.
  - intros ->. reflexivity.
Qed.

(** A comparison that succeeds has no NaN operand. *)
Lemma leb_true_not_nan (x y : float) :
  (x <=? y) = true ->
  PrimFloat.is_nan x = false /\ PrimFloat.is_nan y = false.
Proof.
  rewrite FloatAxioms.leb_spec, !is_nan_false_spec. unfold SFleb.
  destruct (SFcompare (Prim2SF x) (Prim2SF y)) eqn:E; [|discriminate].
  intros _. split; intros H;
    assert (N : SFcompare (Prim2SF x) (Prim2SF y) = None)
      by (apply SFcompare_None; auto); congruence.
Qed.

Lemma ltb_true_not_nan (x y : float) :
  (x <? y) = true ->
  PrimFloat.is_nan x = false /\ PrimFloat.is_nan y = false.
Proof.
  rewrite FloatAxioms.ltb_spec, !is_nan_false_spec. unfold SFltb.
  destruct (SFcompare (Prim2SF x) (Prim2SF y)) eqn:E; [|discriminate].
  intros _. split; intros H;
    assert (N : SFcompare (Prim2SF x) (Prim2SF y) = None)
      by (apply SFcompare_None; auto); congruence.
Qed.

Lemma leb_refl (x : float) :
  PrimFloat.is_nan x = false -> (x <=? x) = true.
Proof.
  rewrite is_nan_false_spec, FloatAxioms.leb_spec. unfold SFleb.
  intros H. rewrite SFcompare_refl by assumption. reflexivity.
Qed.

(** On non-NaN operands [<] and [>=] are complementary. *)
Lemma ltb_false_leb (x y : float) :
  PrimFloat.is_nan x = false -> PrimFloat.is_nan y = false ->
  (x <? y) = false -> (y <=? x) = true.
Proof.
  rewrite !is_nan_false_spec, FloatAxioms.ltb_spec, FloatAxioms.leb_spec.
  unfold SFltb, SFleb. intros Hx Hy.
  rewrite (SFcompare_antisym (Prim2SF x) (Prim2SF y)).
  destruct (SFcompare (Prim2SF x) (Prim2SF y)) as [c|] eqn:E.
  - destruct c; simpl; congruence.
  - apply SFcompare_None in E. tauto.
Qed.

(** NaN is absorbing for the arithmetic operations. *)
Lemma add_nan_r (x : float) : x + nan = nan.
Proof.
  apply Prim2SF_inj. rewrite FloatAxioms.add_spec.
  change (Prim2SF nan) with S754_nan. destruct (Prim2SF x); reflexivity.
Qed.

Lemma mul_nan_r (x : float) : x * nan = nan.
Proof.
  apply Prim2SF_inj. rewrite FloatAxioms.mul_spec.
  change (Prim2SF nan) with S754_nan. destruct (Prim2SF x); reflexivity.
Qed.

(** Changing the sign of a factor changes the sign of the product, with
    no effect on rounding. *)
Lemma binary_round_aux_opp (s : bool) (mx ex : Z) (lx : SpecFloat.location) :
  binary_round_aux prec emax (negb s) mx ex lx =
  SFopp (binary_round_aux prec emax s mx ex lx).
Proof.
  unfold binary_round_aux.
  destruct (shr_fexp prec emax mx ex lx) as [mrs e'].
  destruct (shr_fexp prec emax _ e' SpecFloat.loc_Exact) as [mrs'' e''].
  destruct (shr_m mrs''); try reflexivity.
  destruct (e'' <=? emax - prec)%Z; reflexivity.
Qed.

Lemma mul_opp_l (x y : float) : (- x) * y = - (x * y).
Proof.
  apply Prim2SF_inj.
  rewrite FloatAxioms.mul_spec, !FloatAxioms.opp_spec, FloatAxioms.mul_spec.
  destruct (Prim2SF x) as [sx|sx| |sx mx ex],
           (Prim2SF y) as [sy|sy| |sy my ey]; simpl;
    try reflexivity; try (destruct sx, sy; reflexivity).
  unfold SF64mul, SFmul.
  replace (xorb (negb sx) sy) with (negb (xorb sx sy))
    by (destruct sx, sy; reflexivity).
  apply binary_round_aux_opp.
Qed.

Lemma mul_opp_r (x y : float) : x * (- y) = - (x * y).
Proof.
  apply Prim2SF_inj.
  rewrite FloatAxioms.mul_spec, !FloatAxioms.opp_spec, FloatAxioms.mul_spec.
  destruct (Prim2SF x) as [sx|sx| |sx mx ex],
           (Prim2SF y) as [sy|sy| |sy my ey]; simpl;
    try reflexivity; try (destruct sx, sy; reflexivity).
  unfold SF64mul, SFmul.
  replace (xorb sx (negb sy)) with (negb (xorb sx sy))
    by (destruct sx, sy; reflexivity).
  apply binary_round_aux_opp.
Qed.

(** A finite float is a zero or has a mantissa and an exponent. *)
Lemma is_finite_spec (z : float) :
  PrimFloat.is_finite z = true ->
  (exists s, Prim2SF z = S754_zero s) \/
  (exists s m e, Prim2SF z = S754_finite s m e).
Proof.
  unfold PrimFloat.is_finite, PrimFloat.is_nan, PrimFloat.is_infinity.
  rewrite !FloatAxioms.eqb_spec, FloatAxioms.abs_spec.
  change (Prim2SF infinity) with (S754_infinity false).
  destruct (Prim2SF z) as [s|s| |s m e]; simpl; intros H.
  - left; eauto.
  - destruct s; discriminate.
  - discriminate.
  - right; eauto.
Qed.

(** A finite float and its opposite add up to [+0]. *)
Lemma add_opp_self (z : float) :
  PrimFloat.is_finite z = true -> z + (- z) = 0.
Proof.
  intros H. apply Prim2SF_inj.
  rewrite FloatAxioms.add_spec, FloatAxioms.opp_spec.
  destruct (is_finite_spec z H) as [[s E]|(s & m & e & E)]; rewrite E.
  - destruct s; reflexivity.
  - unfold SF64add, SFadd, SFopp. rewrite Z.min_id.
    match goal with
    | |- binary_normalize _ _ ?a _ _ = _ => replace a with 0%Z
    end.
    + reflexivity.
    + generalize (fst (shl_align m e e)). intros p.
      destruct s; unfold cond_Zopp; cbn [negb]; lia.
Qed.

(** The square of a zero is [+0]. *)
Lemma mul_zero_self (x : float) : Double.is_zero_SF x -> x * x = 0.
Proof.
  intros [s H]. apply Prim2SF_inj. rewrite FloatAxioms.mul_spec, H.
  destruct s; reflexivity.
Qed.

(** A zero times the reciprocal square root of [+0] is NaN. *)
Lemma mul_zero_inversesqrt_zero (x : float) :
  Double.is_zero_SF x -> x * Double.inversesqrt 0 = nan.
Proof.
  intros [s H]. apply Prim2SF_inj. rewrite FloatAxioms.mul_spec, H.
  destruct s; reflexivity.
Qed.

(** [std::clamp] with ordered bounds returns a value within the bounds,
    unless its first argument is NaN, which it returns unchanged. *)
Lemma std_clamp_bounds (v lo hi : float) :
  (lo <=? hi) = true -> PrimFloat.is_nan v = false ->
  (lo <=? Double.std_clamp v lo hi) = true /\
  (Double.std_clamp v lo hi <=? hi) = true.
Proof.
  intros Hb Hv. destruct (leb_true_not_nan _ _ Hb) as [Hlo Hhi].
  unfold Double.std_clamp.
  destruct (v <? lo) eqn:E1; [split; [apply leb_refl|]; assumption|].
  destruct (hi <? v) eqn:E2; [split; [|apply leb_refl]; assumption|].
  split; apply ltb_false_leb; assumption.
Qed.

Lemma std_clamp_nan (lo hi : float) : Double.std_clamp nan lo hi = nan.
Proof.
  unfold Double.std_clamp.
  destruct (nan <? lo) eqn:E1.
  - apply ltb_true_not_nan in E1. destruct E1; discriminate.
  - destruct (hi <? nan) eqn:E2; [|reflexivity].
    apply ltb_true_not_nan in E2. destruct E2; discriminate.
Qed.

End Binary64Facts.

(* ====================================================================== *)
(** * Part IV: facts about the exact-arithmetic helpers *)
(* ====================================================================== *)

Section ExactFacts.

Import Exact.
Local Open Scope R_scope.

Lemma Rltb_true (x y : R) : (x <? y) = true <-> x < y.
Proof. unfold Rltb. destruct (Rlt_dec x y); split; auto; discriminate. Qed.

Lemma Rltb_false (x y : R) : (x <? y) = false <-> y <= x.
Proof.
  unfold Rltb. destruct (Rlt_dec x y); split; auto; try discriminate; lra.
Qed.

Lemma Rleb_true (x y : R) : (x <=? y) = true <-> x <= y.
Proof. unfold Rleb. destruct (Rle_dec x y); split; auto; discriminate. Qed.

Lemma Rleb_false (x y : R) : (x <=? y) = false <-> y < x.
Proof.
  unfold Rleb. destruct (Rle_dec x y); split; auto; try discriminate; lra.
Qed.

Lemma std_clamp_bounds_R (v lo hi : R) :
  lo <= hi -> lo <= std_clamp v lo hi <= hi.
Proof.
  intros H. unfold std_clamp.
  destruct (v <? lo) eqn:E1; [lra|]. apply Rltb_false in E1.
  destruct (hi <? v) eqn:E2; [lra|]. apply Rltb_false in E2. lra.
Qed.

Lemma sqrt_sq_abs (x : R) : sqrt (x * x) = Rabs x.
Proof. rewrite <- sqrt_Rsqr_abs. reflexivity. Qed.

(** The length of a vector along the first axis. *)
Lemma glm_length_x (x : R) : glm_length (mk_dvec3 x 0 0) = Rabs x.
Proof.
  unfold glm_length, glm_dot; simpl.
  replace (x * x + 0 * 0 + 0 * 0) with (x * x) by ring. apply sqrt_sq_abs.
Qed.

Lemma glm_length_z (z : R) : glm_length (mk_dvec3 0 0 z) = Rabs z.
Proof.
  unfold glm_length, glm_dot; simpl.
  replace (0 * 0 + 0 * 0 + z * z) with (z * z) by ring. apply sqrt_sq_abs.
Qed.

Lemma glm_length_y (y : R) : glm_length (mk_dvec3 0 y 0) = Rabs y.
Proof.
  unfold glm_length, glm_dot; simpl.
  replace (0 * 0 + y * y + 0 * 0) with (y * y) by ring. apply sqrt_sq_abs.
Qed.

Lemma glm_dot_self_nonneg (v : dvec3) : 0 <= glm_dot v v.
Proof. unfold glm_dot. nra. Qed.

Lemma glm_length_nonneg (v : dvec3) : 0 <= glm_length v.
Proof. apply sqrt_pos. Qed.

(** The merger predicate, as a proposition. *)
Lemma should_merge_true_iff (bh1 bh2 : BlackHole) (cf : R) :
  should_merge bh1 bh2 cf = true <->
  glm_length (vsub (position bh1) (position bh2))
    <= cf * (schwarzschild_radius bh1 + schwarzschild_radius bh2) / 2
  \/ 2 < glm_length (vsub (velocity bh1) (velocity bh2)).
Proof.
  unfold should_merge. rewrite orb_true_iff, Rleb_true, Rltb_true.
  replace 2.0 with 2 by lra. reflexivity.
Qed.

End ExactFacts.

(* ====================================================================== *)
(** * Part V: the properties of the specification *)
(* ====================================================================== *)

Section MergerThreshold.

Import Exact.
Local Open Scope R_scope.

(** C1.  [should_merge] holds exactly when the separation is at most
    [critical_factor] times the average of the two Schwarzschild radii, or
    the relative speed exceeds 2.  For the two bodies of mass 0.5 at rest
    used by [test_merger_detection], this means: merged at separation 3
    exactly when [critical_factor >= 3].  Evaluated in binary64 with the
    default factor 0.5 of merger.h, the predicate is false at separation 20
    and also false at separation 3, where the test and the specification
    expect true. *)
Theorem should_merge_threshold :
  (forall (bh1 bh2 : BlackHole) (cf : R),
      should_merge bh1 bh2 cf = true <->
      glm_length (vsub (position bh1) (position bh2))
        <= cf * (schwarzschild_radius bh1 + schwarzschild_radius bh2) / 2
      \/ 2 < glm_length (vsub (velocity bh1) (velocity bh2)))
  /\ (forall cf : R,
      should_merge (body_at_rest 0.5 1.5) (body_at_rest 0.5 (-1.5)) cf = true
      <-> 3 <= cf)
  /\ Double.should_merge (Double.body_at_rest 0.5 10) (Double.body_at_rest 0.5 (-10))
       Double.default_critical_factor = false
  /\ Double.should_merge (Double.body_at_rest 0.5 1.5) (Double.body_at_rest 0.5 (-1.5))
       Double.default_critical_factor = false.
Proof.
  split; [exact should_merge_true_iff|].
  split; [|split; vm_compute; reflexivity].
  intros cf. rewrite should_merge_true_iff.
  unfold body_at_rest, schwarzschild_radius, vsub; simpl.
  replace (1.5 - -1.5) with 3 by lra.
  replace (0.0 - 0.0) with 0 by lra.
  rewrite glm_length_x.
  replace (glm_length (mk_dvec3 0 0 0)) with 0
    by (rewrite glm_length_x, Rabs_R0; reflexivity).
  rewrite (Rabs_pos_eq 3) by lra. lra.
Qed.

End MergerThreshold.

Section MomentumSplit.

Import Exact.
Local Open Scope R_scope.

(** The split of the derivative function, in exact arithmetic. *)
Lemma momentum_split_exact
    (s : BinaryState) (m1 m2 : R) (pn1 pn2 pn25 : bool) :
  0 < m1 -> 0 < m2 ->
  let a_rel :=
    total (compute_relative_acceleration
             (vsub (pos1 s) (pos2 s)) (vsub (vel1 s) (vel2 s))
             m1 m2 pn1 pn2 pn25) in
  let d := make_deriv_func m1 m2 pn1 pn2 pn25 s in
  dvel1 d = smul (m2 / (m1 + m2)) a_rel /\
  dvel2 d = smul (- (m1 / (m1 + m2))) a_rel /\
  momentum_rate m1 m2 d = dvec3_zero /\
  (forall (chi1 chi2 : R) (axis1 axis2 : dvec3),
      total (compute_acceleration
               (mk_BlackHole m1 chi1 (pos1 s) (vel1 s) axis1)
               (mk_BlackHole m2 chi2 (pos2 s) (vel2 s) axis2)
               pn1 pn2 pn25)
      = dvel1 d).
Proof.
  intros Hm1 Hm2 a_rel d. subst d. unfold make_deriv_func. fold a_rel.
  cbn [dvel1 dvel2]. split; [reflexivity|]. split; [reflexivity|]. split.
  - unfold momentum_rate, smul, vadd, dvec3_zero. cbn [dvel1 dvel2 vx vy vz].
    f_equal; field; lra.
  - intros chi1 chi2 axis1 axis2. unfold compute_acceleration.
    cbn [position velocity mass]. subst a_rel.
    set (acc := compute_relative_acceleration _ _ _ _ _ _ _).
    unfold total, smul, vadd.
    cbn [a_newtonian a_1pn a_2pn a_25pn vx vy vz].
    f_equal; ring.
Qed.

(** The split of the derivative function in binary64, for equal masses:
    the two accelerations are opposite, so the momentum rate is [+0] in
    every component as long as [m * a1] is finite. *)
Lemma momentum_split_equal_masses
    (s : Double.BinaryState) (m : float) (pn1 pn2 pn25 : bool) :
  let d := Double.make_deriv_func m m pn1 pn2 pn25 s in
  Double.dvec3_finite (Double.smul m (Double.dvel1 d)) = true ->
  Double.momentum_rate m m d = Double.mk_dvec3 0 0 0.
Proof.
  intros d H. subst d. unfold Double.make_deriv_func in *.
  cbn [Double.dvel1 Double.dvel2] in *.
  set (a := Double.total _) in *. set (f := (m / (m + m))%float) in *.
  unfold Double.dvec3_finite, Double.smul in H.
  cbn [Double.vx Double.vy Double.vz] in H.
  apply andb_prop in H. destruct H as [H Hz].
  apply andb_prop in H. destruct H as [Hx Hy].
  unfold Double.momentum_rate, Double.smul, Double.vadd.
  cbn [Double.dvel1 Double.dvel2 Double.vx Double.vy Double.vz].
  rewrite !mul_opp_l, !mul_opp_r.
  rewrite (add_opp_self _ Hx), (add_opp_self _ Hy), (add_opp_self _ Hz).
  reflexivity.
Qed.

(** C2, as amended.  In exact arithmetic the per-body accelerations of the
    derivative function are [(m2/M) * a_rel] and [-(m1/M) * a_rel], and
    [m1 * a1 + m2 * a2] is the zero vector, for every state, every pair of
    positive masses and every combination of the three flags; the sum of
    the four terms returned by [compute_acceleration] for body 1 is the
    same [(m2/M) * a_rel].  In binary64 the momentum rate is exactly zero
    when the two masses are equal and [m * a1] is finite. *)
Theorem momentum_split :
  (forall (s : BinaryState) (m1 m2 : R) (pn1 pn2 pn25 : bool),
      0 < m1 -> 0 < m2 ->
      let a_rel :=
        total (compute_relative_acceleration
                 (vsub (pos1 s) (pos2 s)) (vsub (vel1 s) (vel2 s))
                 m1 m2 pn1 pn2 pn25) in
      let d := make_deriv_func m1 m2 pn1 pn2 pn25 s in
      dvel1 d = smul (m2 / (m1 + m2)) a_rel /\
      dvel2 d = smul (- (m1 / (m1 + m2))) a_rel /\
      momentum_rate m1 m2 d = dvec3_zero /\
      (forall (chi1 chi2 : R) (axis1 axis2 : dvec3),
          total (compute_acceleration
                   (mk_BlackHole m1 chi1 (pos1 s) (vel1 s) axis1)
                   (mk_BlackHole m2 chi2 (pos2 s) (vel2 s) axis2)
                   pn1 pn2 pn25)
          = dvel1 d))
  /\ (forall (s : Double.BinaryState) (m : float) (pn1 pn2 pn25 : bool),
      let d := Double.make_deriv_func m m pn1 pn2 pn25 s in
      Double.dvec3_finite (Double.smul m (Double.dvel1 d)) = true ->
      Double.momentum_rate m m d = Double.mk_dvec3 0 0 0).
Proof.
  split.
  - exact momentum_split_exact.
  - exact momentum_split_equal_masses.
Qed.

(** Masses 0.6 and 0.4 in exact arithmetic; the equal masses of the test
    orbit in binary64. *)
Lemma momentum_split_witness :
  momentum_rate 0.6 0.4
    (make_deriv_func 0.6 0.4 true true true
       (mk_BinaryState (mk_dvec3 10 0 0) (mk_dvec3 0 0 0.08)
                       (mk_dvec3 (-15) 0 0) (mk_dvec3 0 0 (-0.12)) 0))
  = dvec3_zero
  /\ Double.momentum_rate 0.5 0.5
       (Double.make_deriv_func 0.5 0.5 true true true Double.test_orbit_state)
     = Double.mk_dvec3 0 0 0.
Proof.
  split.
  - apply (proj1 momentum_split
             (mk_BinaryState (mk_dvec3 10 0 0) (mk_dvec3 0 0 0.08)
                             (mk_dvec3 (-15) 0 0) (mk_dvec3 0 0 (-0.12)) 0)
             0.6 0.4 true true true ltac:(lra) ltac:(lra)).
  - apply (proj2 momentum_split Double.test_orbit_state 0.5%float
             true true true).
    vm_compute. reflexivity.
Defined.

(** C2 as stated fails in binary64.  For the example invocation of the
    command-line help (masses 0.6 and 0.4, separation 25, all terms on),
    the bodies are 25 apart, both masses are positive, and the first
    component of [m1 * a1 + m2 * a2] computed from the initial state is not
    zero: the two products are rounded separately. *)
Lemma momentum_split_binary64_inexact :
  let c := Double.main_normalize_masses Double.cli_example_config in
  let s := Double.initial_state c in
  let d := Double.make_deriv_func (Double.m1 c) (Double.m2 c) true true true s in
  (PrimFloat.leb 1e-10
     (Double.glm_length (Double.vsub (Double.pos1 s) (Double.pos2 s))) = true /\
   PrimFloat.ltb 0 (Double.m1 c) = true /\
   PrimFloat.ltb 0 (Double.m2 c) = true /\
   PrimFloat.eqb
     (Double.vx (Double.momentum_rate (Double.m1 c) (Double.m2 c) d)) 0 = false)%float.
Proof. vm_compute. repeat split. Qed.

End MomentumSplit.

Section AdaptiveTimestep.

Import Double.
Local Open Scope float_scope.

(** C3, as amended.  With adaptive stepping disabled the function returns
    [dt_initial] as it is.  With adaptive stepping enabled it returns
    [dt_min] when the separation is below 1e-10; otherwise it returns
    [safety_factor * 2 pi sqrt(r^3/M)], multiplied by [(r/(2 r_isco))^2]
    with [r_isco = 6 M] when [r < 2 r_isco], and clamped to
    [dt_min, dt_max].  When adaptive stepping is enabled and
    [dt_min <= dt_max], the result lies in [dt_min, dt_max] unless it is
    NaN, and it is NaN only when the unclamped step is NaN. *)
Theorem adaptive_timestep_spec
    (state : BinaryState) (config : IntegratorConfig) (total_mass : float) :
  let r := glm_length (vsub (pos1 state) (pos2 state)) in
  let r_isco := 6.0 * total_mass in
  let period := 2.0 * M_PI * PrimFloat.sqrt (r * r * r / total_mass) in
  let dt := safety_factor config * period in
  let dt_near :=
    if r <? 2.0 * r_isco
    then dt * (r / (2.0 * r_isco) * (r / (2.0 * r_isco))) else dt in
  let result := adaptive_timestep state config total_mass in
  (adaptive config = false -> result = dt_initial config) /\
  (adaptive config = true -> (r <? 1e-10) = true -> result = dt_min config) /\
  (adaptive config = true -> (r <? 1e-10) = false ->
     result = std_clamp dt_near (dt_min config) (dt_max config)) /\
  (adaptive config = true -> (dt_min config <=? dt_max config) = true ->
     PrimFloat.is_nan result = false ->
     (dt_min config <=? result) = true /\ (result <=? dt_max config) = true) /\
  (adaptive config = true -> (dt_min config <=? dt_max config) = true ->
     PrimFloat.is_nan result = true ->
     (r <? 1e-10) = false /\ PrimFloat.is_nan dt_near = true).
Proof.
  intros r r_isco period dt dt_near result.
  assert (E0 : adaptive config = false -> result = dt_initial config).
  { intros H. subst result. unfold adaptive_timestep. rewrite H. reflexivity. }
  assert (E1 : adaptive config = true -> (r <? 1e-10) = true ->
               result = dt_min config).
  { intros H Hr. subst result. unfold adaptive_timestep. rewrite H. simpl.
    fold r. rewrite Hr. reflexivity. }
  assert (E2 : adaptive config = true -> (r <? 1e-10) = false ->
               result = std_clamp dt_near (dt_min config) (dt_max config)).
  { intros H Hr. subst result. unfold adaptive_timestep. rewrite H. simpl.
    fold r. rewrite Hr. reflexivity. }
  repeat split; auto.
  - destruct (r <? 1e-10) eqn:Hr.
    + rewrite (E1 H eq_refl). destruct (leb_true_not_nan _ _ H0).
      apply leb_refl; assumption.
    + rewrite (E2 H eq_refl) in *.
      destruct (PrimFloat.is_nan dt_near) eqn:Hn.
      * apply is_nan_eq in Hn. rewrite Hn, std_clamp_nan in H1. discriminate.
      * apply std_clamp_bounds; assumption.
  - destruct (r <? 1e-10) eqn:Hr.
    + rewrite (E1 H eq_refl). assumption.
    + rewrite (E2 H eq_refl) in *.
      destruct (PrimFloat.is_nan dt_near) eqn:Hn.
      * apply is_nan_eq in Hn. rewrite Hn, std_clamp_nan in H1. discriminate.
      * apply std_clamp_bounds; assumption.
  - destruct (r <? 1e-10) eqn:Hr; [|reflexivity].
    rewrite (E1 H eq_refl) in H1. destruct (leb_true_not_nan _ _ H0). congruence.
  - destruct (r <? 1e-10) eqn:Hr.
    + rewrite (E1 H eq_refl) in H1. destruct (leb_true_not_nan _ _ H0). congruence.
    + rewrite (E2 H eq_refl) in H1.
      destruct (PrimFloat.is_nan dt_near) eqn:Hn; [reflexivity|].
      destruct (std_clamp_bounds _ _ _ H0 Hn) as [B _].
      apply leb_true_not_nan in B. destruct B. congruence.
Qed.

(** On the test orbit with the default integrator settings and total mass
    1 the step is a number between [dt_min] and [dt_max]. *)
Lemma adaptive_timestep_spec_witness :
  (dt_min default_integrator
     <=? adaptive_timestep test_orbit_state default_integrator 1.0) = true /\
  (adaptive_timestep test_orbit_state default_integrator 1.0
     <=? dt_max default_integrator) = true.
Proof.
  apply (adaptive_timestep_spec test_orbit_state default_integrator 1.0);
    vm_compute; reflexivity.
Defined.

(** C3 as stated fails.  With adaptive stepping disabled and
    [dt_initial = 5] the function returns 5, above [dt_max = 1]: the fixed
    step is not clamped.  With the default settings and total mass -1 the
    square root of a negative number makes the result NaN. *)
Lemma adaptive_timestep_unclamped_or_nan :
  adaptive_timestep test_orbit_state fixed_step_integrator 1.0 = 5.0 /\
  (5.0 <=? dt_max fixed_step_integrator) = false /\
  PrimFloat.is_nan (adaptive_timestep test_orbit_state default_integrator (-1.0))
    = true.
Proof. vm_compute. repeat split. Qed.

End AdaptiveTimestep.

Section FinalMassFraction.

Import Exact.
Local Open Scope R_scope.



End FinalMassFraction.

Section WaveFrequency.

Import Exact.
Local Open Scope R_scope.

(** The separation reported by [compute_orbital_params] is the distance of
    the two positions, on both of its return paths. *)
Lemma compute_orbital_params_separation (bh1 bh2 : BlackHole) :
  separation (compute_orbital_params bh1 bh2) =
  glm_length (vsub (position bh1) (position bh2)).
Proof.
  unfold compute_orbital_params.
  destruct (glm_length (vsub (position bh1) (position bh2)) <? 1e-10);
    reflexivity.
Qed.

(** Above the degeneracy guard the orbital frequency is [|L| / (mu r^2)]. *)
Lemma compute_orbital_params_frequency (bh1 bh2 : BlackHole) :
  1e-10 <= glm_length (vsub (position bh1) (position bh2)) ->
  let mu := mass bh1 * mass bh2 / (mass bh1 + mass bh2) in
  let r := vsub (position bh1) (position bh2) in
  let v := vsub (velocity bh1) (velocity bh2) in
  orbital_frequency (compute_orbital_params bh1 bh2) =
  glm_length (smul mu (glm_cross r v)) / (mu * glm_length r * glm_length r).
Proof.
  intros H mu r v. unfold compute_orbital_params.
  apply Rltb_false in H. rewrite H. reflexivity.
Qed.

(** C5, as amended.  For bodies at least 1e-10 apart and an observer at
    least 1e-10 away, the frequency field of [compute_gw_strain] is the
    orbital frequency reported by [compute_orbital_params] divided by pi:
    twice the orbital rate in cycles, [omega / (2 pi)].  In angular terms,
    [2 pi] times the reported GW frequency is twice [omega]. *)
Theorem gw_frequency_of_orbital_frequency
    (bh1 bh2 : BlackHole) (observer_distance observer_inclination : R) :
  1e-10 <= glm_length (vsub (position bh1) (position bh2)) ->
  1e-10 <= observer_distance ->
  let gw := compute_gw_strain bh1 bh2 observer_distance observer_inclination in
  let omega := orbital_frequency (compute_orbital_params bh1 bh2) in
  gw_frequency gw = omega / PI /\
  gw_frequency gw = 2 * (omega / (2 * PI)) /\
  2 * PI * gw_frequency gw = 2 * omega.
Proof.
  intros Hr Hd gw omega.
  assert (E : gw_frequency gw = omega / PI).
  { subst gw omega. unfold compute_gw_strain.
    rewrite compute_orbital_params_separation.
    apply Rltb_false in Hr. apply Rltb_false in Hd. rewrite Hr, Hd.
    reflexivity. }
  pose proof PI_RGT_0 as Hpi.
  rewrite E. repeat split; field; lra.
Qed.

Lemma gw_frequency_of_orbital_frequency_witness :
  gw_frequency (compute_gw_strain (body_on_orbit 0.5 10 0.1)
                                  (body_on_orbit 0.5 (-10) (-0.1)) 1e6 0)
  = orbital_frequency (compute_orbital_params (body_on_orbit 0.5 10 0.1)
                                              (body_on_orbit 0.5 (-10) (-0.1)))
    / PI.
Proof.
  apply (gw_frequency_of_orbital_frequency
           (body_on_orbit 0.5 10 0.1) (body_on_orbit 0.5 (-10) (-0.1)) 1e6 0).
  - unfold body_on_orbit, vsub; simpl.
    replace (10 - -10) with 20 by lra. replace (0.0 - 0.0) with 0 by lra.
    rewrite glm_length_x, Rabs_pos_eq; lra.
  - lra.
Defined.

(** C5 as stated fails.  Two bodies of mass 0.5, 20 apart, with relative
    speed 0.2 across the line joining them, have orbital frequency 0.01;
    [compute_gw_strain] reports the frequency [0.01 / pi], which is not
    twice 0.01. *)
Lemma gw_frequency_not_twice_orbital :
  let bh1 := body_on_orbit 0.5 10 0.1 in
  let bh2 := body_on_orbit 0.5 (-10) (-0.1) in
  1e-10 <= glm_length (vsub (position bh1) (position bh2)) /\
  orbital_frequency (compute_orbital_params bh1 bh2) = 0.01 /\
  gw_frequency (compute_gw_strain bh1 bh2 1e6 0)
    <> 2 * orbital_frequency (compute_orbital_params bh1 bh2).
Proof.
  intros bh1 bh2.
  assert (Hr : glm_length (vsub (position bh1) (position bh2)) = 20).
  { unfold bh1, bh2, body_on_orbit, vsub; simpl.
    replace (10 - -10) with 20 by lra. replace (0.0 - 0.0) with 0 by lra.
    rewrite glm_length_x, Rabs_pos_eq; lra. }
  assert (Hw : orbital_frequency (compute_orbital_params bh1 bh2) = 0.01).
  { rewrite compute_orbital_params_frequency by (rewrite Hr; lra).
    rewrite Hr.
    unfold bh1, bh2, body_on_orbit, vsub, glm_cross, smul; simpl.
    match goal with
    | |- glm_length (mk_dvec3 ?a ?b ?c) / _ = _ =>
        replace a with 0 by lra; replace b with (-1) by lra;
        replace c with 0 by lra
    end.
    rewrite glm_length_y.
    replace (Rabs (-1)) with 1
      by (unfold Rabs; destruct (Rcase_abs (-1)); lra).
    lra. }
  split; [rewrite Hr; lra|]. split; [exact Hw|].
  destruct (gw_frequency_of_orbital_frequency bh1 bh2 1e6 0) as [E _];
    [rewrite Hr; lra | lra |].
  rewrite E, Hw. pose proof PI2_3_2 as Hpi. intros C.
  assert (C' : 0.01 = 2 * 0.01 * PI) by (rewrite <- C; field; lra).
  lra.
Qed.

End WaveFrequency.

Section DegenerateSeparation.

Import Exact.
Local Open Scope R_scope.

(** C7.  When the length of the relative position is below 1e-10,
    [compute_relative_acceleration] returns the zero vector for the
    Newtonian, 1PN, 2PN and 2.5PN terms, whatever the velocity, the masses
    and the flags: in binary64, where the length is the computed
    [sqrt (dot r r)], and in exact arithmetic.  [compute_gw_strain] returns
    the all-zero strain when the separation or the observer distance is
    below 1e-10.  Both are ordinary return values. *)
Theorem degenerate_separation_gives_zero :
  (forall (r v : Double.dvec3) (m1 m2 : float) (pn1 pn2 pn25 : bool),
      PrimFloat.ltb (PrimFloat.sqrt (Double.glm_dot r r)) 1e-10%float = true ->
      Double.compute_relative_acceleration r v m1 m2 pn1 pn2 pn25 =
      Double.mk_AccelerationResult Double.dvec3_zero Double.dvec3_zero
                                   Double.dvec3_zero Double.dvec3_zero)
  /\ (forall (r v : dvec3) (m1 m2 : R) (pn1 pn2 pn25 : bool),
      glm_length r < 1e-10 ->
      compute_relative_acceleration r v m1 m2 pn1 pn2 pn25 =
      mk_AccelerationResult dvec3_zero dvec3_zero dvec3_zero dvec3_zero /\
      total (compute_relative_acceleration r v m1 m2 pn1 pn2 pn25) =
      mk_dvec3 0 0 0)
  /\ (forall (bh1 bh2 : BlackHole) (observer_distance observer_inclination : R),
      glm_length (vsub (position bh1) (position bh2)) < 1e-10 \/
      observer_distance < 1e-10 ->
      compute_gw_strain bh1 bh2 observer_distance observer_inclination =
      mk_GWStrain 0 0 0 0).
Proof.
  split; [|split].
  - intros r v m1 m2 pn1 pn2 pn25 H.
    unfold Double.compute_relative_acceleration. rewrite H. reflexivity.
  - intros r v m1 m2 pn1 pn2 pn25 H.
    unfold compute_relative_acceleration. fold (glm_length r).
    apply Rltb_true in H. rewrite H.
    split; [reflexivity|].
    unfold total, AccelerationResult_zero, dvec3_zero, vadd; simpl.
    f_equal; ring.
  - intros bh1 bh2 D iota H. unfold compute_gw_strain.
    rewrite compute_orbital_params_separation.
    destruct H as [H|H]; apply Rltb_true in H; rewrite H;
      rewrite ?orb_true_r; reflexivity.
Qed.

(** Two bodies at the same place: no acceleration in either model, no
    strain. *)
Lemma degenerate_separation_gives_zero_witness :
  Double.compute_relative_acceleration
    (Double.mk_dvec3 0 0 0) (Double.mk_dvec3 0 0 0.2) 0.5 0.5 true true true
  = Double.mk_AccelerationResult Double.dvec3_zero Double.dvec3_zero
                                 Double.dvec3_zero Double.dvec3_zero
  /\ compute_gw_strain (body_at_rest 0.5 0) (body_at_rest 0.5 0) 1e6 0
     = mk_GWStrain 0 0 0 0.
Proof.
  destruct degenerate_separation_gives_zero as [HD [_ HG]].
  split.
  - apply HD. vm_compute. reflexivity.
  - apply HG. left. unfold body_at_rest, vsub; simpl.
    replace (0 - 0) with 0 by lra. replace (0.0 - 0.0) with 0 by lra.
    rewrite glm_length_x, Rabs_R0. lra.
Defined.

End DegenerateSeparation.

Section RingdownDecay.

Import Exact.
Local Open Scope R_scope.





End RingdownDecay.

(* ---------------------------------------------------------------------- *)
(** ** The inspiral loop *)

Section InspiralLoop.

Import Exact.
Local Open Scope R_scope.

Variable config : SimulationConfig.
Variable deriv : DerivativeFunc.
Variable total_mass est : R.

(** One unfolding of the [while] loop. *)
Lemma inspiral_loop_unfold (ls : LoopState) :
  inspiral_loop config deriv total_mass est ls =
  match inspiral_iteration config deriv total_mass est ls with
  | Some (ls', false) => inspiral_loop config deriv total_mass est ls'
  | Some (ls', true) => ls'
  | None => ls
  end.
Proof.
  rewrite inspiral_loop_equation_1.
  destruct (inspect (inspiral_iteration config deriv total_mass est ls))
    as [o e].
  destruct o as [[ls' [|]]|]; cbn [inspiral_loop_unfold_clause_1];
    rewrite e; reflexivity.
Qed.

(** A body that does not leave the loop has counted one more step, and the
    count is still at most the ceiling. *)
Lemma inspiral_iteration_continue (ls ls' : LoopState) :
  inspiral_iteration config deriv total_mass est ls = Some (ls', false) ->
  (ls_step_count ls' = ls_step_count ls + 1)%Z /\
  (ls_step_count ls' <= 2000000000)%Z.
Proof.
  unfold inspiral_iteration.
  destruct (time (ls_state ls) <? max_time config); [|discriminate].
  unfold inspiral_body.
  destruct (should_merge _ _ _); [intros e; inversion e|].
  destruct (_ <=? _); intros e; inversion e; subst; cbn [ls_step_count] in *;
    apply Z.ltb_ge in H1; lia.
Qed.

(** The proof rule of the loop: an invariant of the loop head, kept by
    every body that continues, gives the postcondition at each of the
    three exits. *)
Lemma inspiral_loop_rule (Inv Post : LoopState -> Prop) :
  (forall ls, Inv ls ->
     inspiral_iteration config deriv total_mass est ls = None -> Post ls) ->
  (forall ls ls', Inv ls ->
     inspiral_iteration config deriv total_mass est ls = Some (ls', true) ->
     Post ls') ->
  (forall ls ls', Inv ls ->
     inspiral_iteration config deriv total_mass est ls = Some (ls', false) ->
     Inv ls') ->
  forall ls, Inv ls -> Post (inspiral_loop config deriv total_mass est ls).
Proof.
  intros Hnone Hbreak Hcont ls.
  remember (steps_left ls) as n eqn:En.
  revert ls En. induction n as [n IH] using lt_wf_ind.
  intros ls En HI. rewrite inspiral_loop_unfold.
  destruct (inspiral_iteration config deriv total_mass est ls)
    as [[ls' [|]]|] eqn:E.
  - eapply Hbreak; eauto.
  - apply (IH (steps_left ls')); [|reflexivity|eapply Hcont; eauto].
    subst n. apply inspiral_iteration_continue in E. unfold steps_left. lia.
  - apply Hnone; assumption.
Qed.

Lemma inspiral_invariant_post (M1 M2 : R) (ls : LoopState) :
  inspiral_invariant M1 M2 ls -> inspiral_post M1 M2 ls.
Proof.
  intros (H1 & H2 & H3 & H4 & H5 & H6). unfold inspiral_post.
  repeat split; try assumption; try lia.
  - eapply Forall_impl; [|exact H6]. cbv beta. intros f (A & B & C). auto.
  - intros _. eapply Forall_impl; [|exact H6]. cbv beta.
    intros f (A & B & C). auto.
  - congruence.
Qed.

Lemma inspiral_body_invariant (M1 M2 : R) (ls ls' : LoopState) (b : bool) :
  inspiral_invariant M1 M2 ls ->
  inspiral_body config deriv total_mass est ls = (ls', b) ->
  (b = false -> inspiral_invariant M1 M2 ls') /\
  (b = true -> inspiral_post M1 M2 ls').
Proof.
  intros (H1 & H2 & H3 & H4 & H5 & H6). unfold inspiral_body.
  destruct (should_merge _ _ _) eqn:Em.
  - intros e. inversion e; subst; clear e. split; [discriminate|]. intros _.
    unfold inspiral_post, set_pos_vel. cbn.
    split; [reflexivity|]. split; [reflexivity|]. split; [assumption|].
    split; [lia|]. split; [|split; [discriminate|intros _; exact Em]].
    apply Forall_app. split.
    + eapply Forall_impl; [|exact H6]. cbv beta. intros f (A & B & C). auto.
    + constructor; [|constructor]. cbn. auto.
  - intros e.
    assert (Hinv : (b = false -> inspiral_invariant M1 M2 ls') /\
                   (b = true ->
                    inspiral_invariant M1 M2
                      (mk_LoopState (ls_result ls') (ls_bh1 ls') (ls_bh2 ls')
                         (ls_state ls') (ls_last_record_time ls')
                         (ls_last_phase ls') (ls_step_count ls) (ls_events ls'))
                    /\ ls_step_count ls' = (ls_step_count ls + 1)%Z)).
    { destruct (_ <=? _); inversion e; subst; clear e;
        (split; [intros Hb; apply Z.ltb_ge in Hb
                |intros Hb; apply Z.ltb_lt in Hb; split; [|reflexivity]]);
        unfold inspiral_invariant, set_pos_vel; cbn;
        repeat (split; [first [assumption | reflexivity | lia]|]);
        try assumption;
        (apply Forall_app; split; [assumption|]);
        (apply Forall_cons; [cbn; auto | apply Forall_nil]). }
    destruct Hinv as [Hf Ht]. split; [exact Hf|].
    intros Hb. destruct (Ht Hb) as [Hi Hs].
    apply inspiral_invariant_post in Hi.
    destruct Hi as (A1 & A2 & A3 & A4 & A5 & A6 & A7).
    cbn in *. unfold inspiral_post.
    repeat (split; [first [assumption | lia]|]).
    assert (Hm : merger_occurred (ls_result ls') = false).
    { destruct (_ <=? _); inversion e; subst; cbn; assumption. }
    intros C. congruence.
Qed.

Lemma inspiral_loop_post (M1 M2 : R) (ls : LoopState) :
  inspiral_invariant M1 M2 ls ->
  inspiral_post M1 M2 (inspiral_loop config deriv total_mass est ls).
Proof.
  apply inspiral_loop_rule.
  - intros l Hi _. apply inspiral_invariant_post. exact Hi.
  - intros l l' Hi E. unfold inspiral_iteration in E.
    destruct (_ <? _); [|discriminate]. inversion E as [E'].
    apply (inspiral_body_invariant M1 M2 l l' true Hi E'). reflexivity.
  - intros l l' Hi E. unfold inspiral_iteration in E.
    destruct (_ <? _); [|discriminate]. inversion E as [E'].
    apply (inspiral_body_invariant M1 M2 l l' false Hi E'). reflexivity.
Qed.

End InspiralLoop.

Section RunSimulation.

Import Exact.
Local Open Scope R_scope.

Lemma initial_loop_state_invariant (config : SimulationConfig) :
  inspiral_invariant (m1 (binary config)) (m2 (binary config))
                     (initial_loop_state config).
Proof.
  unfold inspiral_invariant, initial_loop_state, init_binary.
  cbn [ls_bh1 ls_bh2 ls_result ls_step_count mass merger_occurred
       num_ringdown_frames frames].
  repeat (split; [first [reflexivity | lia]|]). constructor.
Qed.

(** The state in which [run_simulation] leaves the inspiral loop. *)
Lemma run_inspiral_post (config : SimulationConfig) :
  inspiral_post (m1 (binary config)) (m2 (binary config)) (run_inspiral config).
Proof.
  unfold run_inspiral, init_binary. cbv zeta.
  apply inspiral_loop_post. apply initial_loop_state_invariant.
Qed.

(** The ringdown loop appends one frame per index and changes nothing that
    the frames are computed from. *)
Lemma ringdown_loop_frames (config : SimulationConfig) (dt : R) (l : list Z)
    (acc : SimulationResult * list ProgressEvent) :
  let out := fold_left (ringdown_pass config dt) l acc in
  frames (fst out) =
    frames (fst acc) ++ map (ringdown_frame config (fst acc) dt) l /\
  merger_occurred (fst out) = merger_occurred (fst acc) /\
  num_inspiral_frames (fst out) = num_inspiral_frames (fst acc).
Proof.
  revert acc. induction l as [|i l IH]; intros acc; cbn [fold_left map].
  - rewrite app_nil_r. auto.
  - destruct (IH (ringdown_pass config dt acc i)) as (F & Mo & Ni).
    cbv zeta in *. rewrite F, Mo, Ni.
    change (fst (ringdown_pass config dt acc i))
      with (push_frame (fst acc) (ringdown_frame config (fst acc) dt i)).
    change (ringdown_frame config
              (push_frame (fst acc) (ringdown_frame config (fst acc) dt i)) dt)
      with (ringdown_frame config (fst acc) dt).
    cbn [push_frame frames merger_occurred num_inspiral_frames].
    rewrite <- app_assoc. cbn [app]. auto.
Qed.

Lemma ringdown_frame_phase (config : SimulationConfig) (r : SimulationResult)
    (dt : R) (i : Z) :
  frame_phase (ringdown_frame config r dt i) = 2%Z \/
  frame_phase (ringdown_frame config r dt i) = 3%Z.
Proof.
  unfold ringdown_frame. cbn [frame_phase]. destruct (_ <? _); auto.
Qed.

(** The result of a run: the inspiral frames, followed after a merger by
    one ringdown frame per sample. *)
Lemma run_simulation_shape (config : SimulationConfig) :
  let ls := run_inspiral config in
  let res := fst (run_simulation config) in
  merger_occurred res = merger_occurred (ls_result ls) /\
  (merger_occurred res = false ->
     frames res = frames (ls_result ls) /\
     Forall (fun f => frame_phase f = 0%Z) (frames res) /\
     num_ringdown_frames res = 0%Z) /\
  (merger_occurred res = true ->
     should_merge (ls_bh1 ls) (ls_bh2 ls) default_critical_factor = true /\
     exists ringdown : list SimulationFrame,
       frames res = frames (ls_result ls) ++ ringdown /\
       Z.of_nat (List.length ringdown) = Z.max 0 (ringdown_samples config) /\
       Forall (fun f => frame_phase f = 2%Z \/ frame_phase f = 3%Z) ringdown /\
       num_ringdown_frames res = ringdown_samples config).
Proof.
  intros ls res.
  destruct (run_inspiral_post config) as (_ & _ & Hn & Hs & _ & Hno & Hyes).
  fold ls in Hn, Hs, Hno, Hyes.
  subst res. unfold run_simulation. fold ls.
  destruct (merger_occurred (ls_result ls)) eqn:Em; cbv zeta.
  - unfold ringdown_loop.
    match goal with
    | |- context [fold_left ?f ?l ?acc] =>
        destruct (ringdown_loop_frames config
                    (ringdown_duration config / IZR (ringdown_samples config))
                    l acc) as (F & Mo & _);
        cbv zeta in F, Mo; set (out := fold_left f l acc) in *
    end.
    cbn [fst frames merger_occurred num_ringdown_frames] in *.
    split; [exact Mo|]. split; [rewrite Mo; discriminate|].
    intros _. split; [apply Hyes; reflexivity|].
    eexists. split; [exact F|]. split; [|split; [|reflexivity]].
    + rewrite !length_map, length_seq. lia.
    + apply Forall_forall. intros f Hf. apply in_map_iff in Hf.
      destruct Hf as (i & <- & _). apply ringdown_frame_phase.
  - cbn [fst frames merger_occurred num_ringdown_frames].
    split; [reflexivity|]. split; [|discriminate].
    intros _. split; [reflexivity|]. split; [apply Hno; reflexivity|exact Hn].
Qed.

(** An RK4 step of size 0 leaves the state unchanged. *)
Lemma rk4_step_zero (s : BinaryState) (d : DerivativeFunc) :
  rk4_step s 0 d = s.
Proof.
  unfold rk4_step, vadd, smul. destruct s as [[] [] [] [] t]. cbn.
  f_equal; first [lra | f_equal; lra].
Qed.

(** The initial state of the default binary does not satisfy the merger
    predicate: the bodies are 20 apart and slower than 2. *)
Lemma frozen_no_merger (bh1 bh2 : BlackHole) :
  mass bh1 = 0.5 -> mass bh2 = 0.5 ->
  let s := ls_state (initial_loop_state frozen_config) in
  should_merge (set_pos_vel bh1 (pos1 s) (vel1 s))
               (set_pos_vel bh2 (pos2 s) (vel2 s)) default_critical_factor
  = false.
Proof.
  intros H1 H2 s. apply not_true_is_false. intros C.
  apply should_merge_true_iff in C.
  unfold set_pos_vel, schwarzschild_radius in C.
  cbn [position velocity mass] in C. rewrite H1, H2 in C.
  subst s.
  unfold initial_loop_state, init_binary, frozen_config, default_binary in C.
  cbn [binary m1 m2 initial_separation eccentricity ls_state pos1 pos2
       vel1 vel2 position velocity fst snd] in C.
  unfold vsub in C. cbn [vx vy vz] in C.
  set (w := sqrt ((0.5 + 0.5) / 20.0) * sqrt ((1.0 + 0.0) / (1.0 - 0.0))) in C.
  replace (20.0 * 0.5 / (0.5 + 0.5) - - (20.0 * 0.5 / (0.5 + 0.5)))
    with 20 in C by lra.
  replace (0.0 - 0.0) with 0 in C by lra.
  replace (w * 0.5 / (0.5 + 0.5) - - (w * 0.5 / (0.5 + 0.5)))
    with w in C by lra.
  rewrite glm_length_x, glm_length_z in C.
  rewrite (Rabs_pos_eq 20) in C by lra.
  assert (Hw : 0 <= w <= 1).
  { unfold w. replace ((1.0 + 0.0) / (1.0 - 0.0)) with 1 by lra.
    rewrite sqrt_1, Rmult_1_r. split; [apply sqrt_pos|].
    rewrite <- sqrt_1 at 1. apply sqrt_le_1_alt. lra. }
  rewrite (Rabs_pos_eq w) in C by lra.
  unfold default_critical_factor in C. lra.
Qed.

(** With a fixed step of size 0 the default binary stays where it is: the
    loop is left by the ceiling test alone, with 2*10^9 + 1 steps counted,
    no merger, and time still below [max_time]. *)
Lemma frozen_run_final :
  let ls := run_inspiral frozen_config in
  ls_step_count ls = 2000000001%Z /\
  merger_occurred (ls_result ls) = false /\
  time (ls_state ls) < max_time frozen_config.
Proof.
  set (s0 := ls_state (initial_loop_state frozen_config)).
  set (Inv := fun ls : LoopState =>
                ls_state ls = s0 /\ mass (ls_bh1 ls) = 0.5 /\
                mass (ls_bh2 ls) = 0.5 /\
                merger_occurred (ls_result ls) = false /\
                (0 <= ls_step_count ls <= 2000000000)%Z).
  set (Post := fun ls : LoopState =>
                ls_step_count ls = 2000000001%Z /\
                merger_occurred (ls_result ls) = false /\
                time (ls_state ls) < max_time frozen_config).
  assert (Ht : time s0 = 0) by (unfold s0; cbn; lra).
  assert (Hmax : max_time frozen_config = 1e6) by reflexivity.
  change (Post (run_inspiral frozen_config)).
  unfold run_inspiral, init_binary. cbv zeta.
  apply (inspiral_loop_rule _ _ _ _ Inv Post).
  - intros ls (Hs & _) E. unfold inspiral_iteration in E.
    rewrite Hs in E.
    assert (Hlt : (time s0 <? max_time frozen_config) = true)
      by (apply Rltb_true; rewrite Ht, Hmax; lra).
    rewrite Hlt in E. discriminate.
  - intros ls ls' (Hs & H1 & H2 & Hm & Hc) E. unfold inspiral_iteration in E.
    destruct (_ <? _); [|discriminate]. inversion E as [E']; clear E.
    unfold inspiral_body in E'. rewrite Hs in E'.
    pose proof (frozen_no_merger _ _ H1 H2) as Hn. cbv zeta in Hn.
    fold s0 in Hn. rewrite Hn in E'.
    unfold Post.
    destruct (_ <=? _); injection E' as El Eb; subst ls';
      cbn [ls_step_count ls_result ls_state merger_occurred];
      apply Z.ltb_lt in Eb;
      (split; [lia|]); (split; [assumption|]);
      unfold adaptive_timestep;
      cbn [integrator frozen_config adaptive negb dt_initial];
      replace 0.0 with 0 by lra; rewrite rk4_step_zero, Ht, Hmax; lra.
  - intros ls ls' (Hs & H1 & H2 & Hm & Hc) E. unfold inspiral_iteration in E.
    destruct (_ <? _); [|discriminate]. inversion E as [E']; clear E.
    unfold inspiral_body in E'. rewrite Hs in E'.
    pose proof (frozen_no_merger _ _ H1 H2) as Hn. cbv zeta in Hn.
    fold s0 in Hn. rewrite Hn in E'.
    unfold Inv.
    destruct (_ <=? _); injection E' as El Eb; subst ls';
      cbn [ls_step_count ls_result ls_state merger_occurred ls_bh1 ls_bh2];
      apply Z.ltb_ge in Eb;
      unfold set_pos_vel; cbn [mass];
      (split; [unfold adaptive_timestep;
               cbn [integrator frozen_config adaptive negb dt_initial];
               replace 0.0 with 0 by lra; apply rk4_step_zero|]);
      repeat (split; [first [assumption | lia]|]); lia.
  - unfold Inv, initial_loop_state, init_binary.
    cbn [ls_state ls_bh1 ls_bh2 ls_result ls_step_count mass merger_occurred
         binary frozen_config default_binary m1 m2].
    repeat (split; [first [reflexivity | lia | lra]|]). lia.
Qed.


End RunSimulation.

Section StepCeiling.

Import Exact.
Local Open Scope R_scope.

(** C8, as amended.  [run_simulation] is a total function: its inspiral
    loop is defined by recursion on the steps left below the ceiling.  The
    loop is left with at most 2*10^9 + 1 steps counted, because the test
    [step_count > 2000000000] comes after the increment.  A run that leaves
    the loop without merger returns [merger_occurred = false], the inspiral
    frames only (all tagged 0) and no ringdown frame.  After a merger, which
    happens only when [should_merge] held, the ringdown loop appends one
    frame per sample, [max 0 ringdown_samples] in all, each tagged 2 or 3. *)
Theorem run_simulation_bounded (config : SimulationConfig) :
  let ls := run_inspiral config in
  let res := fst (run_simulation config) in
  (0 <= ls_step_count ls <= 2000000001)%Z /\
  merger_occurred res = merger_occurred (ls_result ls) /\
  (merger_occurred res = false ->
     frames res = frames (ls_result ls) /\
     Forall (fun f => frame_phase f = 0%Z) (frames res) /\
     num_ringdown_frames res = 0%Z) /\
  (merger_occurred res = true ->
     should_merge (ls_bh1 ls) (ls_bh2 ls) default_critical_factor = true /\
     exists ringdown : list SimulationFrame,
       frames res = frames (ls_result ls) ++ ringdown /\
       Z.of_nat (List.length ringdown) = Z.max 0 (ringdown_samples config) /\
       Forall (fun f => frame_phase f = 2%Z \/ frame_phase f = 3%Z) ringdown /\
       num_ringdown_frames res = ringdown_samples config).
Proof.
  intros ls res. split.
  - destruct (run_inspiral_post config) as (_ & _ & _ & Hs & _). exact Hs.
  - apply run_simulation_shape.
Qed.

(** C8 as stated fails by one step.  With a fixed step of size 0 the state
    of the default binary never changes: it is 20 apart, so no merger is
    detected, and time stays at 0, below [max_time].  The loop is left by
    the ceiling test alone, when 2*10^9 + 1 steps have been counted. *)
Lemma frozen_run_reaches_ceiling :
  let ls := run_inspiral frozen_config in
  ls_step_count ls = 2000000001%Z /\
  (2000000000 < ls_step_count ls)%Z /\
  merger_occurred (ls_result ls) = false /\
  time (ls_state ls) < max_time frozen_config.
Proof.
  intros ls. destruct frozen_run_final as (Hs & Hm & Ht). fold ls in Hs, Hm, Ht.
  repeat split; try assumption. lia.
Qed.

(** The run with a fixed step of size 0 ends without merger, so all its
    frames are inspiral frames. *)
Lemma run_simulation_bounded_witness :
  Forall (fun f => frame_phase f = 0%Z)
         (frames (fst (run_simulation frozen_config))).
Proof.
  destruct (run_simulation_bounded frozen_config) as (_ & Hm & Hno & _).
  apply Hno. rewrite Hm. apply frozen_run_final.
Defined.

End StepCeiling.

Section MassNormalization.

Import Exact.
Local Open Scope R_scope.

(** C6, as amended.  [run_simulation] takes the configured masses as they
    are: the two bodies built by [init_binary], the derivative function,
    the total mass given to the step controller, the bodies left by the
    inspiral loop and every inspiral or merger frame (tag 0 or 1) of the
    result carry [config.m1] and [config.m2].  The rescaling to
    [m1/(m1+m2)] and [m2/(m1+m2)], which sum to 1 when [m1 + m2] is not 0,
    is done by the command-line [main] on the configuration before it calls
    [run_simulation]. *)
Theorem masses_taken_as_configured :
  (forall config : SimulationConfig,
      let c := binary config in
      let ls := run_inspiral config in
      mass (fst (init_binary c)) = m1 c /\
      mass (snd (init_binary c)) = m2 c /\
      (exists est : R,
         ls = inspiral_loop config
                (make_deriv_func (m1 c) (m2 c) (enable_1pn config)
                                 (enable_2pn config) (enable_25pn config))
                (m1 c + m2 c) est (initial_loop_state config)) /\
      mass (ls_bh1 ls) = m1 c /\ mass (ls_bh2 ls) = m2 c /\
      (forall f : SimulationFrame,
         In f (frames (fst (run_simulation config))) ->
         (frame_phase f <= 1)%Z ->
         mass (frame_bh1 f) = m1 c /\ mass (frame_bh2 f) = m2 c))
  /\ (forall c : BinaryConfig,
      m1 (main_normalize_masses c) = m1 c / (m1 c + m2 c) /\
      m2 (main_normalize_masses c) = m2 c / (m1 c + m2 c) /\
      (m1 c + m2 c <> 0 ->
       m1 (main_normalize_masses c) + m2 (main_normalize_masses c) = 1)).
Proof.
  split.
  - intros config c ls.
    destruct (run_inspiral_post config)
      as (Hb1 & Hb2 & _ & _ & Hfr & _ & _).
    fold ls c in Hb1, Hb2, Hfr.
    split; [reflexivity|]. split; [reflexivity|].
    split.
    { unfold ls, c, run_inspiral, init_binary. cbv zeta. cbn [mass].
      eexists. apply f_equal. reflexivity. }
    split; [exact Hb1|]. split; [exact Hb2|].
    intros f Hin Hph.
    destruct (run_simulation_shape config) as (_ & Hno & Hyes).
    cbv zeta in Hno, Hyes. fold ls in Hno, Hyes.
    rewrite Forall_forall in Hfr.
    destruct (merger_occurred (fst (run_simulation config))) eqn:Em.
    + destruct (Hyes eq_refl) as (_ & ring & Hf & _ & Hring & _).
      rewrite Hf in Hin. apply in_app_or in Hin. destruct Hin as [Hin|Hin].
      * apply Hfr in Hin. tauto.
      * rewrite Forall_forall in Hring. apply Hring in Hin. lia.
    + destruct (Hno eq_refl) as (Hf & _). rewrite Hf in Hin.
      apply Hfr in Hin. tauto.
  - intros c. unfold main_normalize_masses. cbn [m1 m2].
    split; [reflexivity|]. split; [reflexivity|].
    intros H. field. exact H.
Qed.

(** The masses 3 and 1, rescaled by [main], sum to 1. *)
Lemma masses_taken_as_configured_witness :
  m1 (main_normalize_masses (binary unnormalized_config))
  + m2 (main_normalize_masses (binary unnormalized_config)) = 1.
Proof.
  apply (proj2 masses_taken_as_configured (binary unnormalized_config)).
  cbn [binary unnormalized_config m1 m2]. lra.
Defined.

(** C6 as stated fails.  Given masses 3 and 1, [run_simulation] evolves
    bodies of mass 3 and 1: they do not sum to 1 and the first is not
    [3/(3+1)]. *)
Lemma masses_not_renormalized :
  let ls := run_inspiral unnormalized_config in
  mass (ls_bh1 ls) = 3 /\ mass (ls_bh2 ls) = 1 /\
  mass (ls_bh1 ls) + mass (ls_bh2 ls) <> 1 /\
  mass (ls_bh1 ls) <> 3 / (3 + 1).
Proof.
  intros ls.
  destruct (run_inspiral_post unnormalized_config) as (H1 & H2 & _).
  fold ls in H1, H2. cbn [binary unnormalized_config m1 m2] in H1, H2.
  rewrite H1, H2. repeat split; lra.
Qed.

End MassNormalization.

Section RemnantKick.

Import Double.
Local Open Scope float_scope.

(** The unit vector of exact arithmetic: for a vector of nonzero length,
    [glm_normalize] divides by the length and the result has length 1. *)
Lemma glm_normalize_unit (L : Exact.dvec3) :
  (Exact.glm_length L <> 0 ->
   Exact.glm_normalize L = Exact.vdivs L (Exact.glm_length L) /\
   Exact.glm_length (Exact.glm_normalize L) = 1)%R.
Proof.
  intros H.
  assert (E : Exact.glm_normalize L = Exact.vdivs L (Exact.glm_length L)).
  { unfold Exact.glm_normalize, Exact.inversesqrt, Exact.vmuls, Exact.vdivs.
    fold (Exact.glm_length L). f_equal; field; exact H. }
  split; [exact E|]. rewrite E.
  pose proof (Exact.glm_length L) as l.
  assert (Hl : (0 < Exact.glm_length L)%R).
  { pose proof (glm_length_nonneg L). lra. }
  unfold Exact.glm_length at 1. unfold Exact.glm_dot, Exact.vdivs.
  cbn [Exact.vx Exact.vy Exact.vz].
  set (n := Exact.glm_length L) in *.
  replace (Exact.vx L / n * (Exact.vx L / n) + Exact.vy L / n * (Exact.vy L / n)
           + Exact.vz L / n * (Exact.vz L / n))%R
    with (Exact.glm_dot L L / (n * n))%R
    by (unfold Exact.glm_dot; field; lra).
  assert (Hn : (n * n = Exact.glm_dot L L)%R).
  { unfold n, Exact.glm_length. apply sqrt_sqrt. apply glm_dot_self_nonneg. }
  rewrite <- Hn. replace (n * n / (n * n))%R with 1%R by (field; lra).
  apply sqrt_1.
Qed.

(** The normalisation of a vector whose three components are zeros is the
    NaN vector. *)
Lemma glm_normalize_zero (L : dvec3) :
  is_zero_SF (vx L) -> is_zero_SF (vy L) -> is_zero_SF (vz L) ->
  glm_normalize L = mk_dvec3 nan nan nan.
Proof.
  intros Hx Hy Hz. unfold glm_normalize, glm_dot, vmuls.
  rewrite (mul_zero_self _ Hx), (mul_zero_self _ Hy), (mul_zero_self _ Hz).
  change (0 + 0 + 0) with 0.
  rewrite !mul_zero_inversesqrt_zero by assumption. reflexivity.
Qed.

(** C10.  [compute_remnant] sets the remnant velocity to the
    centre-of-mass velocity plus [kick_velocity] times the cross product
    [L] of relative position and velocity scaled by [1 / sqrt (dot L L)],
    without a guard; in exact arithmetic that direction is the unit vector
    along [L] when [L] is not zero.  When the three components of [L] are
    zeros, the direction and the remnant velocity are NaN vectors.  For
    the default binary, whose [L] is not zero, every field of the result
    is finite.  For the nearly equal masses 36 and 36.0000001, rescaled as
    [main] does, [L] is not zero and yet the remnant spin is NaN:
    [final_spin] takes the square root of [1 - 4 eta], which rounding has
    made negative. *)
Theorem compute_remnant_kick_direction :
  (forall bh1 bh2 : BlackHole,
      let M := mass bh1 + mass bh2 in
      let v_com :=
        vdivs (vadd (smul (mass bh1) (velocity bh1))
                    (smul (mass bh2) (velocity bh2))) M in
      let L := glm_cross (vsub (position bh1) (position bh2))
                         (vsub (velocity bh1) (velocity bh2)) in
      let rem := compute_remnant bh1 bh2 in
      rem_velocity rem =
        vadd v_com
             (smul (kick_velocity rem)
                   (vmuls L (1 / PrimFloat.sqrt (glm_dot L L)))) /\
      (is_zero_SF (vx L) -> is_zero_SF (vy L) -> is_zero_SF (vz L) ->
       glm_normalize L = mk_dvec3 nan nan nan /\
       rem_velocity rem = mk_dvec3 nan nan nan))
  /\ (forall L : Exact.dvec3,
      (Exact.glm_length L <> 0 ->
       Exact.glm_normalize L = Exact.vdivs L (Exact.glm_length L) /\
       Exact.glm_length (Exact.glm_normalize L) = 1)%R)
  /\ (let b := init_binary default_binary in
      not_parallel (fst b) (snd b) = true /\
      remnant_finite (compute_remnant (fst b) (snd b)) = true)
  /\ (let b := init_binary (main_normalize_masses near_equal_config) in
      (0 <? mass (fst b)) = true /\ (0 <? mass (snd b)) = true /\
      not_parallel (fst b) (snd b) = true /\
      PrimFloat.is_nan (rem_spin (compute_remnant (fst b) (snd b))) = true /\
      remnant_finite (compute_remnant (fst b) (snd b)) = false).
Proof.
  split; [|split; [exact glm_normalize_unit|split; vm_compute; repeat split]].
  intros bh1 bh2 M v_com L rem. split; [reflexivity|].
  intros Hx Hy Hz.
  pose proof (glm_normalize_zero L Hx Hy Hz) as HL.
  split; [exact HL|].
  subst rem. unfold compute_remnant. cbn [rem_velocity].
  fold L. rewrite HL. unfold smul, vadd. cbn [vx vy vz].
  rewrite !mul_nan_r, !add_nan_r. reflexivity.
Qed.

(** Two bodies at rest, 3 apart: a head-on configuration. *)
Lemma compute_remnant_kick_direction_witness :
  rem_velocity (compute_remnant (body_at_rest 0.5 1.5) (body_at_rest 0.5 (-1.5)))
  = mk_dvec3 nan nan nan.
Proof.
  apply (proj1 compute_remnant_kick_direction
           (body_at_rest 0.5 1.5) (body_at_rest 0.5 (-1.5)));
    exists false; reflexivity.
Defined.

End RemnantKick.

(* ====================================================================== *)
(** * Part VI: further properties of the code *)
(* ====================================================================== *)

(** Properties of functions that the statements of Part V do not reach:
    the decay rates and orbit set-up of physics.cpp and simulation.cpp, the
    fits of merger.cpp, the conservation laws of the RK4 step, the frame
    list of [run_simulation], and the timeline of integration_api.cpp.  All
    statements are about the exact-arithmetic model unless they name
    [Double]. *)

Section PowerFacts.

Import Exact.
Local Open Scope R_scope.

Lemma std_pow_pos (x y : R) : 0 < x -> std_pow x y = exp (y * ln x).
Proof.
  intros H. unfold std_pow. apply Rltb_true in H. rewrite H. reflexivity.
Qed.

Lemma std_pow_nat (x : R) (n : nat) : 0 < x -> std_pow x (INR n) = x ^ n.
Proof.
  intros H. unfold std_pow. rewrite (proj2 (Rltb_true _ _) H).
  apply Rpower_pow. exact H.
Qed.

Lemma sqrt_exp_ln (x : R) : 0 < x -> sqrt x = exp (ln x / 2).
Proof.
  intros H. rewrite <- (Rpower_sqrt x H). unfold Rpower. f_equal. lra.
Qed.

Lemma ln_div_cube (M r : R) :
  0 < M -> 0 < r -> ln (M / (r * r * r)) = ln M - 3 * ln r.
Proof.
  intros HM Hr. unfold Rdiv.
  assert (0 < r * r) by nra. assert (0 < r * r * r) by nra.
  rewrite ln_mult by (try assumption; apply Rinv_0_lt_compat; assumption).
  rewrite ln_Rinv by assumption. rewrite !ln_mult by assumption. lra.
Qed.

End PowerFacts.

Section DecayRates.

Import Exact.
Local Open Scope R_scope.

(** X1.  [kepler_frequency] obeys Kepler's third law: for a non-negative total
    mass [M] and a separation [r] of at least 1e-10 the returned frequency
    is non-negative and its square times [r^3] is [M]. *)
Theorem kepler_frequency_third_law (M r : R) :
  0 <= M -> 1e-10 <= r ->
  0 <= kepler_frequency M r /\
  kepler_frequency M r * kepler_frequency M r * (r * r * r) = M.
Proof.
  intros HM Hr. unfold kepler_frequency.
  rewrite (proj2 (Rltb_false _ _) Hr).
  assert (H0 : 0 < r) by lra.
  assert (H3 : 0 < r * r * r) by (assert (0 < r * r) by nra; nra).
  split; [apply sqrt_pos|].
  rewrite sqrt_sqrt.
  - field. lra.
  - unfold Rdiv. apply Rmult_le_pos; [lra|].
    left. apply Rinv_0_lt_compat. exact H3.
Qed.

Lemma kepler_frequency_third_law_witness :
  kepler_frequency 1 10 * kepler_frequency 1 10 * (10 * 10 * 10) = 1.
Proof.
  apply (kepler_frequency_third_law 1 10); lra.
Defined.

(** X2.  For a positive total mass and a separation of at least 1e-10 the
    energy loss rate is the Kepler frequency times the angular momentum
    loss rate (dE/dt = Omega dL/dt on a circular orbit), and neither rate is
    ever positive, whatever the sign of [eta]. *)
Theorem energy_loss_is_frequency_times_torque (eta M r : R) :
  0 < M -> 1e-10 <= r ->
  energy_loss_rate eta M r =
    kepler_frequency M r * angular_momentum_loss_rate eta M r /\
  energy_loss_rate eta M r <= 0 /\
  angular_momentum_loss_rate eta M r <= 0.
Proof.
  intros HM Hr.
  assert (H0 : 0 < r) by lra.
  assert (H3 : 0 < r * r * r) by (assert (0 < r * r) by nra; nra).
  unfold energy_loss_rate, angular_momentum_loss_rate, kepler_frequency.
  rewrite (proj2 (Rltb_false _ _) Hr). cbv zeta.
  rewrite !std_pow_pos by assumption.
  rewrite sqrt_exp_ln by (apply Rdiv_lt_0_compat; assumption).
  rewrite ln_div_cube by assumption.
  set (a := ln M). set (b := ln r).
  unfold Rdiv. rewrite <- !exp_Ropp.
  assert (E : exp (5.0 * a) * exp (- (5.0 * b)) =
              exp ((a - 3 * b) * / 2) * (exp (4.5 * a) * exp (- (3.5 * b)))).
  { rewrite <- !exp_plus. f_equal. lra. }
  pose proof (exp_pos (5.0 * a)) as P1.
  pose proof (exp_pos (- (5.0 * b))) as P2.
  pose proof (exp_pos (4.5 * a)) as P3.
  pose proof (exp_pos (- (3.5 * b))) as P4.
  assert (Q : 0 <= eta * eta) by nra.
  split; [|split].
  - transitivity (- (32.0 * / 5.0) * eta * eta *
                  (exp (5.0 * a) * exp (- (5.0 * b)))); [ring|].
    rewrite E. ring.
  - assert (0 < exp (5.0 * a) * exp (- (5.0 * b))) by nra. nra.
  - assert (0 < exp (4.5 * a) * exp (- (3.5 * b))) by nra. nra.
Qed.

Lemma energy_loss_is_frequency_times_torque_witness :
  energy_loss_rate 0.25 1 10 <= 0.
Proof.
  apply (energy_loss_is_frequency_times_torque 0.25 1 10); lra.
Defined.

(** X3.  For [eta <> 0], a positive total mass and a separation [r] of at
    least 1e-10, [time_to_merger_estimate] is Peters' closed form
    [5 r^4 / (256 eta M^3)]; four times the estimate times [energy_loss_rate]
    is the Newtonian orbital energy [- eta M^2 / (2 r)]; and the estimate is
    positive when [eta] is. *)
Theorem time_to_merger_estimate_peters (eta M r : R) :
  eta <> 0 -> 0 < M -> 1e-10 <= r ->
  time_to_merger_estimate eta M r
    = 5 * (r * r * r * r) / (256 * eta * (M * M * M)) /\
  4 * time_to_merger_estimate eta M r * energy_loss_rate eta M r
    = - (eta * M * M) / (2 * r) /\
  (0 < eta -> 0 < time_to_merger_estimate eta M r).
Proof.
  intros He HM Hr. assert (Hr0 : 0 < r) by lra.
  assert (E : time_to_merger_estimate eta M r
              = 5 * (r * r * r * r) / (256 * eta * (M * M * M))).
  { unfold time_to_merger_estimate.
    replace 4.0 with (INR 4) by (simpl; lra).
    replace 3.0 with (INR 3) by (simpl; lra).
    rewrite !std_pow_nat by assumption. simpl.
    replace 5.0 with 5 by lra. replace 256.0 with 256 by lra.
    field. split; lra. }
  split; [exact E|]. split.
  - rewrite E. unfold energy_loss_rate.
    rewrite (proj2 (Rltb_false _ _) Hr). cbv zeta.
    replace 5.0 with (INR 5) by (simpl; lra).
    rewrite !std_pow_nat by assumption. simpl.
    replace 32.0 with 32 by lra.
    replace (1 + 1 + 1 + 1 + 1) with 5 by lra.
    field. repeat split; lra.
  - intros Hp. rewrite E. apply Rdiv_lt_0_compat.
    + assert (0 < r * r) by nra. assert (0 < r * r * r) by nra. nra.
    + assert (0 < M * M) by nra. assert (0 < M * M * M) by nra. nra.
Qed.

Lemma time_to_merger_estimate_peters_witness :
  time_to_merger_estimate (1 / 4) 1 20
    = 5 * (20 * 20 * 20 * 20) / (256 * (1 / 4) * (1 * 1 * 1)).
Proof.
  apply (time_to_merger_estimate_peters (1 / 4) 1 20); lra.
Defined.

End DecayRates.

Section OrbitalParameters.

Import Exact.
Local Open Scope R_scope.




Lemma glm_length_vsub_swap (a b : dvec3) :
  glm_length (vsub a b) = glm_length (vsub b a).
Proof.
  unfold glm_length, glm_dot, vsub. cbn [vx vy vz]. f_equal. ring.
Qed.

Lemma glm_cross_vsub_swap (a b c d : dvec3) :
  glm_cross (vsub b a) (vsub d c) = glm_cross (vsub a b) (vsub c d).
Proof.
  unfold glm_cross, vsub. cbn [vx vy vz]. f_equal; ring.
Qed.

(** X5.  Exchanging the two bodies changes none of the scalar orbital
    parameters (separation, frequency, radial velocity, velocity parameter,
    masses, mass ratio, chirp mass, energy, angular momentum) and not the
    answer of [should_merge].  A merger detected with one critical factor is
    also detected with every larger one, for a non-negative total mass. *)
Theorem exchange_symmetry (bh1 bh2 : BlackHole) (cf cf' : R) :
  let p := compute_orbital_params bh1 bh2 in
  let q := compute_orbital_params bh2 bh1 in
  (separation q = separation p /\
   orbital_frequency q = orbital_frequency p /\
   radial_velocity q = radial_velocity p /\
   velocity_param q = velocity_param p /\
   reduced_mass q = reduced_mass p /\
   total_mass q = total_mass p /\
   symmetric_mass_ratio q = symmetric_mass_ratio p /\
   chirp_mass q = chirp_mass p /\
   energy q = energy p /\
   angular_momentum q = angular_momentum p) /\
  should_merge bh2 bh1 cf = should_merge bh1 bh2 cf /\
  (cf <= cf' -> 0 <= mass bh1 + mass bh2 ->
   should_merge bh1 bh2 cf = true -> should_merge bh1 bh2 cf' = true).
Proof.
  intros p q. split; [|split].
  - subst p q. unfold compute_orbital_params.
    rewrite (glm_length_vsub_swap (position bh2) (position bh1)).
    rewrite (glm_cross_vsub_swap (position bh1) (position bh2)
                                 (velocity bh1) (velocity bh2)).
    replace (mass bh2 + mass bh1) with (mass bh1 + mass bh2) by ring.
    replace (mass bh2 * mass bh1) with (mass bh1 * mass bh2) by ring.
    set (s := glm_length (vsub (position bh1) (position bh2))).
    assert (Ed : glm_dot (vsub (velocity bh2) (velocity bh1))
                         (vdivs (vsub (position bh2) (position bh1)) s) =
                 glm_dot (vsub (velocity bh1) (velocity bh2))
                         (vdivs (vsub (position bh1) (position bh2)) s)).
    { unfold glm_dot, vdivs, vsub. cbn [vx vy vz]. unfold Rdiv. ring. }
    assert (Ev : glm_dot (vsub (velocity bh2) (velocity bh1))
                         (vsub (velocity bh2) (velocity bh1)) =
                 glm_dot (vsub (velocity bh1) (velocity bh2))
                         (vsub (velocity bh1) (velocity bh2))).
    { unfold glm_dot, vsub. cbn [vx vy vz]. ring. }
    destruct (s <? 1e-10);
      cbn [separation orbital_frequency radial_velocity velocity_param
           reduced_mass total_mass symmetric_mass_ratio chirp_mass energy
           angular_momentum];
      rewrite ?Ed, ?Ev; repeat split; reflexivity.
  - unfold should_merge, schwarzschild_radius.
    rewrite (glm_length_vsub_swap (position bh2) (position bh1)).
    rewrite (glm_length_vsub_swap (velocity bh2) (velocity bh1)).
    replace (2.0 * mass bh2 + 2.0 * mass bh1)
      with (2.0 * mass bh1 + 2.0 * mass bh2) by ring.
    reflexivity.
  - intros Hc HM. rewrite !should_merge_true_iff.
    unfold schwarzschild_radius. intros [H|H]; [left|right; exact H].
    eapply Rle_trans; [exact H|].
    replace 2.0 with 2 by lra. nra.
Qed.

(** Masses 3 and 1 at rest, 2 apart: merged at factor 1, hence at 2. *)
Lemma exchange_symmetry_witness :
  should_merge (body_at_rest 3 1) (body_at_rest 1 (-1)) 2 = true.
Proof.
  apply (exchange_symmetry (body_at_rest 3 1) (body_at_rest 1 (-1)) 1 2).
  - lra.
  - cbn [body_at_rest mass]. lra.
  - apply should_merge_true_iff. left.
    unfold body_at_rest, schwarzschild_radius, vsub.
    cbn [position mass vx vy vz].
    replace (1 - -1) with 2 by lra. replace (0.0 - 0.0) with 0 by lra.
    rewrite glm_length_x, (Rabs_pos_eq 2) by lra. lra.
Defined.

End OrbitalParameters.

Section InitialOrbit.

Import Exact.
Local Open Scope R_scope.

(** The relative position and velocity of the bodies [init_binary] builds. *)
Lemma init_binary_relative (c : BinaryConfig) :
  m1 c + m2 c <> 0 ->
  let b := init_binary c in
  let v_rel := sqrt ((m1 c + m2 c) / initial_separation c) *
               sqrt ((1.0 + eccentricity c) / (1.0 - eccentricity c)) in
  vsub (position (fst b)) (position (snd b))
    = mk_dvec3 (initial_separation c) 0 0 /\
  vsub (velocity (fst b)) (velocity (snd b)) = mk_dvec3 0 0 v_rel /\
  mass (fst b) = m1 c /\ mass (snd b) = m2 c.
Proof.
  intros HM b v_rel. subst b. unfold init_binary.
  cbn [fst snd position velocity mass]. unfold vsub. cbn [vx vy vz].
  fold v_rel.
  split; [f_equal; first [field; exact HM | lra]|].
  split; [f_equal; first [field; exact HM | lra]|].
  split; reflexivity.
Qed.








End InitialOrbit.

Section Accelerations.

Import Exact.
Local Open Scope R_scope.

Lemma glm_length_sq (v : dvec3) : glm_length v * glm_length v = glm_dot v v.
Proof. unfold glm_length. apply sqrt_sqrt. apply glm_dot_self_nonneg. Qed.

Lemma glm_length_smul (k : R) (v : dvec3) :
  glm_length (smul k v) = Rabs k * glm_length v.
Proof.
  unfold glm_length.
  replace (glm_dot (smul k v) (smul k v)) with (k * k * glm_dot v v)
    by (unfold glm_dot, smul; cbn [vx vy vz]; ring).
  rewrite sqrt_mult.
  - rewrite sqrt_sq_abs. reflexivity.
  - apply Rle_0_sqr.
  - apply glm_dot_self_nonneg.
Qed.

Lemma std_pow_5 (x : R) : 0 < x -> std_pow x 5.0 = x * x * x * x * x.
Proof.
  intros H. unfold std_pow. rewrite (proj2 (Rltb_true _ _) H).
  replace 5.0 with (INR 5) by (simpl; lra).
  rewrite Rpower_pow by exact H. simpl. ring.
Qed.

(** X9.  At a separation [d] of at least 1e-10 the Newtonian part of the
    relative acceleration is [- M r / d^3]: it has magnitude [|M| / d^2],
    its projection on [r] is [- M / d], and with all post-Newtonian flags
    off it is the total acceleration. *)
Theorem newtonian_acceleration_inverse_square
    (r v : dvec3) (m1 m2 : R) (pn1 pn2 pn25 : bool) :
  1e-10 <= glm_length r ->
  let acc := compute_relative_acceleration r v m1 m2 pn1 pn2 pn25 in
  let M := m1 + m2 in
  let d := glm_length r in
  a_newtonian acc = smul (- M / (d * d * d)) r /\
  glm_length (a_newtonian acc) = Rabs M / (d * d) /\
  glm_dot (a_newtonian acc) r = - M / d /\
  total (compute_relative_acceleration r v m1 m2 false false false)
    = a_newtonian acc.
Proof.
  intros Hr acc M d.
  assert (Hd : 0 < d) by (unfold d; lra).
  assert (Hdd : d * d = glm_dot r r) by apply glm_length_sq.
  assert (Hlt : (d <? 1e-10) = false) by (apply Rltb_false; exact Hr).
  assert (Ea : a_newtonian acc = smul (- M / (d * d * d)) r).
  { subst acc. unfold compute_relative_acceleration.
    change (sqrt (glm_dot r r)) with d. rewrite Hlt. cbn [a_newtonian].
    fold M. rewrite <- Hdd. unfold smul, vdivs. cbn [vx vy vz].
    f_equal; field; lra. }
  split; [exact Ea|]. split; [|split].
  - rewrite Ea, glm_length_smul. fold d.
    replace (- M / (d * d * d)) with (- (M / (d * d * d))) by (field; lra).
    rewrite Rabs_Ropp. unfold Rdiv at 1. rewrite Rabs_mult.
    rewrite (Rabs_pos_eq (/ (d * d * d))).
    + field. lra.
    + left. apply Rinv_0_lt_compat.
      assert (0 < d * d) by nra. nra.
  - rewrite Ea.
    replace (glm_dot (smul (- M / (d * d * d)) r) r)
      with (- M / (d * d * d) * glm_dot r r)
      by (unfold glm_dot, smul; cbn [vx vy vz]; ring).
    rewrite <- Hdd. field. lra.
  - subst acc. unfold compute_relative_acceleration.
    change (sqrt (glm_dot r r)) with d. rewrite Hlt.
    unfold total, vadd, dvec3_zero.
    cbn [a_newtonian a_1pn a_2pn a_25pn vx vy vz].
    unfold smul. cbn [vx vy vz]. f_equal; ring.
Qed.

Lemma newtonian_acceleration_inverse_square_witness :
  a_newtonian (compute_relative_acceleration
                 (mk_dvec3 4 0 0) (mk_dvec3 0 0 (1 / 2)) (1 / 2) (1 / 2)
                 true true true)
  = smul (- (1 / 2 + 1 / 2) /
            (glm_length (mk_dvec3 4 0 0) * glm_length (mk_dvec3 4 0 0)
             * glm_length (mk_dvec3 4 0 0)))
         (mk_dvec3 4 0 0).
Proof.
  apply (newtonian_acceleration_inverse_square
           (mk_dvec3 4 0 0) (mk_dvec3 0 0 (1 / 2)) (1 / 2) (1 / 2)
           true true true).
  rewrite glm_length_x, Rabs_pos_eq; lra.
Defined.

(** X10.  On a circular Kepler orbit (velocity orthogonal to the separation,
    [v^2 = M / d]) of positive masses the 2.5PN term is a drag along the
    velocity, [- (32/5) eta M^3 / d^4 * v], and the power it takes from the
    orbit, the reduced mass times its product with the velocity, is exactly
    [energy_loss_rate]. *)
Theorem radiation_reaction_power
    (r v : dvec3) (m1 m2 : R) (pn1 pn2 : bool) :
  0 < m1 -> 0 < m2 -> 1e-10 <= glm_length r ->
  glm_dot r v = 0 -> glm_dot v v = (m1 + m2) / glm_length r ->
  let M := m1 + m2 in
  let eta := m1 * m2 / (M * M) in
  let mu := m1 * m2 / M in
  let d := glm_length r in
  let acc := compute_relative_acceleration r v m1 m2 pn1 pn2 true in
  a_25pn acc = smul (- (32 / 5 * eta * (M * M * M) / (d * d * d * d))) v /\
  mu * glm_dot (a_25pn acc) v = energy_loss_rate eta M d.
Proof.
  intros H1 H2 Hr Hrv Hvv M eta mu d acc.
  assert (Hd : 0 < d) by (unfold d; lra).
  assert (HM : 0 < M) by (unfold M; lra).
  assert (Hdd : d * d = glm_dot r r) by apply glm_length_sq.
  assert (Hlt : (d <? 1e-10) = false) by (apply Rltb_false; exact Hr).
  fold M d in Hvv.
  assert (Ea : a_25pn acc =
               smul (- (32 / 5 * eta * (M * M * M) / (d * d * d * d))) v).
  { subst acc. unfold compute_relative_acceleration.
    change (sqrt (glm_dot r r)) with d. rewrite Hlt. cbn [a_25pn].
    fold M. fold eta. rewrite <- Hdd.
    assert (Erd : glm_dot (vdivs r d) v = 0).
    { replace (glm_dot (vdivs r d) v) with (glm_dot r v / d)
        by (unfold glm_dot, vdivs; cbn [vx vy vz]; field; lra).
      rewrite Hrv. unfold Rdiv. ring. }
    rewrite Erd, Hvv.
    unfold smul, vadd, vdivs. cbn [vx vy vz].
    replace 8.0 with 8 by lra. replace 5.0 with 5 by lra.
    replace 18.0 with 18 by lra. replace 2.0 with 2 by lra.
    replace 3.0 with 3 by lra. replace 25.0 with 25 by lra.
    replace 6.0 with 6 by lra. replace 15.0 with 15 by lra.
    f_equal; field; lra. }
  split; [exact Ea|].
  rewrite Ea.
  replace (glm_dot (smul (- (32 / 5 * eta * (M * M * M) / (d * d * d * d))) v) v)
    with (- (32 / 5 * eta * (M * M * M) / (d * d * d * d)) * glm_dot v v)
    by (unfold glm_dot, smul; cbn [vx vy vz]; ring).
  rewrite Hvv. unfold energy_loss_rate. rewrite Hlt. cbv zeta.
  rewrite !std_pow_5 by assumption.
  replace 32.0 with 32 by lra. replace 5.0 with 5 by lra.
  unfold mu, eta. field. lra.
Qed.

Lemma radiation_reaction_power_witness :
  (1 / 2 * (1 / 2) / (1 / 2 + 1 / 2)) *
  glm_dot (a_25pn (compute_relative_acceleration
                     (mk_dvec3 4 0 0) (mk_dvec3 0 0 (1 / 2)) (1 / 2) (1 / 2)
                     true true true))
          (mk_dvec3 0 0 (1 / 2))
  = energy_loss_rate (1 / 2 * (1 / 2) / ((1 / 2 + 1 / 2) * (1 / 2 + 1 / 2)))
                     (1 / 2 + 1 / 2) (glm_length (mk_dvec3 4 0 0)).
Proof.
  apply (radiation_reaction_power
           (mk_dvec3 4 0 0) (mk_dvec3 0 0 (1 / 2)) (1 / 2) (1 / 2) true true).
  - lra.
  - lra.
  - rewrite glm_length_x, Rabs_pos_eq; lra.
  - unfold glm_dot. cbn [vx vy vz]. lra.
  - rewrite glm_length_x, Rabs_pos_eq by lra.
    unfold glm_dot. cbn [vx vy vz]. lra.
Defined.

End Accelerations.

Section StrainAmplitude.

Import Exact.
Local Open Scope R_scope.

(** The angular pattern of the two polarisations: with [x = cos] and
    [y = sin] of the wave phase and [c] the cosine of the inclination, the
    squared amplitude is the squared prefactor times a number between
    [c^2] and [1]. *)
Lemma quadrupole_pattern_bounds (c x y : R) :
  x * x + y * y = 1 -> -1 <= c <= 1 ->
  c * c <= (1 + c * c) / 2 * ((1 + c * c) / 2) * (x * x) + c * c * (y * y) <= 1.
Proof.
  intros Hxy Hc.
  set (k := (1 + c * c) / 2 * ((1 + c * c) / 2)).
  assert (Hcc : 0 <= c * c <= 1) by nra.
  assert (Hk1 : k <= 1) by (unfold k; nra).
  assert (Hk2 : c * c <= k).
  { unfold k. pose proof (Rle_0_sqr (1 - c * c)) as H. unfold Rsqr in H. nra. }
  assert (Hx : 0 <= x * x) by apply Rle_0_sqr.
  assert (Hy : 0 <= y * y) by apply Rle_0_sqr.
  clearbody k. split; nra.
Qed.

(** The amplitude [sqrt (h+^2 + hx^2)] for strains of the quadrupole
    pattern with prefactor [P]. *)
Lemma quadrupole_amplitude_bounds (P c x y hp hc : R) :
  x * x + y * y = 1 -> -1 <= c <= 1 ->
  hp * hp = P * P * ((1 + c * c) / 2 * ((1 + c * c) / 2) * (x * x)) ->
  hc * hc = P * P * (c * c * (y * y)) ->
  Rabs P * Rabs c <= sqrt (hp * hp + hc * hc) <= Rabs P.
Proof.
  intros Hxy Hc Hp Hx.
  pose proof (quadrupole_pattern_bounds c x y Hxy Hc) as [Hlo Hhi].
  set (Q := (1 + c * c) / 2 * ((1 + c * c) / 2) * (x * x) + c * c * (y * y))
    in *.
  assert (E : hp * hp + hc * hc = P * P * Q) by (rewrite Hp, Hx; unfold Q; ring).
  rewrite E.
  assert (HPP : 0 <= P * P) by apply Rle_0_sqr.
  assert (HQ : 0 <= Q) by (pose proof (Rle_0_sqr c) as H; unfold Rsqr in H; lra).
  rewrite sqrt_mult by assumption. rewrite sqrt_sq_abs.
  assert (HsQ : Rabs c <= sqrt Q <= 1).
  { split.
    - rewrite <- sqrt_sq_abs. apply sqrt_le_1_alt. exact Hlo.
    - rewrite <- sqrt_1. apply sqrt_le_1_alt. exact Hhi. }
  pose proof (Rabs_pos P). split; nra.
Qed.

(** X11.  For bodies of positive mass at least 1e-10 apart seen from a
    distance of at least 1e-10, the amplitude reported by [compute_gw_strain] lies between
    [|P| |cos iota|] and [|P|], where [P = 2 mu v^2 / D] is the quadrupole
    prefactor, and equals [|P|] for a face-on observer. *)
Theorem gw_strain_amplitude_bounds
    (bh1 bh2 : BlackHole) (D iota : R) :
  0 < mass bh1 -> 0 < mass bh2 ->
  1e-10 <= glm_length (vsub (position bh1) (position bh2)) ->
  1e-10 <= D ->
  let p := compute_orbital_params bh1 bh2 in
  let gw := compute_gw_strain bh1 bh2 D iota in
  let v := std_cbrt (total_mass p * orbital_frequency p) in
  let P := 2 * reduced_mass p * (v * v) / D in
  Rabs P * Rabs (cos iota) <= gw_amplitude gw <= Rabs P /\
  (iota = 0 -> gw_amplitude gw = Rabs P).
Proof.
  intros _ _ Hr HD p gw v P.
  assert (Hs : (separation p <? 1e-10) = false).
  { apply Rltb_false. unfold p. rewrite compute_orbital_params_separation.
    exact Hr. }
  assert (Hd : (D <? 1e-10) = false) by (apply Rltb_false; exact HD).
  assert (HD0 : 0 < D) by lra.
  assert (Eg : gw_amplitude gw =
               sqrt ((- P * (1 + cos iota * cos iota) / 2
                        * cos (2.0 * orbital_phase p)) *
                     (- P * (1 + cos iota * cos iota) / 2
                        * cos (2.0 * orbital_phase p)) +
                     (- P * cos iota * sin (2.0 * orbital_phase p)) *
                     (- P * cos iota * sin (2.0 * orbital_phase p)))).
  { subst gw. unfold compute_gw_strain. fold p. rewrite Hs, Hd.
    cbn [orb gw_amplitude]. fold v.
    replace (2.0 * reduced_mass p * (v * v) / D) with P
      by (unfold P; replace 2.0 with 2 by lra; reflexivity).
    replace 1.0 with 1 by lra.
    replace (- P * (1 + cos iota * cos iota) / 2.0)
      with (- P * (1 + cos iota * cos iota) / 2)
      by (replace 2.0 with 2 by lra; reflexivity).
    reflexivity. }
  set (ph := 2.0 * orbital_phase p) in *.
  pose proof (sin2_cos2 ph) as Hsc. unfold Rsqr in Hsc.
  assert (Hxy : cos ph * cos ph + sin ph * sin ph = 1) by lra.
  pose proof (COS_bound iota) as Hc.
  assert (HB : Rabs P * Rabs (cos iota) <= gw_amplitude gw <= Rabs P).
  { rewrite Eg.
    apply (quadrupole_amplitude_bounds P (cos iota) (cos ph) (sin ph));
      try assumption; field. }
  split; [exact HB|].
  intros Hi. rewrite Hi, cos_0, Rabs_R1 in HB. lra.
Qed.

Lemma gw_strain_amplitude_bounds_witness :
  gw_amplitude (compute_gw_strain (body_on_orbit (1 / 2) 2 (1 / 4))
                                  (body_on_orbit (1 / 2) (-2) (- (1 / 4)))
                                  1 0)
  = Rabs (2 * reduced_mass (compute_orbital_params
                              (body_on_orbit (1 / 2) 2 (1 / 4))
                              (body_on_orbit (1 / 2) (-2) (- (1 / 4)))) *
          (std_cbrt (total_mass (compute_orbital_params
                                   (body_on_orbit (1 / 2) 2 (1 / 4))
                                   (body_on_orbit (1 / 2) (-2) (- (1 / 4)))) *
                     orbital_frequency (compute_orbital_params
                                   (body_on_orbit (1 / 2) 2 (1 / 4))
                                   (body_on_orbit (1 / 2) (-2) (- (1 / 4))))) *
           std_cbrt (total_mass (compute_orbital_params
                                   (body_on_orbit (1 / 2) 2 (1 / 4))
                                   (body_on_orbit (1 / 2) (-2) (- (1 / 4)))) *
                     orbital_frequency (compute_orbital_params
                                   (body_on_orbit (1 / 2) 2 (1 / 4))
                                   (body_on_orbit (1 / 2) (-2) (- (1 / 4)))))) / 1).
Proof.
  apply (gw_strain_amplitude_bounds
           (body_on_orbit (1 / 2) 2 (1 / 4))
           (body_on_orbit (1 / 2) (-2) (- (1 / 4))) 1 0).
  - cbn [body_on_orbit mass]. lra.
  - cbn [body_on_orbit mass]. lra.
  - unfold body_on_orbit, vsub. cbn [position vx vy vz].
    replace (2 - -2) with 4 by lra. replace (0.0 - 0.0) with 0 by lra.
    rewrite glm_length_x, Rabs_pos_eq; lra.
  - lra.
  - reflexivity.
Defined.



End StrainAmplitude.

Section MergerFits.

Import Exact.
Local Open Scope R_scope.


Lemma final_spin_bounds (eta chi1 chi2 : R) :
  0 <= final_spin eta chi1 chi2 <= 0.998.
Proof.
  unfold final_spin.
  match goal with
  | |- _ <= std_clamp ?v _ _ <= _ =>
      pose proof (std_clamp_bounds_R v 0.0 0.998 ltac:(lra)) as Hc
  end.
  lra.
Qed.

Lemma sqrt_3_bounds : 1.732 < sqrt 3 < 1.7321.
Proof.
  pose proof (sqrt_pos 3) as Hp.
  pose proof (sqrt_sqrt 3 ltac:(lra)) as Hs.
  split.
  - destruct (Rlt_dec 1.732 (sqrt 3)) as [H|H]; [exact H|]. exfalso. nra.
  - destruct (Rlt_dec (sqrt 3) 1.7321) as [H|H]; [exact H|]. exfalso. nra.
Qed.

Lemma recoil_kick_nonneg (eta chi1 chi2 : R) : 0 <= recoil_kick eta chi1 chi2.
Proof.
  unfold recoil_kick. unfold Rdiv. apply Rmult_le_pos; [apply sqrt_pos|].
  left. apply Rinv_0_lt_compat. lra.
Qed.

End MergerFits.

Section FinalSpin.

Import Exact.
Local Open Scope R_scope.

(** X13.  [final_spin] is in [0, 0.998] for all real inputs; in binary64 it is
    in that range or NaN; for non-spinning bodies with [0 <= eta <= 1/4] it
    is the polynomial [2 sqrt 3 eta - 3.5171 eta^2 + 2.5763 eta^3]; and for
    equal non-spinning masses it is within 0.05 of 0.69. *)
Theorem final_spin_range :
  (forall eta chi1 chi2 : R, 0 <= final_spin eta chi1 chi2 <= 0.998)
  /\ (forall eta chi1 chi2 : float,
        let af := Double.final_spin eta chi1 chi2 in
        PrimFloat.is_nan af = true \/
        (PrimFloat.leb 0 af = true /\ PrimFloat.leb af 0.998 = true))
  /\ (forall eta : R,
        0 <= eta <= 1 / 4 ->
        final_spin eta 0 0 =
          2 * sqrt 3 * eta - 3.5171 * eta * eta + 2.5763 * eta * eta * eta)
  /\ Rabs (final_spin (1 / 4) 0 0 - 0.69) < 0.05.
Proof.
  assert (Hns : forall eta : R,
             0 <= eta <= 1 / 4 ->
             final_spin eta 0 0 =
               2 * sqrt 3 * eta - 3.5171 * eta * eta + 2.5763 * eta * eta * eta).
  { intros eta He. unfold final_spin.
    pose proof sqrt_3_bounds as H3.
    replace (sqrt 3.0) with (sqrt 3) by (f_equal; lra).
    set (d := sqrt (1.0 - 4.0 * eta)).
    set (s := sqrt 3) in *.
    match goal with
    | |- std_clamp ?v _ _ = _ =>
        replace v with (2 * s * eta - 3.5171 * eta * eta
                        + 2.5763 * eta * eta * eta) by (clearbody d s; lra)
    end.
    clearbody s d.
    assert (Hlo : 0 <= 2 * s * eta - 3.5171 * eta * eta
                       + 2.5763 * eta * eta * eta).
    { assert (0 <= eta * eta) by nra.
      assert (0 <= eta * (2 * s - 3.5171 * eta)) by nra.
      nra. }
    assert (Hhi : 2 * s * eta - 3.5171 * eta * eta
                  + 2.5763 * eta * eta * eta <= 0.998).
    { assert (0 <= eta * eta <= 1 / 16) by nra.
      assert (eta * eta * eta <= 1 / 64) by nra.
      assert (s * eta <= 1.7321 * (1 / 4)) by nra.
      nra. }
    unfold std_clamp.
    rewrite (proj2 (Rltb_false _ _)) by lra.
    rewrite (proj2 (Rltb_false _ _)) by lra. reflexivity. }
  split; [exact final_spin_bounds|]. split; [|split; [exact Hns|]].
  - intros eta chi1 chi2 af. subst af. unfold Double.final_spin.
    match goal with
    | |- context [Double.std_clamp ?v _ _] => set (x := v)
    end.
    destruct (PrimFloat.is_nan x) eqn:En.
    + left. apply is_nan_eq in En. rewrite En, std_clamp_nan. reflexivity.
    + right. apply std_clamp_bounds; [reflexivity|exact En].
  - rewrite Hns by lra. pose proof sqrt_3_bounds as H3.
    set (s := sqrt 3) in *. clearbody s.
    unfold Rabs. destruct (Rcase_abs _); lra.
Qed.

Lemma final_spin_range_witness :
  final_spin (2 / 9) 0 0 =
    2 * sqrt 3 * (2 / 9) - 3.5171 * (2 / 9) * (2 / 9)
    + 2.5763 * (2 / 9) * (2 / 9) * (2 / 9).
Proof.
  apply (proj1 (proj2 (proj2 final_spin_range)) (2 / 9)). lra.
Defined.

End FinalSpin.

Section RecoilKick.

Import Exact.
Local Open Scope R_scope.

(** X14.  [recoil_kick] is never negative and does not change when the two
    spins are exchanged; at [eta >= 1/4] only the spin term
    [3678 eta |chi1 - chi2| / c] is left; equal masses with equal spins get
    no kick, in exact arithmetic and, for finite spins, in binary64. *)
Theorem recoil_kick_symmetry :
  (forall eta chi1 chi2 : R,
      0 <= recoil_kick eta chi1 chi2 /\
      recoil_kick eta chi2 chi1 = recoil_kick eta chi1 chi2 /\
      (1 / 4 <= eta ->
       recoil_kick eta chi1 chi2 =
         3678 * eta * Rabs (chi1 - chi2) / 2.998e5))
  /\ (forall chi : R, recoil_kick (1 / 4) chi chi = 0)
  /\ (forall chi : float,
        PrimFloat.is_finite chi = true ->
        Double.recoil_kick 0.25 chi chi = 0%float).
Proof.
  assert (Hq : forall eta chi1 chi2 : R,
             1 / 4 <= eta ->
             recoil_kick eta chi1 chi2 =
               3678 * eta * Rabs (chi1 - chi2) / 2.998e5).
  { intros eta chi1 chi2 He. unfold recoil_kick, std_max.
    rewrite (proj2 (Rltb_false _ _)) by lra.
    replace (sqrt 0.0) with 0 by (replace 0.0 with 0 by lra; symmetry; apply sqrt_0).
    match goal with
    | |- sqrt ?x / _ = _ =>
        replace x with ((3678 * eta * (chi1 - chi2)) * (3678 * eta * (chi1 - chi2)))
          by (replace 3678.0 with 3678 by lra; ring)
    end.
    rewrite sqrt_sq_abs, !Rabs_mult.
    rewrite (Rabs_pos_eq 3678) by lra. rewrite (Rabs_pos_eq eta) by lra.
    reflexivity. }
  split; [|split].
  - intros eta chi1 chi2. split; [apply recoil_kick_nonneg|].
    split; [|apply Hq].
    unfold recoil_kick. f_equal. f_equal. ring.
  - intros chi. rewrite Hq by lra.
    replace (chi - chi) with 0 by ring. rewrite Rabs_R0. unfold Rdiv. ring.
  - intros chi Hf. unfold Double.recoil_kick.
    assert (E : (chi - chi)%float = 0%float).
    { apply Prim2SF_inj.
      rewrite FloatAxioms.sub_spec.
      destruct (is_finite_spec chi Hf) as [[s E]|(s & m & e & E)]; rewrite E.
      - destruct s; reflexivity.
      - unfold SF64sub, SFsub. rewrite Z.min_id.
        match goal with
        | |- binary_normalize _ _ ?a _ _ = _ => replace a with 0%Z
        end.
        + reflexivity.
        + generalize (fst (shl_align m e e)). intros p.
          destruct s; unfold cond_Zopp; cbn [negb]; lia. }
    rewrite E. vm_compute. reflexivity.
Qed.

Lemma recoil_kick_symmetry_witness :
  recoil_kick (3 / 10) (1 / 2) 0 =
    3678 * (3 / 10) * Rabs (1 / 2 - 0) / 2.998e5.
Proof.
  apply (proj1 recoil_kick_symmetry (3 / 10) (1 / 2) 0). lra.
Defined.

End RecoilKick.

Section QuasinormalMode.

Import Exact.
Local Open Scope R_scope.

(** A power of a base in (0, 1]: at most 1 for a positive exponent, at
    least 1 for a negative one. *)
Lemma std_pow_unit_interval (x y : R) :
  0 < x <= 1 ->
  (0 < y -> 0 < std_pow x y <= 1) /\ (y < 0 -> 1 <= std_pow x y).
Proof.
  intros [H0 H1]. rewrite std_pow_pos by exact H0.
  assert (Hl : ln x <= 0).
  { rewrite <- ln_1. destruct H1 as [H1|H1].
    - left. apply ln_increasing; assumption.
    - rewrite H1. lra. }
  split; intros Hy.
  - split; [apply exp_pos|].
    rewrite <- exp_0. destruct (Req_dec (y * ln x) 0) as [E|E].
    + rewrite E. lra.
    + left. apply exp_increasing. nra.
  - rewrite <- exp_0. destruct (Req_dec (y * ln x) 0) as [E|E].
    + rewrite E. lra.
    + left. apply exp_increasing. nra.
Qed.


(** X15.  For a positive remnant mass and a non-negative spin the fitted mode
    has a positive frequency and a positive damping time, the product of
    its angular frequency [2 pi f] and its damping time is at least 2.1187,
    the amplitude is 1.5 times the inspiral amplitude, the phase is 0, and
    every spin from [1 - 1e-10] on gives the same mode. *)
Theorem compute_qnm_222_positive (Mf af A : R) :
  0 < Mf -> 0 <= af ->
  let q := compute_qnm_222 Mf af A in
  0 < qnm_frequency q /\
  0 < damping_time q /\
  2.1187 <= 2 * PI * qnm_frequency q * damping_time q /\
  qnm_amplitude q = 1.5 * A /\
  qnm_phase q = 0 /\
  (1 - 1e-10 <= af -> q = compute_qnm_222 Mf (1 - 1e-10) A).
Proof.
  intros HM Ha q.
  assert (Hsat : 1 - 1e-10 <= af -> q = compute_qnm_222 Mf (1 - 1e-10) A).
  { intros H1. subst q. unfold compute_qnm_222. cbv zeta.
    assert (Ex : (if 1.0 - af <? 1e-10 then 1e-10 else 1.0 - af) = 1e-10).
    { destruct (1.0 - af <? 1e-10) eqn:E; [reflexivity|].
      apply Rltb_false in E. lra. }
    assert (Ey : (if 1.0 - (1 - 1e-10) <? 1e-10 then 1e-10
                  else 1.0 - (1 - 1e-10)) = 1e-10).
    { destruct (1.0 - (1 - 1e-10) <? 1e-10); lra. }
    rewrite Ex, Ey. reflexivity. }
  set (rhs := compute_qnm_222 Mf (1 - 1e-10) A) in *. clearbody rhs.
  revert Hsat. subst q. unfold compute_qnm_222. cbv zeta.
  cbn [qnm_frequency damping_time qnm_amplitude qnm_phase].
  intros Hsat.
  set (x := if 1.0 - af <? 1e-10 then 1e-10 else 1.0 - af) in *.
  assert (Hx : 0 < x <= 1).
  { unfold x. destruct (1.0 - af <? 1e-10) eqn:E.
    - lra.
    - apply Rltb_false in E. lra. }
  destruct (std_pow_unit_interval x 0.1292 Hx) as [Hf _].
  destruct (std_pow_unit_interval x (-0.4990) Hx) as [_ Hq].
  specialize (Hf ltac:(lra)). specialize (Hq ltac:(lra)).
  set (pf := std_pow x 0.1292) in *. set (pq := std_pow x (-0.4990)) in *.
  set (w := (1.5251 + -1.1568 * pf) / Mf) in *.
  assert (Hw : 0 < w).
  { unfold w. apply Rdiv_lt_0_compat; lra. }
  set (Q := 0.7000 + 1.4187 * pq) in *.
  assert (HQ : 2.1187 <= Q) by (unfold Q; lra).
  pose proof PI_RGT_0 as Hpi. unfold M_PI in *.
  split; [apply Rdiv_lt_0_compat; lra|].
  split; [apply Rdiv_lt_0_compat; lra|].
  split.
  { replace (2 * PI * (w / (2.0 * PI)) * (Q / w)) with Q; [exact HQ|].
    replace 2.0 with 2 by lra. field. lra. }
  split; [lra|]. split; [lra|]. exact Hsat.
Qed.

Lemma compute_qnm_222_positive_witness :
  0 < damping_time (compute_qnm_222 0.965 0.69 1).
Proof.
  apply (compute_qnm_222_positive 0.965 0.69 1); lra.
Defined.

End QuasinormalMode.

Section Remnant.

Import Exact.
Local Open Scope R_scope.



End Remnant.

Section CubeRoot.

Import Exact.
Local Open Scope R_scope.

Lemma std_cbrt_nonneg (x : R) : 0 <= x -> 0 <= std_cbrt x.
Proof.
  intros H. unfold std_cbrt. destruct (0 <? x) eqn:E.
  - left. unfold Rpower. apply exp_pos.
  - apply Rltb_false in E.
    rewrite (proj2 (Rltb_false x 0)) by lra. lra.
Qed.

Lemma std_cbrt_cube (x : R) :
  0 <= x -> std_cbrt x * std_cbrt x * std_cbrt x = x.
Proof.
  intros H. unfold std_cbrt. destruct (0 <? x) eqn:E.
  - apply Rltb_true in E. unfold Rpower.
    rewrite <- !exp_plus.
    replace (1 / 3 * ln x + 1 / 3 * ln x + 1 / 3 * ln x) with (ln x) by lra.
    apply exp_ln. exact E.
  - apply Rltb_false in E.
    rewrite (proj2 (Rltb_false x 0)) by lra. lra.
Qed.

Lemma cube_injective (x y : R) :
  0 <= x -> 0 <= y -> x * x * x = y * y * y -> x = y.
Proof.
  intros Hx Hy H.
  destruct (Rtotal_order x y) as [L|[E|G]]; [exfalso|exact E|exfalso].
  - assert (x * x < y * y) by nra. assert (x * x * x < y * y * y) by nra. lra.
  - assert (y * y < x * x) by nra. assert (y * y * y < x * x * x) by nra. lra.
Qed.

Lemma std_cbrt_mult (x y : R) :
  0 <= x -> 0 <= y -> std_cbrt (x * y) = std_cbrt x * std_cbrt y.
Proof.
  intros Hx Hy.
  pose proof (std_cbrt_nonneg x Hx) as Nx.
  pose proof (std_cbrt_nonneg y Hy) as Ny.
  assert (Hxy : 0 <= x * y) by nra.
  pose proof (std_cbrt_nonneg (x * y) Hxy) as Nxy.
  apply cube_injective; [exact Nxy|nra|].
  rewrite (std_cbrt_cube (x * y) Hxy).
  transitivity ((std_cbrt x * std_cbrt x * std_cbrt x) *
                (std_cbrt y * std_cbrt y * std_cbrt y)); [|ring].
  rewrite (std_cbrt_cube x Hx), (std_cbrt_cube y Hy). reflexivity.
Qed.

End CubeRoot.

Section IscoRadius.

Import Exact.
Local Open Scope R_scope.

(** X17.  [isco_radius] is 6 M, three Schwarzschild radii, below the spin
    threshold 1e-10, it is the gravitational radius M at spin 1, and for a
    spin between and a non-negative mass it lies between the two. *)
Theorem isco_radius_range (bh : BlackHole) :
  (chi bh < 1e-10 -> isco_radius bh = 3 * schwarzschild_radius bh) /\
  (chi bh = 1 -> isco_radius bh = gravitational_radius bh) /\
  (1e-10 <= chi bh <= 1 -> 0 <= mass bh ->
   gravitational_radius bh <= isco_radius bh <= 3 * schwarzschild_radius bh).
Proof.
  assert (Hrange : 1e-10 <= chi bh <= 1 -> 0 <= mass bh ->
                   mass bh <= isco_radius bh <= 6 * mass bh).
  { intros Ha Hm. unfold isco_radius.
    rewrite (proj2 (Rltb_false _ _)) by lra. cbv zeta.
    set (a := chi bh) in *.
    replace (1.0 - a * a) with ((1 + a) * (1 - a)) by lra.
    replace (1.0 + a) with (1 + a) by lra.
    replace (1.0 - a) with (1 - a) by lra.
    rewrite std_cbrt_mult by lra.
    pose proof (std_cbrt_nonneg (1 + a) ltac:(lra)) as Hu.
    pose proof (std_cbrt_nonneg (1 - a) ltac:(lra)) as Hw.
    pose proof (std_cbrt_cube (1 + a) ltac:(lra)) as Eu.
    pose proof (std_cbrt_cube (1 - a) ltac:(lra)) as Ew.
    set (u := std_cbrt (1 + a)) in *. set (w := std_cbrt (1 - a)) in *.
    clearbody u w.
    set (p := u * w). set (s := u + w).
    assert (Hp : 0 <= p) by (unfold p; nra).
    assert (Ep3 : p * p * p = 1 - a * a).
    { unfold p. transitivity ((u * u * u) * (w * w * w)); [ring|].
      rewrite Eu, Ew. ring. }
    assert (Hp1 : p <= 1).
    { destruct (Rle_dec p 1) as [H|H]; [exact H|]. exfalso.
      assert (1 < p) by lra. assert (1 < p * p) by nra.
      assert (1 < p * p * p) by nra.
      pose proof (Rle_0_sqr a) as Hsq. unfold Rsqr in Hsq. lra. }
    assert (Hu1 : 1 <= u).
    { destruct (Rle_dec 1 u) as [H|H]; [exact H|]. exfalso.
      assert (u < 1) by lra. assert (u * u < 1) by nra.
      assert (u * u * u < 1) by nra. lra. }
    assert (Hs1 : 1 <= s) by (unfold s; lra).
    assert (Es3 : s * s * s = 2 + 3 * (p * s)).
    { unfold s, p. transitivity (u * u * u + w * w * w + 3 * (u * w * (u + w)));
        [ring|]. rewrite Eu, Ew. ring. }
    assert (Hs2 : s <= 2).
    { assert (Hc : 4 * (u * u * u + w * w * w) - s * s * s
                   = 3 * (u + w) * ((u - w) * (u - w))) by (unfold s; ring).
      pose proof (Rle_0_sqr (u - w)) as Hsq. unfold Rsqr in Hsq.
      assert (0 <= 3 * (u + w) * ((u - w) * (u - w))) by nra.
      assert (s * s * s <= 8) by lra.
      destruct (Rle_dec s 2) as [H2|H2]; [exact H2|]. exfalso.
      assert (2 < s) by lra. assert (4 < s * s) by nra.
      assert (8 < s * s * s) by nra. lra. }
    set (q := p * s) in *.
    assert (Hq : p <= q) by (unfold q; nra).
    assert (Hq2 : q <= 2) by nra.
    replace (u * w * (u + w)) with q by (unfold q, p, s; ring).
    replace (3.0 * a * a + (1.0 + q) * (1.0 + q))
      with (3 - 3 * (p * p * p) + (1 + q) * (1 + q)) by (rewrite Ep3; lra).
    set (Z1 := 1.0 + q).
    assert (EZ1 : Z1 = 1 + q) by (unfold Z1; lra).
    set (Z2 := sqrt (3 - 3 * (p * p * p) + (1 + q) * (1 + q))).
    assert (Harg : 0 <= 3 - 3 * (p * p * p) + (1 + q) * (1 + q)).
    { assert (p * p <= 1) by nra. assert (p * p * p <= 1) by nra.
      pose proof (Rle_0_sqr (1 + q)) as Hsq. unfold Rsqr in Hsq. lra. }
    assert (HZ2 : 0 <= Z2) by apply sqrt_pos.
    assert (EZ2 : Z2 * Z2 = 3 - 3 * (p * p * p) + (1 + q) * (1 + q))
      by (apply sqrt_sqrt; exact Harg).
    assert (Hp3 : q * q * q <= 8 * (p * p * p)).
    { assert (Hqs : q <= 2 * p) by (unfold q; nra).
      assert (0 <= q) by lra.
      assert (q * q <= 4 * (p * p)) by nra.
      assert (0 <= p * p) by nra. nra. }
    assert (HZ2_3 : Z2 <= 3).
    { destruct (Rle_dec Z2 3) as [H|H]; [exact H|]. exfalso.
      assert (9 < Z2 * Z2) by nra.
      assert (Hf : (1 + q) * (1 + q) <= 6 + 3 / 8 * (q * q * q)).
      { assert (0 <= q) by lra.
        assert (Hfac : 6 + 3 / 8 * (q * q * q) - (1 + q) * (1 + q)
                       = (2 - q) * (5 / 2 + q * (1 / 4) - q * q * (3 / 8)))
          by field.
        assert (0 <= 5 / 2 + q * (1 / 4) - q * q * (3 / 8)).
        { assert (q * q <= 4) by nra. nra. }
        assert (0 <= (2 - q) * (5 / 2 + q * (1 / 4) - q * q * (3 / 8)))
          by (apply Rmult_le_pos; lra).
        lra. }
      lra. }
    set (X := (3.0 - Z1) * (3.0 + Z1 + 2.0 * Z2)).
    assert (HX : X <= (2 + Z2) * (2 + Z2)).
    { unfold X. rewrite EZ1.
      assert (0 <= q) by lra.
      assert (Hk : (2 + Z2) * (2 + Z2)
                   - (3.0 - (1 + q)) * (3.0 + (1 + q) + 2.0 * Z2)
                   = 4 * q + 2 * (q * q) + 2 * (q * Z2) - 3 * (p * p * p)).
      { transitivity (Z2 * Z2 + 2 * (q * Z2) + q * q + 2 * q - 4);
          [lra|]. rewrite EZ2. ring. }
      assert (p * p <= 1) by nra. assert (p * p * p <= p) by nra.
      assert (0 <= q * q) by nra. assert (0 <= q * Z2) by nra. lra. }
    assert (HsX : 0 <= sqrt X <= 2 + Z2).
    { split; [apply sqrt_pos|].
      rewrite <- (sqrt_square (2 + Z2)) by lra.
      apply sqrt_le_1_alt. exact HX. }
    replace 3.0 with 3 by lra.
    split; nra. }
  split; [|split].
  - intros H. unfold isco_radius, schwarzschild_radius.
    rewrite (proj2 (Rltb_true _ _)) by exact H. lra.
  - intros H. unfold gravitational_radius.
    unfold isco_radius. rewrite H.
    rewrite (proj2 (Rltb_false 1 1e-10)) by lra. cbv zeta.
    replace (1.0 - 1 * 1) with 0 by lra.
    replace (1.0 - 1) with 0 by lra.
    assert (E0 : std_cbrt 0 = 0).
    { unfold std_cbrt. rewrite (proj2 (Rltb_false 0 0)) by lra. reflexivity. }
    rewrite E0.
    replace (1.0 + 0 * (std_cbrt (1.0 + 1) + 0)) with 1 by lra.
    replace (3.0 * 1 * 1 + 1 * 1) with (2 * 2) by lra.
    rewrite sqrt_square by lra.
    replace ((3.0 - 1) * (3.0 + 1 + 2.0 * 2)) with (4 * 4) by lra.
    rewrite sqrt_square by lra. lra.
  - intros Ha Hm. unfold gravitational_radius, schwarzschild_radius.
    specialize (Hrange Ha Hm). lra.
Qed.

(** A body of mass 1 and spin 1/2. *)
Lemma isco_radius_range_witness :
  gravitational_radius
    (mk_BlackHole 1 (1 / 2) dvec3_zero dvec3_zero dvec3_zero)
  <= isco_radius (mk_BlackHole 1 (1 / 2) dvec3_zero dvec3_zero dvec3_zero).
Proof.
  apply (isco_radius_range
           (mk_BlackHole 1 (1 / 2) dvec3_zero dvec3_zero dvec3_zero));
    cbn [chi mass]; lra.
Defined.

End IscoRadius.

Section Conservation.

Import Exact.
Local Open Scope R_scope.

Lemma dvec3_eq (a b : dvec3) :
  vx a = vx b -> vy a = vy b -> vz a = vz b -> a = b.
Proof. destruct a, b. cbn. intros -> -> ->. reflexivity. Qed.

(** The derivative function of the simulation: positions change by the
    velocities, and the two accelerations carry no net momentum. *)
Lemma make_deriv_func_balance
    (m1 m2 : R) (pn1 pn2 pn25 : bool) (u : BinaryState) :
  m1 + m2 <> 0 ->
  let d := make_deriv_func m1 m2 pn1 pn2 pn25 u in
  dpos1 d = vel1 u /\ dpos2 d = vel2 u /\
  momentum_rate m1 m2 d = dvec3_zero.
Proof.
  intros HM d. subst d. unfold make_deriv_func.
  cbn [dpos1 dpos2]. split; [reflexivity|]. split; [reflexivity|].
  unfold momentum_rate, smul, vadd, dvec3_zero. cbn [dvel1 dvel2 vx vy vz].
  f_equal; field; exact HM.
Qed.

(** The relative acceleration of a motion in the plane [y = 0] lies in
    that plane. *)
Lemma compute_relative_acceleration_plane
    (r v : dvec3) (m1 m2 : R) (pn1 pn2 pn25 : bool) :
  vy r = 0 -> vy v = 0 ->
  vy (total (compute_relative_acceleration r v m1 m2 pn1 pn2 pn25)) = 0.
Proof.
  intros Hr Hv. unfold compute_relative_acceleration.
  destruct (sqrt (glm_dot r r) <? 1e-10).
  - unfold total, AccelerationResult_zero, vadd, dvec3_zero.
    cbn [a_newtonian a_1pn a_2pn a_25pn vy]. ring.
  - unfold total, vadd. cbn [a_newtonian a_1pn a_2pn a_25pn vy].
    destruct pn1, pn2, pn25; unfold smul, vadd, vdivs, dvec3_zero;
      cbn [vx vy vz]; rewrite ?Hr, ?Hv; unfold Rdiv; ring.
Qed.

Lemma make_deriv_func_plane
    (m1 m2 : R) (pn1 pn2 pn25 : bool) (u : BinaryState) :
  in_orbital_plane u ->
  let d := make_deriv_func m1 m2 pn1 pn2 pn25 u in
  vy (dpos1 d) = 0 /\ vy (dvel1 d) = 0 /\
  vy (dpos2 d) = 0 /\ vy (dvel2 d) = 0.
Proof.
  intros (P1 & V1 & P2 & V2) d. subst d. unfold make_deriv_func.
  cbn [dpos1 dpos2 dvel1 dvel2].
  assert (Ha : vy (total (compute_relative_acceleration
                            (vsub (pos1 u) (pos2 u)) (vsub (vel1 u) (vel2 u))
                            m1 m2 pn1 pn2 pn25)) = 0).
  { apply compute_relative_acceleration_plane; unfold vsub; cbn [vy]; lra. }
  unfold smul. cbn [vy]. rewrite Ha.
  repeat split; first [assumption | ring].
Qed.

Lemma state_add_plane (s : BinaryState) (d : BinaryStateDerivative) (h : R) :
  in_orbital_plane s ->
  vy (dpos1 d) = 0 /\ vy (dvel1 d) = 0 /\
  vy (dpos2 d) = 0 /\ vy (dvel2 d) = 0 ->
  in_orbital_plane (state_add s d h).
Proof.
  intros (P1 & V1 & P2 & V2) (D1 & D2 & D3 & D4).
  unfold in_orbital_plane, state_add, vadd, vmuls.
  cbn [pos1 vel1 pos2 vel2 vy].
  rewrite P1, V1, P2, V2, D1, D2, D3, D4. repeat split; ring.
Qed.

(** One RK4 step with a derivative function that changes the positions
    by the velocities and carries no net momentum. *)
Lemma rk4_step_balance_generic
    (f : DerivativeFunc) (m1 m2 : R) (s : BinaryState) (dt : R) :
  (forall u, dpos1 (f u) = vel1 u /\ dpos2 (f u) = vel2 u /\
             momentum_rate m1 m2 (f u) = dvec3_zero) ->
  let s' := rk4_step s dt f in
  total_momentum m1 m2 s' = total_momentum m1 m2 s /\
  mass_moment m1 m2 s' =
    vadd (mass_moment m1 m2 s) (smul dt (total_momentum m1 m2 s)).
Proof.
  intros Hf s'. subst s'. unfold rk4_step.
  set (k1 := f s).
  set (u2 := state_add s k1 (dt * 0.5)). set (k2 := f u2).
  set (u3 := state_add s k2 (dt * 0.5)). set (k3 := f u3).
  set (u4 := state_add s k3 dt). set (k4 := f u4).
  destruct (Hf s) as (A1 & B1 & C1). destruct (Hf u2) as (A2 & B2 & C2).
  destruct (Hf u3) as (A3 & B3 & C3). destruct (Hf u4) as (A4 & B4 & C4).
  fold k1 in A1, B1, C1. fold k2 in A2, B2, C2.
  fold k3 in A3, B3, C3. fold k4 in A4, B4, C4.
  clearbody k1 k2 k3 k4.
  unfold momentum_rate, vadd, smul, dvec3_zero in C1, C2, C3, C4.
  cbn [vx vy vz] in C1, C2, C3, C4.
  injection C1 as C1x C1y C1z. injection C2 as C2x C2y C2z.
  injection C3 as C3x C3y C3z. injection C4 as C4x C4y C4z.
  split.
  - unfold total_momentum, vadd, smul. cbn [vel1 vel2 vx vy vz].
    replace 6.0 with 6 by lra. replace 2.0 with 2 by lra.
    apply dvec3_eq; cbn [vx vy vz].
    + transitivity (m1 * vx (vel1 s) + m2 * vx (vel2 s) +
                    dt / 6 * ((m1 * vx (dvel1 k1) + m2 * vx (dvel2 k1)) +
                              2 * (m1 * vx (dvel1 k2) + m2 * vx (dvel2 k2)) +
                              2 * (m1 * vx (dvel1 k3) + m2 * vx (dvel2 k3)) +
                              (m1 * vx (dvel1 k4) + m2 * vx (dvel2 k4))));
        [field|]. rewrite C1x, C2x, C3x, C4x. field.
    + transitivity (m1 * vy (vel1 s) + m2 * vy (vel2 s) +
                    dt / 6 * ((m1 * vy (dvel1 k1) + m2 * vy (dvel2 k1)) +
                              2 * (m1 * vy (dvel1 k2) + m2 * vy (dvel2 k2)) +
                              2 * (m1 * vy (dvel1 k3) + m2 * vy (dvel2 k3)) +
                              (m1 * vy (dvel1 k4) + m2 * vy (dvel2 k4))));
        [field|]. rewrite C1y, C2y, C3y, C4y. field.
    + transitivity (m1 * vz (vel1 s) + m2 * vz (vel2 s) +
                    dt / 6 * ((m1 * vz (dvel1 k1) + m2 * vz (dvel2 k1)) +
                              2 * (m1 * vz (dvel1 k2) + m2 * vz (dvel2 k2)) +
                              2 * (m1 * vz (dvel1 k3) + m2 * vz (dvel2 k3)) +
                              (m1 * vz (dvel1 k4) + m2 * vz (dvel2 k4))));
        [field|]. rewrite C1z, C2z, C3z, C4z. field.
  - unfold mass_moment, total_momentum, vadd, smul.
    cbn [pos1 pos2 vx vy vz].
    rewrite A1, B1, A2, B2, A3, B3, A4, B4.
    unfold u2, u3, u4, state_add, vadd, vmuls. cbn [vel1 vel2 vx vy vz].
    replace 6.0 with 6 by lra. replace 2.0 with 2 by lra.
    replace 0.5 with (1 / 2) by lra.
    apply dvec3_eq; cbn [vx vy vz].
    + transitivity (m1 * vx (pos1 s) + m2 * vx (pos2 s) +
                    dt * (m1 * vx (vel1 s) + m2 * vx (vel2 s)) +
                    dt / 6 * (dt * (m1 * vx (dvel1 k1) + m2 * vx (dvel2 k1)) +
                              dt * (m1 * vx (dvel1 k2) + m2 * vx (dvel2 k2)) +
                              dt * (m1 * vx (dvel1 k3) + m2 * vx (dvel2 k3))));
        [field|]. rewrite C1x, C2x, C3x. field.
    + transitivity (m1 * vy (pos1 s) + m2 * vy (pos2 s) +
                    dt * (m1 * vy (vel1 s) + m2 * vy (vel2 s)) +
                    dt / 6 * (dt * (m1 * vy (dvel1 k1) + m2 * vy (dvel2 k1)) +
                              dt * (m1 * vy (dvel1 k2) + m2 * vy (dvel2 k2)) +
                              dt * (m1 * vy (dvel1 k3) + m2 * vy (dvel2 k3))));
        [field|]. rewrite C1y, C2y, C3y. field.
    + transitivity (m1 * vz (pos1 s) + m2 * vz (pos2 s) +
                    dt * (m1 * vz (vel1 s) + m2 * vz (vel2 s)) +
                    dt / 6 * (dt * (m1 * vz (dvel1 k1) + m2 * vz (dvel2 k1)) +
                              dt * (m1 * vz (dvel1 k2) + m2 * vz (dvel2 k2)) +
                              dt * (m1 * vz (dvel1 k3) + m2 * vz (dvel2 k3))));
        [field|]. rewrite C1z, C2z, C3z. field.
Qed.

(** One RK4 step with a derivative function that keeps the plane
    [y = 0]. *)
Lemma rk4_step_plane_generic (f : DerivativeFunc) (s : BinaryState) (dt : R) :
  (forall u, in_orbital_plane u ->
             vy (dpos1 (f u)) = 0 /\ vy (dvel1 (f u)) = 0 /\
             vy (dpos2 (f u)) = 0 /\ vy (dvel2 (f u)) = 0) ->
  in_orbital_plane s -> in_orbital_plane (rk4_step s dt f).
Proof.
  intros Hf Hs. unfold rk4_step.
  set (k1 := f s).
  set (u2 := state_add s k1 (dt * 0.5)). set (k2 := f u2).
  set (u3 := state_add s k2 (dt * 0.5)). set (k3 := f u3).
  set (u4 := state_add s k3 dt). set (k4 := f u4).
  pose proof (Hf s Hs) as P1. fold k1 in P1.
  pose proof (state_add_plane s k1 (dt * 0.5) Hs P1) as Hu2. fold u2 in Hu2.
  pose proof (Hf u2 Hu2) as P2. fold k2 in P2.
  pose proof (state_add_plane s k2 (dt * 0.5) Hs P2) as Hu3. fold u3 in Hu3.
  pose proof (Hf u3 Hu3) as P3. fold k3 in P3.
  pose proof (state_add_plane s k3 dt Hs P3) as Hu4. fold u4 in Hu4.
  pose proof (Hf u4 Hu4) as P4. fold k4 in P4.
  clearbody k1 k2 k3 k4.
  destruct Hs as (S1 & S2 & S3 & S4).
  destruct P1 as (D11 & D12 & D13 & D14).
  destruct P2 as (D21 & D22 & D23 & D24).
  destruct P3 as (D31 & D32 & D33 & D34).
  destruct P4 as (D41 & D42 & D43 & D44).
  unfold in_orbital_plane, vadd, smul. cbn [pos1 vel1 pos2 vel2 vy].
  rewrite S1, S2, S3, S4, D11, D12, D13, D14, D21, D22, D23, D24,
          D31, D32, D33, D34, D41, D42, D43, D44.
  repeat split; ring.
Qed.

(** One RK4 step with the derivative function of the simulation. *)
Lemma rk4_step_balance
    (s : BinaryState) (dt m1 m2 : R) (pn1 pn2 pn25 : bool) :
  m1 + m2 <> 0 ->
  let s' := rk4_step s dt (make_deriv_func m1 m2 pn1 pn2 pn25) in
  total_momentum m1 m2 s' = total_momentum m1 m2 s /\
  mass_moment m1 m2 s' =
    vadd (mass_moment m1 m2 s) (smul dt (total_momentum m1 m2 s)) /\
  time s' = time s + dt /\
  (in_orbital_plane s -> in_orbital_plane s').
Proof.
  intros HM s'.
  destruct (rk4_step_balance_generic
              (make_deriv_func m1 m2 pn1 pn2 pn25) m1 m2 s dt) as [HP HQ].
  { intros u. apply make_deriv_func_balance. exact HM. }
  split; [exact HP|]. split; [exact HQ|]. split; [reflexivity|].
  apply rk4_step_plane_generic. intros u.
  apply make_deriv_func_plane.
Qed.

(** A balanced state stays balanced. *)
Lemma rk4_step_balanced
    (s : BinaryState) (dt m1 m2 : R) (pn1 pn2 pn25 : bool) :
  m1 + m2 <> 0 -> balanced m1 m2 s ->
  balanced m1 m2 (rk4_step s dt (make_deriv_func m1 m2 pn1 pn2 pn25)).
Proof.
  intros HM (HP & HQ & Hpl).
  destruct (rk4_step_balance s dt m1 m2 pn1 pn2 pn25 HM) as (A & B & _ & C).
  unfold balanced. rewrite A, B, HP, HQ.
  split; [reflexivity|]. split; [|apply C; exact Hpl].
  unfold vadd, smul, dvec3_zero. cbn [vx vy vz]. f_equal; ring.
Qed.

(** X18.  One RK4 step with the derivative function of the simulation, for
    masses that do not sum to zero and any step and flags, keeps the total
    momentum, moves the mass moment by [dt] times the momentum, advances the
    time by [dt], keeps motion in the x-z plane in that plane, and keeps a
    state in the centre-of-mass frame in that frame (exact arithmetic). *)
Theorem rk4_step_conserves_momentum
    (s : BinaryState) (dt m1 m2 : R) (pn1 pn2 pn25 : bool) :
  m1 + m2 <> 0 ->
  let s' := rk4_step s dt (make_deriv_func m1 m2 pn1 pn2 pn25) in
  total_momentum m1 m2 s' = total_momentum m1 m2 s /\
  mass_moment m1 m2 s' =
    vadd (mass_moment m1 m2 s) (smul dt (total_momentum m1 m2 s)) /\
  time s' = time s + dt /\
  (in_orbital_plane s -> in_orbital_plane s') /\
  (balanced m1 m2 s -> balanced m1 m2 s').
Proof.
  intros HM s'.
  destruct (rk4_step_balance s dt m1 m2 pn1 pn2 pn25 HM) as (A & B & C & D).
  repeat (split; [assumption|]).
  apply rk4_step_balanced. exact HM.
Qed.

Lemma rk4_step_conserves_momentum_witness :
  total_momentum 3 1
    (rk4_step (bodies_state (body_on_orbit 3 1 (1 / 4))
                            (body_on_orbit 1 (-3) (- (3 / 4))) 0)
              (1 / 10) (make_deriv_func 3 1 true true true))
  = total_momentum 3 1
      (bodies_state (body_on_orbit 3 1 (1 / 4))
                    (body_on_orbit 1 (-3) (- (3 / 4))) 0).
Proof.
  apply (rk4_step_conserves_momentum
           (bodies_state (body_on_orbit 3 1 (1 / 4))
                         (body_on_orbit 1 (-3) (- (3 / 4))) 0)
           (1 / 10) 3 1 true true true).
  lra.
Defined.

End Conservation.

Section InspiralBody.

Import Exact.
Local Open Scope R_scope.

Variable config : SimulationConfig.
Variable deriv : DerivativeFunc.
Variable total_mass est : R.

(** What one pass through the body of the inspiral loop does to the loop
    state: either the merger is detected, the merger frame is pushed and
    the loop is left; or at most one inspiral frame is pushed, the state
    advances by one RK4 step and the step is counted. *)
Lemma inspiral_body_spec (ls ls' : LoopState) (b : bool) :
  inspiral_body config deriv total_mass est ls = (ls', b) ->
  let st := ls_state ls in
  let bh1 := set_pos_vel (ls_bh1 ls) (pos1 st) (vel1 st) in
  let bh2 := set_pos_vel (ls_bh2 ls) (pos2 st) (vel2 st) in
  let orb := compute_orbital_params bh1 bh2 in
  let d0 := orbital_phase orb - ls_last_phase ls in
  let d1 := if d0 <? - M_PI then d0 + 2.0 * M_PI else d0 in
  let d2 := if M_PI <? d1 then d1 - 2.0 * M_PI else d1 in
  let interval :=
    if glm_length (vsub (pos1 st) (pos2 st)) <? 10.0 * (mass bh1 + mass bh2)
    then record_interval config / 4000.0 else record_interval config in
  ls_bh1 ls' = bh1 /\ ls_bh2 ls' = bh2 /\
  res_config (ls_result ls') = res_config (ls_result ls) /\
  num_ringdown_frames (ls_result ls') = num_ringdown_frames (ls_result ls) /\
  ((should_merge bh1 bh2 default_critical_factor = true /\ b = true /\
    ls_state ls' = st /\
    frames (ls_result ls') =
      frames (ls_result ls) ++
      [make_frame (time st) bh1 bh2 (observer_distance config)
                  (observer_inclination config) 1] /\
    merger_occurred (ls_result ls') = true /\
    merger_time (ls_result ls') = time st /\
    total_gw_cycles (ls_result ls') = total_gw_cycles (ls_result ls) /\
    ls_step_count ls' = ls_step_count ls /\
    ls_events ls' = ls_events ls)
   \/
   (should_merge bh1 bh2 default_critical_factor = false /\
    b = (2000000000 <? ls_step_count ls + 1)%Z /\
    ls_state ls' =
      rk4_step st (adaptive_timestep st (integrator config) total_mass) deriv /\
    merger_occurred (ls_result ls') = merger_occurred (ls_result ls) /\
    merger_time (ls_result ls') = merger_time (ls_result ls) /\
    ls_step_count ls' = (ls_step_count ls + 1)%Z /\
    ((frames (ls_result ls') = frames (ls_result ls) /\
      total_gw_cycles (ls_result ls') = total_gw_cycles (ls_result ls) /\
      ls_last_record_time ls' = ls_last_record_time ls /\
      ls_last_phase ls' = ls_last_phase ls /\
      (interval <=? time st - ls_last_record_time ls) = false)
     \/
     (frames (ls_result ls') =
        frames (ls_result ls) ++
        [make_frame (time st) bh1 bh2 (observer_distance config)
                    (observer_inclination config) 0] /\
      total_gw_cycles (ls_result ls') =
        total_gw_cycles (ls_result ls) + Rabs d2 / M_PI /\
      ls_last_record_time ls' = time st /\
      ls_last_phase ls' = orbital_phase orb /\
      (interval <=? time st - ls_last_record_time ls) = true)) /\
    (ls_events ls' = ls_events ls \/
     (progress_callback config = true /\
      ls_events ls' =
        ls_events ls ++
        [(time st, std_min 1.0 (time st / est), "inspiral"%string)])))).
Proof.
  intros E st bh1 bh2 orb d0 d1 d2 interval.
  unfold inspiral_body in E. fold st bh1 bh2 in E.
  destruct (should_merge bh1 bh2 default_critical_factor) eqn:Em.
  - injection E as El Eb. subst ls' b.
    cbn [ls_bh1 ls_bh2 ls_result ls_state ls_step_count ls_events
         res_config num_ringdown_frames frames merger_occurred merger_time
         total_gw_cycles].
    repeat (split; [reflexivity|]). left. repeat split; reflexivity.
  - fold orb d0 d1 d2 in E. fold interval in E.
    assert (Hev : forall c : bool,
               (if c then ls_events ls ++
                          [(time st, std_min 1.0 (time st / est),
                            "inspiral"%string)]
                else ls_events ls) = ls_events ls \/
               (c = true /\
                (if c then ls_events ls ++
                           [(time st, std_min 1.0 (time st / est),
                             "inspiral"%string)]
                 else ls_events ls) =
                ls_events ls ++
                [(time st, std_min 1.0 (time st / est), "inspiral"%string)])).
    { intros [|]; auto. }
    destruct (interval <=? _) eqn:Ei; injection E as El Eb; subst ls' b;
      cbn [ls_bh1 ls_bh2 ls_result ls_state ls_step_count ls_events
           ls_last_record_time ls_last_phase
           res_config num_ringdown_frames frames merger_occurred merger_time
           total_gw_cycles];
      repeat (split; [reflexivity|]); right;
      repeat (split; [reflexivity|]).
    + split; [right; repeat split; reflexivity|].
      destruct (progress_callback config); cbn [andb]; [|left; reflexivity].
      destruct (Z.rem (ls_step_count ls) 10000 =? 0)%Z;
        [right; split; reflexivity|left; reflexivity].
    + split; [left; repeat split; reflexivity|].
      destruct (progress_callback config); cbn [andb]; [|left; reflexivity].
      destruct (Z.rem (ls_step_count ls) 10000 =? 0)%Z;
        [right; split; reflexivity|left; reflexivity].
Qed.

Lemma inspiral_iteration_spec (ls ls' : LoopState) (b : bool) :
  inspiral_iteration config deriv total_mass est ls = Some (ls', b) ->
  time (ls_state ls) < max_time config /\
  inspiral_body config deriv total_mass est ls = (ls', b).
Proof.
  unfold inspiral_iteration.
  destruct (time (ls_state ls) <? max_time config) eqn:E; [|discriminate].
  intros H. injection H as H. split; [|exact H]. apply Rltb_true. exact E.
Qed.

End InspiralBody.

Section RunFields.

Import Exact.
Local Open Scope R_scope.

(** A ringdown frame reads the remnant, the mode and the merger time of
    the result, nothing else. *)
Lemma ringdown_frame_ext (config : SimulationConfig) (r r' : SimulationResult)
    (dt : R) (i : Z) :
  remnant r = remnant r' -> qnm r = qnm r' -> merger_time r = merger_time r' ->
  ringdown_frame config r dt i = ringdown_frame config r' dt i.
Proof.
  intros H1 H2 H3. unfold ringdown_frame. rewrite H1, H2, H3. reflexivity.
Qed.

(** The ringdown loop leaves every field but the frames as it was. *)
Lemma ringdown_loop_fields (config : SimulationConfig) (dt : R) (l : list Z)
    (acc : SimulationResult * list ProgressEvent) :
  let out := fold_left (ringdown_pass config dt) l acc in
  remnant (fst out) = remnant (fst acc) /\
  qnm (fst out) = qnm (fst acc) /\
  merger_time (fst out) = merger_time (fst acc) /\
  total_gw_cycles (fst out) = total_gw_cycles (fst acc) /\
  total_energy_radiated (fst out) = total_energy_radiated (fst acc) /\
  res_config (fst out) = res_config (fst acc).
Proof.
  revert acc. induction l as [|i l IH]; intros acc; cbn [fold_left].
  - cbv zeta. repeat split; reflexivity.
  - destruct (IH (ringdown_pass config dt acc i)) as (A & B & C & D & E & F).
    cbv zeta in *. rewrite A, B, C, D, E, F.
    unfold ringdown_pass, push_frame.
    cbn [fst remnant qnm merger_time total_gw_cycles total_energy_radiated
         res_config].
    repeat split; reflexivity.
Qed.

(** The result of a run in which the merger was detected. *)
Lemma run_simulation_merged (config : SimulationConfig) :
  let ls := run_inspiral config in
  let res := fst (run_simulation config) in
  merger_occurred (ls_result ls) = true ->
  merger_occurred res = true /\
  remnant res = compute_remnant (ls_bh1 ls) (ls_bh2 ls) /\
  qnm res =
    compute_qnm_222 (rem_mass (remnant res)) (rem_spin (remnant res))
      (gw_amplitude (compute_gw_strain (ls_bh1 ls) (ls_bh2 ls)
                       (observer_distance config)
                       (observer_inclination config))
       * observer_distance config) /\
  merger_time res = merger_time (ls_result ls) /\
  total_gw_cycles res = total_gw_cycles (ls_result ls) /\
  total_energy_radiated res = energy_radiated (remnant res) /\
  res_config res = res_config (ls_result ls) /\
  num_inspiral_frames res = Z.of_nat (List.length (frames (ls_result ls))) /\
  num_ringdown_frames res = ringdown_samples config /\
  frames res =
    frames (ls_result ls) ++
    map (ringdown_frame config res
           (ringdown_duration config / IZR (ringdown_samples config)))
        (map Z.of_nat (seq 0 (Z.to_nat (ringdown_samples config)))).
Proof.
  intros ls res Hm. subst res. unfold run_simulation. fold ls. rewrite Hm.
  cbv zeta. unfold ringdown_loop.
  match goal with
  | |- context [fold_left ?f ?l ?acc] =>
      destruct (ringdown_loop_frames config
                  (ringdown_duration config / IZR (ringdown_samples config))
                  l acc) as (F & Mo & Ni);
      destruct (ringdown_loop_fields config
                  (ringdown_duration config / IZR (ringdown_samples config))
                  l acc) as (A & B & C & D & E & G);
      cbv zeta in F, Mo, Ni, A, B, C, D, E, G;
      set (out := fold_left f l acc) in *
  end.
  cbn [fst frames merger_occurred num_inspiral_frames remnant qnm merger_time
       total_gw_cycles total_energy_radiated res_config num_ringdown_frames]
    in *.
  rewrite Mo, A, B, C, D, E, G, Ni, F.
  repeat split; reflexivity.
Qed.

(** The result of a run that left the inspiral loop without merger. *)
Lemma run_simulation_unmerged (config : SimulationConfig) :
  let ls := run_inspiral config in
  let res := fst (run_simulation config) in
  merger_occurred (ls_result ls) = false ->
  merger_occurred res = false /\
  frames res = frames (ls_result ls) /\
  total_gw_cycles res = total_gw_cycles (ls_result ls) /\
  num_inspiral_frames res = Z.of_nat (List.length (frames (ls_result ls))).
Proof.
  intros ls res Hm. subst res. unfold run_simulation. fold ls. rewrite Hm.
  cbn [fst frames merger_occurred total_gw_cycles num_inspiral_frames].
  repeat split; reflexivity.
Qed.

End RunFields.

Section CentreOfMass.

Import Exact.
Local Open Scope R_scope.

Lemma balanced_bodies (M1 M2 : R) (st : BinaryState) (a b : BlackHole) (t : R) :
  balanced M1 M2 st ->
  balanced M1 M2
    (bodies_state (set_pos_vel a (pos1 st) (vel1 st))
                  (set_pos_vel b (pos2 st) (vel2 st)) t).
Proof. intros H. exact H. Qed.

Lemma init_binary_balanced (c : BinaryConfig) (t : R) :
  let b := init_binary c in
  balanced (m1 c) (m2 c) (bodies_state (fst b) (snd b) t).
Proof.
  intros b. subst b. unfold init_binary, balanced, bodies_state.
  cbn [fst snd]. unfold total_momentum, mass_moment, in_orbital_plane.
  cbn [pos1 vel1 pos2 vel2 position velocity].
  unfold vadd, smul, dvec3_zero. cbn [vx vy vz].
  split; [f_equal; unfold Rdiv; first [ring | lra]|].
  split; [f_equal; unfold Rdiv; first [ring | lra]|].
  repeat split; lra.
Qed.

(** The state in which the inspiral loop is left: every frame recorded so
    far is balanced, and so are the two bodies when the merger was
    detected. *)
Lemma run_inspiral_balanced (config : SimulationConfig) :
  m1 (binary config) + m2 (binary config) <> 0 ->
  let c := binary config in
  let ls := run_inspiral config in
  Forall (fun f => balanced (m1 c) (m2 c)
                     (bodies_state (frame_bh1 f) (frame_bh2 f) (frame_time f)))
         (frames (ls_result ls)) /\
  (merger_occurred (ls_result ls) = true ->
   balanced (m1 c) (m2 c)
     (bodies_state (ls_bh1 ls) (ls_bh2 ls) (time (ls_state ls)))).
Proof.
  intros HM c ls.
  set (good := fun f : SimulationFrame =>
                 balanced (m1 c) (m2 c)
                   (bodies_state (frame_bh1 f) (frame_bh2 f) (frame_time f))).
  set (Inv := fun l : LoopState =>
                balanced (m1 c) (m2 c) (ls_state l) /\
                merger_occurred (ls_result l) = false /\
                Forall good (frames (ls_result l))).
  set (Post := fun l : LoopState =>
                 Forall good (frames (ls_result l)) /\
                 (merger_occurred (ls_result l) = true ->
                  balanced (m1 c) (m2 c)
                    (bodies_state (ls_bh1 l) (ls_bh2 l) (time (ls_state l))))).
  change (Post ls). subst ls. unfold run_inspiral, init_binary. cbv zeta.
  cbn [mass]. fold c.
  apply (inspiral_loop_rule _ _ _ _ Inv Post).
  - intros l (Hb & Hm & Hf) _. split; [exact Hf|]. congruence.
  - intros l l' (Hb & Hm & Hf) E.
    apply inspiral_iteration_spec in E. destruct E as [_ E].
    apply inspiral_body_spec in E. cbv zeta in E.
    destruct E as (E1 & E2 & _ & _ & [E|E]).
    + destruct E as (_ & _ & Es & Ef & _). unfold Post.
      rewrite Ef, E1, E2, Es. split.
      * apply Forall_app. split; [exact Hf|].
        apply Forall_cons; [|apply Forall_nil]. exact Hb.
      * intros _. exact Hb.
    + destruct E as (_ & _ & _ & Emo & _ & _ & Ef & _). unfold Post.
      split; [|rewrite Emo; congruence].
      destruct Ef as [(Ef & _)|(Ef & _)]; rewrite Ef; [exact Hf|].
      apply Forall_app. split; [exact Hf|].
      apply Forall_cons; [|apply Forall_nil]. exact Hb.
  - intros l l' (Hb & Hm & Hf) E.
    apply inspiral_iteration_spec in E. destruct E as [_ E].
    apply inspiral_body_spec in E. cbv zeta in E.
    destruct E as (E1 & E2 & _ & _ & [E|E]).
    + destruct E as (_ & C & _). discriminate.
    + destruct E as (_ & _ & Es & Emo & _ & _ & Ef & _). unfold Inv.
      rewrite Es, Emo. split; [|split; [exact Hm|]].
      * apply rk4_step_balanced; assumption.
      * destruct Ef as [(Ef & _)|(Ef & _)]; rewrite Ef; [exact Hf|].
        apply Forall_app. split; [exact Hf|].
        apply Forall_cons; [|apply Forall_nil]. exact Hb.
  - unfold Inv, initial_loop_state, init_binary.
    cbn [ls_state ls_result merger_occurred frames position velocity].
    split; [|split; [reflexivity|apply Forall_nil]].
    exact (init_binary_balanced c 0.0).
Qed.

(** X19.  For a configuration that describes an orbit, every inspiral and
    merger frame recorded by [run_simulation] has its centre of mass at the
    origin, no net momentum, and both bodies in the x-z plane; in a run that
    merges the remnant is therefore placed at the origin (exact
    arithmetic). *)
Theorem run_simulation_centre_of_mass (config : SimulationConfig) :
  orbit_defined (binary config) ->
  let c := binary config in
  let res := fst (run_simulation config) in
  (forall f : SimulationFrame,
      In f (frames res) -> (frame_phase f <= 1)%Z ->
      balanced (m1 c) (m2 c)
        (bodies_state (frame_bh1 f) (frame_bh2 f) (frame_time f))) /\
  (merger_occurred res = true -> rem_position (remnant res) = dvec3_zero).
Proof.
  intros (HM0 & _ & _) c res.
  assert (HM : m1 (binary config) + m2 (binary config) <> 0) by lra.
  destruct (run_inspiral_balanced config HM) as [Hf Hb].
  destruct (run_inspiral_post config) as (Hm1 & Hm2 & _).
  cbv zeta in Hf, Hb. fold c in Hf, Hb, Hm1, Hm2.
  set (ls := run_inspiral config) in *.
  destruct (run_simulation_shape config) as (Hmo & Hno & Hyes).
  cbv zeta in Hmo, Hno, Hyes. fold ls res in Hmo, Hno, Hyes.
  rewrite Forall_forall in Hf.
  split.
  - intros f Hin Hph.
    destruct (merger_occurred res) eqn:Em.
    + destruct (Hyes eq_refl) as (_ & ring & Hfr & _ & Hring & _).
      rewrite Hfr in Hin. apply in_app_or in Hin. destruct Hin as [Hin|Hin].
      * apply Hf. exact Hin.
      * rewrite Forall_forall in Hring. apply Hring in Hin. lia.
    + destruct (Hno eq_refl) as (Hfr & _). rewrite Hfr in Hin.
      apply Hf. exact Hin.
  - intros Em. rewrite Hmo in Em.
    destruct (run_simulation_merged config Em) as (_ & Er & _).
    fold res ls in Er. rewrite Er.
    destruct (Hb Em) as (HP & HQ & (P1 & V1 & P2 & V2)).
    unfold total_momentum, mass_moment, bodies_state in HP, HQ.
    unfold bodies_state in P1, V1, P2, V2.
    cbn [pos1 vel1 pos2 vel2] in HP, HQ, P1, V1, P2, V2.
    unfold compute_remnant. cbn [rem_position].
    rewrite Hm1, Hm2, HQ.
    unfold vdivs, dvec3_zero. cbn [vx vy vz].
    f_equal; unfold Rdiv; ring.
Qed.

Lemma run_simulation_centre_of_mass_witness :
  let c := binary unnormalized_config in
  let res := fst (run_simulation unnormalized_config) in
  (forall f : SimulationFrame,
      In f (frames res) -> (frame_phase f <= 1)%Z ->
      balanced (m1 c) (m2 c)
        (bodies_state (frame_bh1 f) (frame_bh2 f) (frame_time f))) /\
  (merger_occurred res = true -> rem_position (remnant res) = dvec3_zero).
Proof.
  apply (run_simulation_centre_of_mass unnormalized_config).
  unfold orbit_defined.
  cbn [unnormalized_config binary m1 m2 initial_separation eccentricity]. lra.
Defined.

End CentreOfMass.

Section FrameTimes.

Import Exact.
Local Open Scope R_scope.

Lemma StronglySorted_snoc (l : list R) (y : R) :
  StronglySorted Rlt l -> Forall (fun x => x < y) l ->
  StronglySorted Rlt (l ++ [y]).
Proof.
  induction l as [|x l IH]; intros Hs Hf; cbn [app].
  - apply SSorted_cons; [apply SSorted_nil|apply Forall_nil].
  - inversion Hs as [|? ? Hs' Hx]; subst. inversion Hf as [|? ? Hxy Hf']; subst.
    apply SSorted_cons; [apply IH; assumption|].
    apply Forall_app. split; [exact Hx|].
    apply Forall_cons; [exact Hxy|apply Forall_nil].
Qed.

(** A step controller set to positive steps returns a positive step. *)
Lemma adaptive_timestep_positive
    (st : BinaryState) (c : IntegratorConfig) (M : R) :
  positive_steps c -> 0 < adaptive_timestep st c M.
Proof.
  unfold positive_steps, adaptive_timestep.
  destruct (adaptive c); cbn [negb]; intros H; [|exact H].
  destruct (_ <? 1e-10); [lra|].
  match goal with
  | |- 0 < std_clamp ?v ?lo ?hi =>
      pose proof (std_clamp_bounds_R v lo hi ltac:(lra)) as Hc
  end.
  lra.
Qed.

Lemma rk4_step_time (st : BinaryState) (dt : R) (f : DerivativeFunc) :
  time (rk4_step st dt f) = time st + dt.
Proof. reflexivity. Qed.

(** The frames that the inspiral loop leaves: at most one per counted
    step and one for the merger; all tagged 0 but the merger frame, which
    comes last, is tagged 1 and carries the merger time. *)
Lemma run_inspiral_frames (config : SimulationConfig) :
  let ls := run_inspiral config in
  let fr := frames (ls_result ls) in
  (Z.of_nat (List.length fr) <= 2000000001)%Z /\
  (merger_occurred (ls_result ls) = false ->
   Forall (fun f => frame_phase f = 0%Z) fr) /\
  (merger_occurred (ls_result ls) = true ->
   exists (early : list SimulationFrame) (m : SimulationFrame),
     fr = early ++ [m] /\
     Forall (fun f => frame_phase f = 0%Z) early /\
     frame_phase m = 1%Z /\
     frame_time m = merger_time (ls_result ls) /\
     frame_bh1 m = ls_bh1 ls /\ frame_bh2 m = ls_bh2 ls).
Proof.
  intros ls fr.
  set (Inv := fun l : LoopState =>
                merger_occurred (ls_result l) = false /\
                (Z.of_nat (List.length (frames (ls_result l)))
                 <= ls_step_count l <= 2000000000)%Z /\
                Forall (fun f => frame_phase f = 0%Z) (frames (ls_result l))).
  set (Post := fun l : LoopState =>
      (Z.of_nat (List.length (frames (ls_result l))) <= 2000000001)%Z /\
      (merger_occurred (ls_result l) = false ->
       Forall (fun f => frame_phase f = 0%Z) (frames (ls_result l))) /\
      (merger_occurred (ls_result l) = true ->
       exists (early : list SimulationFrame) (m : SimulationFrame),
         frames (ls_result l) = early ++ [m] /\
         Forall (fun f => frame_phase f = 0%Z) early /\
         frame_phase m = 1%Z /\
         frame_time m = merger_time (ls_result l) /\
         frame_bh1 m = ls_bh1 l /\ frame_bh2 m = ls_bh2 l)).
  change (Post ls). subst ls fr. unfold run_inspiral, init_binary. cbv zeta.
  apply (inspiral_loop_rule _ _ _ _ Inv Post).
  - intros l (Hm & Hc & Hf) _. unfold Post.
    split; [lia|]. split; [intros _; exact Hf|congruence].
  - intros l l' (Hm & Hc & Hf) E.
    apply inspiral_iteration_spec in E. destruct E as [_ E].
    apply inspiral_body_spec in E. cbv zeta in E.
    destruct E as (E1 & E2 & _ & _ & [E|E]).
    + destruct E as (_ & _ & _ & Ef & Emo & Emt & _). unfold Post.
      rewrite Ef, Emo, Emt, E1, E2, length_app. cbn [List.length].
      split; [lia|]. split; [discriminate|]. intros _.
      eexists. eexists. split; [reflexivity|].
      split; [exact Hf|]. repeat split; reflexivity.
    + destruct E as (_ & _ & _ & Emo & _ & _ & Ef & _). unfold Post.
      rewrite Emo.
      destruct Ef as [(Ef & _)|(Ef & _)]; rewrite Ef.
      * split; [lia|]. split; [intros _; exact Hf|congruence].
      * rewrite length_app. cbn [List.length].
        split; [lia|]. split; [|congruence]. intros _.
        apply Forall_app. split; [exact Hf|].
        apply Forall_cons; [reflexivity|apply Forall_nil].
  - intros l l' (Hm & Hc & Hf) E.
    apply inspiral_iteration_spec in E. destruct E as [_ E].
    apply inspiral_body_spec in E. cbv zeta in E.
    destruct E as (E1 & E2 & _ & _ & [E|E]).
    + destruct E as (_ & C & _). discriminate.
    + destruct E as (_ & Eb & _ & Emo & _ & Esc & Ef & _). unfold Inv.
      symmetry in Eb. apply Z.ltb_ge in Eb.
      rewrite Emo, Esc.
      destruct Ef as [(Ef & _)|(Ef & _)]; rewrite Ef.
      * split; [exact Hm|]. split; [lia|exact Hf].
      * rewrite length_app. cbn [List.length].
        split; [exact Hm|]. split; [lia|].
        apply Forall_app. split; [exact Hf|].
        apply Forall_cons; [reflexivity|apply Forall_nil].
  - unfold Inv, initial_loop_state, init_binary.
    cbn [ls_result ls_step_count merger_occurred frames List.length].
    split; [reflexivity|]. split; [lia|apply Forall_nil].
Qed.

(** With positive steps the frames that the inspiral loop leaves carry
    strictly increasing, non-negative times. *)
Lemma run_inspiral_times (config : SimulationConfig) :
  positive_steps (integrator config) ->
  let ls := run_inspiral config in
  StronglySorted Rlt (map frame_time (frames (ls_result ls))) /\
  Forall (fun f => 0 <= frame_time f) (frames (ls_result ls)).
Proof.
  intros Hpos ls.
  set (Inv := fun l : LoopState =>
                0 <= time (ls_state l) /\
                StronglySorted Rlt (map frame_time (frames (ls_result l))) /\
                Forall (fun f => 0 <= frame_time f < time (ls_state l))
                       (frames (ls_result l))).
  set (Post := fun l : LoopState =>
                 StronglySorted Rlt (map frame_time (frames (ls_result l))) /\
                 Forall (fun f => 0 <= frame_time f) (frames (ls_result l))).
  assert (Hweak : forall (t : R) (fr : list SimulationFrame),
             Forall (fun f => 0 <= frame_time f < t) fr ->
             Forall (fun f => 0 <= frame_time f) fr).
  { intros t fr H. eapply Forall_impl; [|exact H]. cbv beta. intros; lra. }
  assert (Hsnoc : forall (t : R) (fr : list SimulationFrame)
                         (f : SimulationFrame),
             StronglySorted Rlt (map frame_time fr) ->
             Forall (fun f => 0 <= frame_time f < t) fr ->
             frame_time f = t ->
             StronglySorted Rlt (map frame_time (fr ++ [f]))).
  { intros t fr f Hs Hf Ht. rewrite map_app. cbn [map].
    apply StronglySorted_snoc; [exact Hs|].
    rewrite Forall_map. eapply Forall_impl; [|exact Hf]. cbv beta.
    intros; lra. }
  change (Post ls). subst ls. unfold run_inspiral, init_binary. cbv zeta.
  apply (inspiral_loop_rule _ _ _ _ Inv Post).
  - intros l (Ht & Hs & Hf) _. split; [exact Hs|]. eapply Hweak; exact Hf.
  - intros l l' (Ht & Hs & Hf) E.
    apply inspiral_iteration_spec in E. destruct E as [_ E].
    apply inspiral_body_spec in E. cbv zeta in E.
    destruct E as (_ & _ & _ & _ & [E|E]).
    + destruct E as (_ & _ & _ & Ef & _). unfold Post. rewrite Ef. split.
      * eapply Hsnoc; [exact Hs|exact Hf|reflexivity].
      * apply Forall_app. split; [eapply Hweak; exact Hf|].
        apply Forall_cons; [exact Ht|apply Forall_nil].
    + destruct E as (_ & _ & _ & _ & _ & _ & Ef & _). unfold Post.
      destruct Ef as [(Ef & _)|(Ef & _)]; rewrite Ef.
      * split; [exact Hs|eapply Hweak; exact Hf].
      * split; [eapply Hsnoc; [exact Hs|exact Hf|reflexivity]|].
        apply Forall_app. split; [eapply Hweak; exact Hf|].
        apply Forall_cons; [exact Ht|apply Forall_nil].
  - intros l l' (Ht & Hs & Hf) E.
    apply inspiral_iteration_spec in E. destruct E as [_ E].
    apply inspiral_body_spec in E. cbv zeta in E.
    destruct E as (_ & _ & _ & _ & [E|E]).
    + destruct E as (_ & C & _). discriminate.
    + destruct E as (_ & _ & Es & _ & _ & _ & Ef & _). unfold Inv.
      rewrite Es, rk4_step_time.
      pose proof (adaptive_timestep_positive (ls_state l) (integrator config)
                    (m1 (binary config) + m2 (binary config)) Hpos) as Hdt.
      cbn [mass] in *.
      set (dt := adaptive_timestep _ _ _) in *.
      assert (Hold : Forall (fun f => 0 <= frame_time f < time (ls_state l) + dt)
                            (frames (ls_result l))).
      { eapply Forall_impl; [|exact Hf]. cbv beta. intros; lra. }
      split; [lra|].
      destruct Ef as [(Ef & _)|(Ef & _)]; rewrite Ef.
      * split; [exact Hs|exact Hold].
      * split; [eapply Hsnoc; [exact Hs|exact Hf|reflexivity]|].
        apply Forall_app. split; [exact Hold|].
        apply Forall_cons; [|apply Forall_nil]. cbn [make_frame frame_time].
        lra.
  - unfold Inv, initial_loop_state, init_binary.
    cbn [ls_result ls_state time frames map].
    split; [lra|]. split; [apply SSorted_nil|apply Forall_nil].
Qed.

End FrameTimes.

Section FirstIteration.

Import Exact.
Local Open Scope R_scope.

(** One turn of the [while] loop. *)
Lemma inspiral_loop_once (config : SimulationConfig) (deriv : DerivativeFunc)
    (M est : R) (ls : LoopState) :
  inspiral_loop config deriv M est ls =
  match inspiral_iteration config deriv M est ls with
  | Some (ls', false) => inspiral_loop config deriv M est ls'
  | Some (ls', true) => ls'
  | None => ls
  end.
Proof.
  rewrite inspiral_loop_equation_1.
  destruct (inspect (inspiral_iteration config deriv M est ls)) as [o e].
  destruct o as [[ls' [|]]|]; cbn [inspiral_loop_unfold_clause_1];
    rewrite e; reflexivity.
Qed.

Lemma run_inspiral_unfold (config : SimulationConfig) :
  exists (deriv : DerivativeFunc) (M est : R),
    run_inspiral config =
    inspiral_loop config deriv M est (initial_loop_state config).
Proof.
  unfold run_inspiral, init_binary. cbv zeta.
  eexists. eexists. eexists. reflexivity.
Qed.

Lemma initial_loop_state_fields (config : SimulationConfig) :
  let b := init_binary (binary config) in
  let ls := initial_loop_state config in
  ls_bh1 ls = fst b /\ ls_bh2 ls = snd b /\
  ls_state ls = bodies_state (fst b) (snd b) 0.0 /\
  frames (ls_result ls) = [] /\
  ls_last_record_time ls = - record_interval config /\
  ls_step_count ls = 0%Z.
Proof.
  unfold initial_loop_state, init_binary, bodies_state.
  cbn [fst snd ls_bh1 ls_bh2 ls_state ls_result frames ls_last_record_time
       ls_step_count position velocity].
  repeat split; reflexivity.
Qed.

(** The merger test on the initial state, in terms of the configuration. *)
Lemma initial_should_merge (config : SimulationConfig) :
  let c := binary config in
  let ls := initial_loop_state config in
  let st := ls_state ls in
  let v_rel := sqrt ((m1 c + m2 c) / initial_separation c) *
               sqrt ((1.0 + eccentricity c) / (1.0 - eccentricity c)) in
  m1 c + m2 c <> 0 -> 0 <= initial_separation c ->
  (should_merge (set_pos_vel (ls_bh1 ls) (pos1 st) (vel1 st))
                (set_pos_vel (ls_bh2 ls) (pos2 st) (vel2 st))
                default_critical_factor = true
   <-> initial_separation c <= 0.5 * (m1 c + m2 c) \/ 2 < v_rel) /\
  glm_length (vsub (pos1 st) (pos2 st)) = initial_separation c.
Proof.
  intros c ls st v_rel HM Hr.
  destruct (initial_loop_state_fields config) as (E1 & E2 & Es & _).
  cbv zeta in E1, E2, Es. fold ls c in E1, E2, Es.
  destruct (init_binary_relative c HM) as (Er & Ev & Em1 & Em2).
  cbv zeta in Ev. fold v_rel in Ev.
  assert (Hv : 0 <= v_rel).
  { unfold v_rel. apply Rmult_le_pos; apply sqrt_pos. }
  subst st. rewrite Es, E1, E2. unfold bodies_state. cbn [pos1 vel1 pos2 vel2].
  rewrite should_merge_true_iff.
  unfold set_pos_vel, schwarzschild_radius. cbn [position velocity mass].
  rewrite Er, Ev, Em1, Em2, glm_length_x, glm_length_z.
  rewrite (Rabs_pos_eq _ Hr), (Rabs_pos_eq _ Hv).
  unfold default_critical_factor. split; [|reflexivity].
  split; intros [H|H]; [left|right; exact H|left|right; exact H]; lra.
Qed.

Lemma first_iteration (config : SimulationConfig) (deriv : DerivativeFunc)
    (M est : R) :
  0 < max_time config ->
  inspiral_iteration config deriv M est (initial_loop_state config)
  = Some (inspiral_body config deriv M est (initial_loop_state config)).
Proof.
  intros H. unfold inspiral_iteration.
  destruct (initial_loop_state_fields config) as (_ & _ & Es & _).
  cbv zeta in Es. rewrite Es. unfold bodies_state. cbn [time].
  rewrite (proj2 (Rltb_true 0.0 (max_time config))) by lra. reflexivity.
Qed.

(** A run whose initial state meets the merger test. *)
Lemma run_inspiral_immediate (config : SimulationConfig) :
  let c := binary config in
  let ls := run_inspiral config in
  m1 c + m2 c <> 0 -> 0 <= initial_separation c -> 0 < max_time config ->
  (initial_separation c <= 0.5 * (m1 c + m2 c) \/
   2 < sqrt ((m1 c + m2 c) / initial_separation c) *
       sqrt ((1.0 + eccentricity c) / (1.0 - eccentricity c))) ->
  merger_occurred (ls_result ls) = true /\
  merger_time (ls_result ls) = 0 /\
  List.length (frames (ls_result ls)) = 1%nat.
Proof.
  intros c ls HM Hr Hmax Hcond. subst ls.
  destruct (run_inspiral_unfold config) as (deriv & M & est & ->).
  rewrite (inspiral_loop_once config deriv M est).
  rewrite (first_iteration config deriv M est Hmax).
  destruct (inspiral_body config deriv M est (initial_loop_state config))
    as [ls' b] eqn:E.
  apply inspiral_body_spec in E. cbv zeta in E.
  destruct (initial_should_merge config) as (Hsm & _); [exact HM|exact Hr|].
  cbv zeta in Hsm. fold c in Hsm. apply Hsm in Hcond.
  destruct (initial_loop_state_fields config) as (_ & _ & Es & Ef & _).
  cbv zeta in Es, Ef.
  destruct E as (_ & _ & _ & _ & [E|E]).
  - destruct E as (_ & -> & _ & Efr & Emo & Emt & _).
    rewrite Emo, Emt, Efr, Ef, Es. unfold bodies_state. cbn [time app List.length].
    repeat split; try reflexivity. lra.
  - destruct E as (C & _). congruence.
Qed.

(** A run that does not merge at once and whose first step reaches
    [max_time]: one frame is recorded and the loop is left. *)
Lemma run_inspiral_single_step (config : SimulationConfig) :
  let c := binary config in
  let ls := run_inspiral config in
  m1 c + m2 c <> 0 -> 0 <= initial_separation c ->
  ~ (initial_separation c <= 0.5 * (m1 c + m2 c) \/
     2 < sqrt ((m1 c + m2 c) / initial_separation c) *
         sqrt ((1.0 + eccentricity c) / (1.0 - eccentricity c))) ->
  adaptive (integrator config) = false ->
  0 < max_time config <= dt_initial (integrator config) ->
  0 <= record_interval config ->
  merger_occurred (ls_result ls) = false /\
  List.length (frames (ls_result ls)) = 1%nat.
Proof.
  intros c ls HM Hr Hcond Had Hmax Hri. subst ls.
  destruct (run_inspiral_unfold config) as (deriv & M & est & ->).
  rewrite (inspiral_loop_once config deriv M est).
  rewrite (first_iteration config deriv M est ltac:(lra)).
  destruct (inspiral_body config deriv M est (initial_loop_state config))
    as [ls' b] eqn:E.
  apply inspiral_body_spec in E. cbv zeta in E.
  destruct (initial_should_merge config) as (Hsm & Hsep);
    [exact HM|exact Hr|].
  cbv zeta in Hsm, Hsep. fold c in Hsm, Hsep.
  destruct (initial_loop_state_fields config)
    as (_ & _ & Es & Ef & Elr & Esc).
  cbv zeta in Es, Ef, Elr, Esc.
  destruct E as (_ & _ & _ & _ & [E|E]).
  - destruct E as (C & _). apply Hsm in C. contradiction.
  - destruct E as (_ & -> & Est & Emo & _ & _ & Efr & _).
    rewrite Esc. change (2000000000 <? 0 + 1)%Z with false. cbv iota.
    assert (Ht : time (ls_state ls') = 0.0 + dt_initial (integrator config)).
    { rewrite Est, rk4_step_time, Es. unfold bodies_state, adaptive_timestep.
      cbn [time]. rewrite Had. reflexivity. }
    rewrite inspiral_loop_once. unfold inspiral_iteration. rewrite Ht.
    rewrite (proj2 (Rltb_false _ _)) by lra.
    rewrite Emo. split; [reflexivity|].
    destruct Efr as [(_ & _ & _ & _ & C)|(Efr & _)].
    + exfalso. rewrite Elr, Es in C. unfold bodies_state in C. cbn [time] in C.
      apply Rleb_false in C.
      destruct (_ <? _) in C; lra.
    + rewrite Efr, Ef. reflexivity.
Qed.


Lemma close_config_merges :
  merger_occurred (ls_result (run_inspiral close_config)) = true.
Proof.
  apply (run_inspiral_immediate close_config);
    cbn [close_config binary m1 m2 initial_separation max_time]; lra.
Qed.

Lemma close_config_orbit_defined : orbit_defined (binary close_config).
Proof.
  unfold orbit_defined.
  cbn [close_config binary m1 m2 initial_separation eccentricity]. lra.
Qed.


End FirstIteration.

Section RunFrames.

Import Exact.
Local Open Scope R_scope.

(** X21.  The frames of a run are inspiral frames (phase 0), then, exactly when
    a merger occurred, one merger frame (phase 1) at index
    [num_inspiral_frames - 1] stamped with the merger time, then
    [ringdown_samples] frames of phase 2 or 3 (none for a count below 1);
    the number of inspiral frames
    is at most 2000000001 and fits the [int] that counts them. *)
Theorem run_simulation_merger_frame (config : SimulationConfig) :
  let res := fst (run_simulation config) in
  (0 <= num_inspiral_frames res <= 2000000001)%Z /\
  (num_inspiral_frames res < 2 ^ 31)%Z /\
  (merger_occurred res = false ->
   Z.of_nat (List.length (frames res)) = num_inspiral_frames res /\
   Forall (fun f => frame_phase f = 0%Z) (frames res)) /\
  (merger_occurred res = true ->
   exists (early : list SimulationFrame) (m : SimulationFrame)
          (ringdown : list SimulationFrame),
     frames res = early ++ m :: ringdown /\
     Z.of_nat (List.length early) = (num_inspiral_frames res - 1)%Z /\
     Forall (fun f => frame_phase f = 0%Z) early /\
     frame_phase m = 1%Z /\
     frame_time m = merger_time res /\
     Forall (fun f => frame_phase f = 2%Z \/ frame_phase f = 3%Z) ringdown /\
     Z.of_nat (List.length ringdown) = Z.max 0 (ringdown_samples config)).
Proof.
  intros res.
  destruct (run_inspiral_frames config) as (Hlen & Hno & Hyes).
  cbv zeta in Hlen, Hno, Hyes.
  set (ls := run_inspiral config) in *.
  destruct (merger_occurred (ls_result ls)) eqn:Em.
  - destruct (run_simulation_merged config Em)
      as (Emo & _ & _ & Emt & _ & _ & _ & Eni & _ & Efr).
    fold res ls in Emo, Emt, Eni, Efr.
    destruct (Hyes eq_refl) as (early & m & Ef & Hearly & Hph & Htm & _).
    rewrite Eni. split; [lia|]. split; [lia|].
    split; [rewrite Emo; discriminate|]. intros _.
    exists early, m. eexists. rewrite Efr, Ef, <- app_assoc. cbn [app].
    split; [reflexivity|].
    rewrite length_app. cbn [List.length].
    split; [lia|]. split; [exact Hearly|]. split; [exact Hph|].
    split; [congruence|]. split.
    + apply Forall_forall. intros f Hf. apply in_map_iff in Hf.
      destruct Hf as (i & <- & _). apply ringdown_frame_phase.
    + rewrite !length_map, length_seq. lia.
  - destruct (run_simulation_unmerged config Em) as (Emo & Efr & _ & Eni).
    fold res ls in Emo, Efr, Eni.
    rewrite Eni. split; [lia|]. split; [lia|].
    split; [|rewrite Emo; discriminate]. intros _.
    rewrite Efr. split; [reflexivity|]. apply Hno. reflexivity.
Qed.

Lemma run_simulation_merger_frame_witness :
  let res := fst (run_simulation close_config) in
  exists (early : list SimulationFrame) (m : SimulationFrame)
         (ringdown : list SimulationFrame),
    frames res = early ++ m :: ringdown /\
    frame_phase m = 1%Z /\ frame_time m = merger_time res.
Proof.
  destruct (run_simulation_merger_frame close_config) as (_ & _ & _ & H).
  destruct H as (early & m & ring & A & _ & _ & B & C & _).
  - destruct (run_simulation_merged close_config close_config_merges)
      as (E & _). exact E.
  - exists early, m, ring. auto.
Defined.

(** X22.  For a configuration that describes an orbit and positive time
    steps, the inspiral frames carry strictly
    increasing, non-negative times, none later than the merger; the
    ringdown frames are stamped [merger_time + i * ringdown_dt]; so the
    first ringdown frame carries the same time as the merger frame. *)
Theorem run_simulation_frame_times (config : SimulationConfig) :
  orbit_defined (binary config) ->
  positive_steps (integrator config) ->
  let res := fst (run_simulation config) in
  let ringdown_dt :=
    ringdown_duration config / IZR (ringdown_samples config) in
  exists inspiral ringdown : list SimulationFrame,
    frames res = inspiral ++ ringdown /\
    Z.of_nat (List.length inspiral) = num_inspiral_frames res /\
    StronglySorted Rlt (map frame_time inspiral) /\
    Forall (fun f => 0 <= frame_time f) inspiral /\
    (merger_occurred res = false -> ringdown = []) /\
    (merger_occurred res = true ->
     Forall (fun f => frame_time f <= merger_time res) inspiral /\
     map frame_time ringdown =
       map (fun i => merger_time res + IZR i * ringdown_dt)
           (map Z.of_nat (seq 0 (Z.to_nat (ringdown_samples config)))) /\
     ((1 <= ringdown_samples config)%Z ->
      exists (early : list SimulationFrame) (m r : SimulationFrame)
             (rest : list SimulationFrame),
        frames res = early ++ m :: r :: rest /\
        frame_phase m = 1%Z /\ (2 <= frame_phase r)%Z /\
        frame_time m = merger_time res /\
        frame_time r = merger_time res)).
Proof.
  intros _ Hpos res ringdown_dt.
  destruct (run_inspiral_frames config) as (_ & _ & Hyes).
  destruct (run_inspiral_times config Hpos) as (Hs & Hnn).
  cbv zeta in Hyes, Hs, Hnn.
  set (ls := run_inspiral config) in *.
  destruct (merger_occurred (ls_result ls)) eqn:Em.
  - destruct (run_simulation_merged config Em)
      as (Emo & _ & _ & Emt & _ & _ & _ & Eni & _ & Efr).
    fold res ls ringdown_dt in Emo, Emt, Eni, Efr.
    destruct (Hyes eq_refl) as (early & m & Ef & _ & Hph & Htm & _).
    exists (frames (ls_result ls)). eexists.
    split; [exact Efr|]. split; [symmetry; exact Eni|].
    split; [exact Hs|]. split; [exact Hnn|].
    split; [rewrite Emo; discriminate|]. intros _.
    assert (Hle : Forall (fun f => frame_time f <= merger_time res)
                         (frames (ls_result ls))).
    { rewrite Emt, <- Htm. rewrite Ef in Hs |- *.
      rewrite map_app in Hs. cbn [map] in Hs.
      apply Forall_app. split.
      - clear - Hs. induction early as [|x early IH]; [apply Forall_nil|].
        cbn [map app] in Hs. inversion Hs as [|? ? Hs' Hx]; subst.
        apply Forall_cons; [|apply IH; exact Hs'].
        rewrite Forall_app in Hx. destruct Hx as [_ Hx].
        inversion Hx; subst. lra.
      - apply Forall_cons; [lra|apply Forall_nil]. }
    split; [exact Hle|]. split.
    + rewrite map_map. apply map_ext. intros i. reflexivity.
    + intros Hn.
      destruct (Z.to_nat (ringdown_samples config)) as [|n] eqn:En; [lia|].
      exists early, m. eexists. eexists.
      rewrite Efr, Ef, ?En, <- app_assoc. cbn [seq map app].
      split; [reflexivity|]. split; [exact Hph|].
      split; [|split; [congruence|]].
      * destruct (ringdown_frame_phase config res ringdown_dt (Z.of_nat 0));
          lia.
      * unfold ringdown_frame. cbn [frame_time Z.of_nat]. lra.
  - destruct (run_simulation_unmerged config Em) as (Emo & Efr & _ & Eni).
    fold res ls in Emo, Efr, Eni.
    exists (frames (ls_result ls)), [].
    rewrite app_nil_r. split; [exact Efr|]. split; [symmetry; exact Eni|].
    split; [exact Hs|]. split; [exact Hnn|]. split; [reflexivity|].
    rewrite Emo. discriminate.
Qed.

Lemma run_simulation_frame_times_witness :
  let res := fst (run_simulation unnormalized_config) in
  exists inspiral ringdown : list SimulationFrame,
    frames res = inspiral ++ ringdown /\
    Z.of_nat (List.length inspiral) = num_inspiral_frames res /\
    StronglySorted Rlt (map frame_time inspiral).
Proof.
  destruct (run_simulation_frame_times unnormalized_config)
    as (i & r & A & B & C & _).
  - unfold orbit_defined.
    cbn [unnormalized_config binary m1 m2 initial_separation eccentricity].
    lra.
  - cbn. lra.
  - exists i, r. auto.
Defined.

End RunFrames.

Section WaveCycles.

Import Exact.
Local Open Scope R_scope.

Lemma std_atan2_range (y x : R) : - PI < std_atan2 y x <= PI.
Proof.
  pose proof PI_RGT_0 as Hpi. pose proof (atan_bound (y / x)) as Hb.
  unfold std_atan2.
  destruct (0 <? x) eqn:E1; [lra|]. apply Rltb_false in E1.
  destruct (x <? 0) eqn:E2.
  - apply Rltb_true in E2.
    assert (Hix : / x < 0) by (apply Rinv_lt_0_compat; exact E2).
    destruct (y <? 0) eqn:E3.
    + apply Rltb_true in E3.
      assert (Hq : 0 < y / x) by (unfold Rdiv; nra).
      apply atan_increasing in Hq. rewrite atan_0 in Hq. lra.
    + apply Rltb_false in E3.
      assert (Hq : y / x <= 0) by (unfold Rdiv; nra).
      destruct Hq as [Hq|Hq].
      * apply atan_increasing in Hq. rewrite atan_0 in Hq. lra.
      * rewrite Hq, atan_0. lra.
  - destruct (0 <? y); [lra|]. destruct (y <? 0); lra.
Qed.

Lemma orbital_phase_range (bh1 bh2 : BlackHole) :
  - PI < orbital_phase (compute_orbital_params bh1 bh2) <= PI.
Proof.
  pose proof PI_RGT_0 as Hpi. unfold compute_orbital_params.
  destruct (_ <? 1e-10); cbn [orbital_phase]; [lra|apply std_atan2_range].
Qed.

(** The wrapped difference of two phases in (-pi, pi] is at most pi in
    absolute value. *)
Lemma wrapped_phase_difference (p q : R) :
  - PI < p <= PI -> - PI < q <= PI ->
  let d0 := p - q in
  let d1 := if d0 <? - M_PI then d0 + 2.0 * M_PI else d0 in
  let d2 := if M_PI <? d1 then d1 - 2.0 * M_PI else d1 in
  0 <= Rabs d2 / M_PI <= 1.
Proof.
  intros Hp Hq d0 d1 d2. pose proof PI_RGT_0 as Hpi. unfold M_PI in *.
  assert (Hd : Rabs d2 <= PI).
  { subst d2 d1 d0.
    destruct (p - q <? - PI) eqn:E1;
      [apply Rltb_true in E1|apply Rltb_false in E1];
      match goal with
      | |- Rabs (if ?c then _ else _) <= _ =>
          destruct c eqn:E2;
          [apply Rltb_true in E2|apply Rltb_false in E2]
      end;
      unfold Rabs; destruct (Rcase_abs _); lra. }
  pose proof (Rabs_pos d2) as Hn.
  split.
  - unfold Rdiv. apply Rmult_le_pos; [exact Hn|].
    left. apply Rinv_0_lt_compat. exact Hpi.
  - apply (Rmult_le_reg_r PI); [exact Hpi|].
    unfold Rdiv. rewrite Rmult_assoc, Rinv_l by lra. lra.
Qed.

Lemma run_inspiral_cycles (config : SimulationConfig) :
  let ls := run_inspiral config in
  0 <= total_gw_cycles (ls_result ls)
    <= INR (List.length (frames (ls_result ls))) /\
  (merger_occurred (ls_result ls) = true ->
   total_gw_cycles (ls_result ls)
     <= INR (List.length (frames (ls_result ls))) - 1).
Proof.
  intros ls.
  set (Inv := fun l : LoopState =>
                - PI < ls_last_phase l <= PI /\
                merger_occurred (ls_result l) = false /\
                0 <= total_gw_cycles (ls_result l)
                  <= INR (List.length (frames (ls_result l)))).
  set (Post := fun l : LoopState =>
                 0 <= total_gw_cycles (ls_result l)
                   <= INR (List.length (frames (ls_result l))) /\
                 (merger_occurred (ls_result l) = true ->
                  total_gw_cycles (ls_result l)
                    <= INR (List.length (frames (ls_result l))) - 1)).
  assert (Hlen : forall (fr : list SimulationFrame) (f : SimulationFrame),
             INR (List.length (fr ++ [f])) = INR (List.length fr) + 1).
  { intros fr f. rewrite length_app. cbn [List.length].
    rewrite Nat.add_1_r. apply S_INR. }
  change (Post ls). subst ls. unfold run_inspiral, init_binary. cbv zeta.
  apply (inspiral_loop_rule _ _ _ _ Inv Post).
  - intros l (Hp & Hm & Hc) _. split; [exact Hc|]. congruence.
  - intros l l' (Hp & Hm & Hc) E.
    apply inspiral_iteration_spec in E. destruct E as [_ E].
    apply inspiral_body_spec in E. cbv zeta in E.
    destruct E as (_ & _ & _ & _ & [E|E]).
    + destruct E as (_ & _ & _ & Ef & _ & _ & Eg & _). unfold Post.
      rewrite Ef, Eg, Hlen. split; [lra|]. intros _. lra.
    + destruct E as (_ & _ & _ & Emo & _ & _ & Ef & _). unfold Post.
      rewrite Emo.
      destruct Ef as [(Ef & Eg & _)|(Ef & Eg & _)]; rewrite Ef, Eg.
      * split; [exact Hc|congruence].
      * rewrite Hlen. split; [|congruence].
        match goal with
        | |- context [Rabs ?d / M_PI] =>
            assert (Hw : 0 <= Rabs d / M_PI <= 1)
              by (apply wrapped_phase_difference;
                  [apply orbital_phase_range|exact Hp])
        end.
        lra.
  - intros l l' (Hp & Hm & Hc) E.
    apply inspiral_iteration_spec in E. destruct E as [_ E].
    apply inspiral_body_spec in E. cbv zeta in E.
    destruct E as (_ & _ & _ & _ & [E|E]).
    + destruct E as (_ & C & _). discriminate.
    + destruct E as (_ & _ & _ & Emo & _ & _ & Ef & _). unfold Inv.
      rewrite Emo.
      destruct Ef as [(Ef & Eg & _ & Ep & _)|(Ef & Eg & _ & Ep & _)];
        rewrite Ef, Eg, Ep.
      * split; [exact Hp|]. split; [exact Hm|exact Hc].
      * rewrite Hlen. split; [apply orbital_phase_range|].
        split; [exact Hm|].
        match goal with
        | |- context [Rabs ?d / M_PI] =>
            assert (Hw : 0 <= Rabs d / M_PI <= 1)
              by (apply wrapped_phase_difference;
                  [apply orbital_phase_range|exact Hp])
        end.
        lra.
  - unfold Inv, initial_loop_state, init_binary.
    cbn [ls_result ls_last_phase merger_occurred total_gw_cycles frames
         List.length INR].
    pose proof PI_RGT_0. split; [lra|]. split; [reflexivity|lra].
Qed.

(** X23.  For a configuration that describes an orbit, [total_gw_cycles] is
    non-negative and at most the number of recorded
    inspiral frames (one less in a run that merges): the phase is only
    accumulated when a frame is recorded, and each recorded difference is
    wrapped below one turn. *)
Theorem total_gw_cycles_bounded (config : SimulationConfig) :
  orbit_defined (binary config) ->
  let res := fst (run_simulation config) in
  0 <= total_gw_cycles res <= IZR (num_inspiral_frames res) /\
  (merger_occurred res = true ->
   total_gw_cycles res <= IZR (num_inspiral_frames res) - 1).
Proof.
  intros _ res.
  destruct (run_inspiral_cycles config) as (Hc & Hm).
  cbv zeta in Hc, Hm. set (ls := run_inspiral config) in *.
  destruct (merger_occurred (ls_result ls)) eqn:Em.
  - destruct (run_simulation_merged config Em)
      as (Emo & _ & _ & _ & Eg & _ & _ & Eni & _).
    fold res ls in Emo, Eg, Eni.
    rewrite Eg, Eni, <- INR_IZR_INZ. split; [exact Hc|].
    intros _. apply Hm. reflexivity.
  - destruct (run_simulation_unmerged config Em) as (Emo & _ & Eg & Eni).
    fold res ls in Emo, Eg, Eni.
    rewrite Eg, Eni, <- INR_IZR_INZ, Emo. split; [exact Hc|discriminate].
Qed.

Lemma total_gw_cycles_bounded_witness :
  let res := fst (run_simulation close_config) in
  total_gw_cycles res <= IZR (num_inspiral_frames res) - 1.
Proof.
  apply (proj2 (total_gw_cycles_bounded close_config
                  close_config_orbit_defined)).
  destruct (run_simulation_merged close_config close_config_merges)
    as (E & _). exact E.
Defined.

End WaveCycles.

Section BuildTimeline.

Import Exact.
Local Open Scope R_scope.


(** The loop of [build] appends the render data of each frame and leaves
    duration and merger time alone. *)
Lemma build_pass_fold_frames (fr : list SimulationFrame)
    (tl : CollisionTimeline) (i : Z) :
  let out := fold_left build_pass fr (tl, i) in
  tl_frames (fst out) = tl_frames tl ++ map build_render_data fr /\
  tl_total_duration (fst out) = tl_total_duration tl /\
  tl_merger_time (fst out) = tl_merger_time tl /\
  snd out = (i + Z.of_nat (List.length fr))%Z.
Proof.
  revert tl i. induction fr as [|f fr IH]; intros tl i; cbn [fold_left].
  - cbn [fst snd map List.length]. rewrite app_nil_r.
    repeat split; try reflexivity. lia.
  - destruct (IH (fst (build_pass (tl, i) f)) (snd (build_pass (tl, i) f)))
      as (A & B & C & D).
    cbv zeta in *. rewrite <- surjective_pairing in A, B, C, D.
    rewrite A, B, C, D. unfold build_pass.
    cbn [fst snd tl_frames tl_total_duration tl_merger_time map List.length].
    rewrite <- app_assoc. cbn [app]. repeat split; try reflexivity. lia.
Qed.




(** A list of frames has no frame tagged 1, or a first one. *)
Lemma first_merger_frame (fr : list SimulationFrame) :
  Forall (fun f => frame_phase f <> 1%Z) fr \/
  exists early m late,
    fr = early ++ m :: late /\
    Forall (fun f => frame_phase f <> 1%Z) early /\ frame_phase m = 1%Z.
Proof.
  induction fr as [|f fr IH].
  - left. apply Forall_nil.
  - destruct (Z.eq_dec (frame_phase f) 1) as [E|E].
    + right. exists [], f, fr. split; [reflexivity|].
      split; [apply Forall_nil|exact E].
    + destruct IH as [IH|(early & m & late & Ef & He & Hm)].
      * left. apply Forall_cons; assumption.
      * right. exists (f :: early), m, late. rewrite Ef.
        split; [reflexivity|]. split; [apply Forall_cons; assumption|exact Hm].
Qed.

Lemma build_frames (r : SimulationResult) :
  tl_frames (build r) = map build_render_data (frames r).
Proof.
  unfold build. destruct (frames r) as [|f0 fr] eqn:E; [reflexivity|].
  cbv zeta.
  match goal with
  | |- context [fold_left build_pass ?l (?tl, ?i)] =>
      destruct (build_pass_fold_frames l tl i) as (A & _)
  end.
  cbv zeta in A. rewrite A. reflexivity.
Qed.






End BuildTimeline.

Section InterpolateSearch.

Import Exact.
Local Open Scope R_scope.

Lemma size_t_wrap_small (z : Z) : (0 <= z < 2 ^ 64)%Z -> size_t_wrap z = z.
Proof. intros H. unfold size_t_wrap. apply Z.mod_small. exact H. Qed.

Lemma frame_at_in_range (l : list CollisionRenderData) (i : Z) :
  (0 <= i < Z.of_nat (List.length l))%Z ->
  exists f, frame_at l i = Returns f /\ nth_error l (Z.to_nat i) = Some f.
Proof.
  intros H. unfold frame_at.
  replace (i <? 0)%Z with false by (symmetry; apply Z.ltb_ge; lia).
  destruct (nth_error l (Z.to_nat i)) as [f|] eqn:E.
  - exists f. split; reflexivity.
  - apply nth_error_None in E. lia.
Qed.

Lemma frame_at_nth (l : list CollisionRenderData) (i : Z)
    (f : CollisionRenderData) :
  frame_at l i = Returns f ->
  (0 <= i)%Z /\ nth_error l (Z.to_nat i) = Some f.
Proof.
  unfold frame_at. destruct (i <? 0)%Z eqn:E; [discriminate|].
  apply Z.ltb_ge in E.
  destruct (nth_error l (Z.to_nat i)); [|discriminate].
  intros H. injection H as ->. split; [exact E|reflexivity].
Qed.

(** The binary search on at least two frames: it ends with adjacent
    indices, having read frames inside the vector only. *)
Lemma interpolate_search_spec (l : list CollisionRenderData) (t : R) :
  (Z.of_nat (List.length l) < 2 ^ 63)%Z ->
  forall (fuel : nat) (lo hi : Z),
    (0 <= lo < hi)%Z -> (hi < Z.of_nat (List.length l))%Z ->
    (hi - lo <= Z.of_nat fuel + 1)%Z ->
    exists k : Z,
      interpolate_search fuel l t lo hi = Returns (k, (k + 1)%Z) /\
      (lo <= k)%Z /\ (k + 1 <= hi)%Z /\
      (k = lo \/ exists f, frame_at l k = Returns f /\ rd_time f <= t) /\
      ((k + 1)%Z = hi \/
       exists f, frame_at l (k + 1) = Returns f /\ t < rd_time f).
Proof.
  intros Hlen.
  assert (H63 : (2 ^ 63 = 9223372036854775808)%Z) by reflexivity.
  assert (H64 : (2 ^ 64 = 18446744073709551616)%Z) by reflexivity.
  induction fuel as [|fuel IH]; intros lo hi Hlo Hhi Hf.
  - assert (hi = lo + 1)%Z by lia. subst hi.
    cbn [interpolate_search].
    rewrite size_t_wrap_small by lia.
    replace (lo <? lo + 1 - 1)%Z with false by (symmetry; apply Z.ltb_ge; lia).
    exists lo. split; [reflexivity|]. repeat split; try lia; left; reflexivity.
  - cbn [interpolate_search].
    rewrite size_t_wrap_small by lia.
    destruct (lo <? hi - 1)%Z eqn:Eg.
    + apply Z.ltb_lt in Eg.
      rewrite size_t_wrap_small by lia.
      set (mid := ((lo + hi) / 2)%Z).
      assert (Hmid : (lo < mid < hi)%Z).
      { unfold mid.
        pose proof (Z.div_mod (lo + hi) 2 ltac:(lia)) as Hdm.
        pose proof (Z.mod_pos_bound (lo + hi) 2 ltac:(lia)) as Hmb.
        lia. }
      destruct (frame_at_in_range l mid ltac:(lia)) as (f & Ef & _).
      rewrite Ef.
      destruct (rd_time f <=? t) eqn:Ec.
      * apply Rleb_true in Ec.
        destruct (IH mid hi ltac:(lia) Hhi ltac:(lia))
          as (k & Ek & K1 & K2 & K3 & K4).
        exists k. split; [exact Ek|]. split; [lia|]. split; [lia|].
        split; [|exact K4].
        right. destruct K3 as [->|K3]; [exists f; split; assumption|exact K3].
      * apply Rleb_false in Ec.
        destruct (IH lo mid ltac:(lia) ltac:(lia) ltac:(lia))
          as (k & Ek & K1 & K2 & K3 & K4).
        exists k. split; [exact Ek|]. split; [lia|]. split; [lia|].
        split; [exact K3|].
        right. destruct K4 as [K4|K4]; [|exact K4].
        rewrite K4. exists f. split; assumption.
    + apply Z.ltb_ge in Eg. assert (hi = lo + 1)%Z by lia. subst hi.
      exists lo. split; [reflexivity|].
      repeat split; try lia; left; reflexivity.
Qed.

(** On a single frame the loop of the search makes no progress. *)
Lemma interpolate_search_single (f : CollisionRenderData) (t : R) (fuel : nat) :
  interpolate_search fuel [f] t 0 0 = OutOfFuel.
Proof.
  induction fuel as [|fuel IH]; cbn [interpolate_search].
  - reflexivity.
  - change (0 <? size_t_wrap (0 - 1))%Z with true. cbv iota.
    change (size_t_wrap (0 + 0) / 2)%Z with 0%Z.
    change (frame_at [f] 0) with (Returns f).
    cbv iota. destruct (rd_time f <=? t); exact IH.
Qed.

End InterpolateSearch.

Section Interpolate.

Import Exact.
Local Open Scope R_scope.

(** X26.  On a timeline of exactly one frame [interpolate] never returns, at
    any time [t]: [hi - 1] wraps around in [size_t] and the search loop
    keeps its bounds for ever (no amount of fuel suffices).  On an empty
    timeline it returns the zero frame. *)
Theorem interpolate_single_frame_diverges
    (f : CollisionRenderData) (duration merger_time : R) (index : Z)
    (t : R) (fuel : nat) :
  interpolate fuel (mk_CollisionTimeline [f] duration merger_time index) t
    = OutOfFuel /\
  interpolate fuel (mk_CollisionTimeline [] duration merger_time index) t
    = Returns CollisionRenderData_zero.
Proof.
  split; [|reflexivity].
  unfold interpolate. cbn [tl_frames tl_total_duration List.length].
  change (size_t_wrap (Z.of_nat 1 - 1)) with 0%Z.
  rewrite interpolate_search_single. reflexivity.
Qed.

(** The loop over the black holes stays inside the array when it visits
    at most four of them. *)
Lemma interpolate_black_holes_returns (n : nat) (a b : BHArray4) (alpha : R) :
  (n <= 4)%nat ->
  forall (start : nat) (res : BHArray4),
    (start + n <= 4)%nat ->
    exists bhs : BHArray4,
      interpolate_black_holes (map Z.of_nat (seq start n)) a b res alpha
      = Returns bhs.
Proof.
  intros _. induction n as [|n IH]; intros start res H; cbn [seq map].
  - exists res. reflexivity.
  - cbn [interpolate_black_holes].
    assert (Hs : (start < 4)%nat) by lia.
    destruct start as [|[|[|[|start]]]]; try lia;
      cbn [Z.of_nat array_get array_set Z.eqb Pos.to_nat Pos.of_succ_nat
           Pos.succ Pos.eqb];
      apply IH; lia.
Qed.

(** X27.  On a timeline of at least two frames, each with at most four bodies,
    [interpolate] returns after at most as many passes of the search loop as
    there are frames, and the result is either a frame of the timeline or
    lies strictly between two neighbouring frames: its time is the clamped
    [t], phase and body count are those of the nearer side (by [alpha]), and
    the wave fields are the linear blend. *)
Theorem interpolate_returns (tl : CollisionTimeline) (t : R) (fuel : nat) :
  (2 <= List.length (tl_frames tl))%nat ->
  (Z.of_nat (List.length (tl_frames tl)) < 2 ^ 63)%Z ->
  Forall (fun f => (rd_num_black_holes f <= 4)%Z) (tl_frames tl) ->
  (List.length (tl_frames tl) <= fuel)%nat ->
  let t' := std_max 0.0 (std_min t (tl_total_duration tl)) in
  exists rd : CollisionRenderData,
    interpolate fuel tl t = Returns rd /\
    (In rd (tl_frames tl) \/
     exists (front : list CollisionRenderData) (a b : CollisionRenderData)
            (back : list CollisionRenderData),
       tl_frames tl = front ++ a :: b :: back /\
       rd_time a < t' < rd_time b /\
       let alpha := (t' - rd_time a) / (rd_time b - rd_time a) in
       0 < alpha < 1 /\
       rd_time rd = t' /\
       rd_phase rd = (if alpha <? 0.5 then rd_phase a else rd_phase b) /\
       rd_num_black_holes rd =
         (if alpha <? 0.5 then rd_num_black_holes a
          else rd_num_black_holes b) /\
       rd_gw_amplitude rd =
         rd_gw_amplitude a * (1 - alpha) + rd_gw_amplitude b * alpha /\
       rd_gw_strain_plus rd =
         rd_gw_strain_plus a * (1 - alpha) + rd_gw_strain_plus b * alpha /\
       rd_gw_strain_cross rd =
         rd_gw_strain_cross a * (1 - alpha) + rd_gw_strain_cross b * alpha /\
       rd_gw_frequency rd =
         rd_gw_frequency a * (1 - alpha) + rd_gw_frequency b * alpha).
Proof.
  intros Hn Hlen Hbh Hfuel t'.
  unfold interpolate. fold t'.
  destruct (tl_frames tl) as [|f0 fr]; [cbn in Hn; lia|].
  cbv iota. set (l := f0 :: fr) in *.
  assert (H64 : (2 ^ 64 = 18446744073709551616)%Z) by reflexivity.
  assert (H63 : (2 ^ 63 = 9223372036854775808)%Z) by reflexivity.
  rewrite size_t_wrap_small by lia.
  destruct (interpolate_search_spec l t' Hlen fuel 0
              (Z.of_nat (List.length l) - 1) ltac:(lia) ltac:(lia) ltac:(lia))
    as (k & Ek & K1 & K2 & _ & _).
  rewrite Ek.
  destruct (frame_at_in_range l k ltac:(lia)) as (a & Ea & Na).
  destruct (frame_at_in_range l (k + 1) ltac:(lia)) as (b & Eb & Nb).
  rewrite Ea.
  replace (k =? k + 1)%Z with false by (symmetry; apply Z.eqb_neq; lia).
  cbn [orb].
  destruct (t' <=? rd_time a) eqn:Ca.
  { exists a. split; [reflexivity|]. left. eapply nth_error_In. exact Na. }
  apply Rleb_false in Ca. rewrite Eb.
  destruct (rd_time b <=? t') eqn:Cb.
  { exists b. split; [reflexivity|]. left. eapply nth_error_In. exact Nb. }
  apply Rleb_false in Cb.
  set (raw := (t' - rd_time a) / (rd_time b - rd_time a)).
  assert (Hraw : 0 < raw < 1).
  { unfold raw. split.
    - apply Rdiv_lt_0_compat; lra.
    - apply (Rmult_lt_reg_r (rd_time b - rd_time a)); [lra|].
      unfold Rdiv. rewrite Rmult_assoc, Rinv_l by lra. lra. }
  assert (Ealpha : std_max 0.0 (std_min 1.0 raw) = raw).
  { unfold std_max, std_min.
    rewrite (proj2 (Rltb_true raw 1.0)) by lra.
    rewrite (proj2 (Rltb_true 0.0 raw)) by lra. reflexivity. }
  rewrite Ealpha.
  set (n := if raw <? 0.5 then rd_num_black_holes a else rd_num_black_holes b).
  assert (Hnb : (n <= 4)%Z).
  { rewrite Forall_forall in Hbh. unfold n.
    destruct (raw <? 0.5); apply Hbh; eapply nth_error_In; eassumption. }
  destruct (interpolate_black_holes_returns (Z.to_nat n) (rd_black_holes a)
              (rd_black_holes b) raw ltac:(lia) 0%nat BHArray4_zero
              ltac:(lia)) as (bhs & Ebhs).
  rewrite Ebhs. eexists. split; [reflexivity|]. right.
  assert (Hsplit : exists front back, l = front ++ a :: b :: back).
  { apply nth_error_split in Na. destruct Na as (front & rest & El & Lf).
    exists front. rewrite El in Nb.
    rewrite nth_error_app2 in Nb by lia.
    replace (Z.to_nat (k + 1) - List.length front)%nat with 1%nat in Nb by lia.
    destruct rest as [|b' back]; [discriminate|].
    cbn in Nb. injection Nb as ->. exists back. exact El. }
  destruct Hsplit as (front & back & El).
  exists front, a, b, back. split; [exact El|]. split; [lra|].
  cbv zeta. fold raw. split; [exact Hraw|].
  cbn [rd_time rd_phase rd_num_black_holes rd_gw_amplitude rd_gw_strain_plus
       rd_gw_strain_cross rd_gw_frequency].
  replace (1.0 - raw) with (1 - raw) by lra.
  repeat split; reflexivity.
Qed.

Lemma interpolate_returns_witness :
  exists rd : CollisionRenderData,
    interpolate 2 two_frame_timeline (1 / 2) = Returns rd.
Proof.
  destruct (interpolate_returns two_frame_timeline (1 / 2) 2) as (rd & E & _).
  - cbn. lia.
  - cbn. lia.
  - cbn [two_frame_timeline tl_frames].
    apply Forall_cons; [cbn; lia|]. apply Forall_cons; [cbn; lia|].
    apply Forall_nil.
  - cbn. lia.
  - exists rd. exact E.
Defined.

End Interpolate.

Section InterpolateAtFrame.

Import Exact.
Local Open Scope R_scope.

Lemma nth_error_middle {A : Type} (front : list A) (a : A) (back : list A)
    (i : nat) (f : A) :
  nth_error (front ++ a :: back) i = Some f ->
  (i < List.length front /\ In f front)%nat \/
  (i = List.length front /\ f = a) \/
  (List.length front < i /\ In f back)%nat.
Proof.
  intros H. destruct (Nat.lt_trichotomy i (List.length front)) as [L|[E|G]].
  - left. split; [exact L|]. rewrite nth_error_app1 in H by exact L.
    eapply nth_error_In. exact H.
  - right. left. split; [exact E|]. subst i.
    rewrite nth_error_app2, Nat.sub_diag in H by lia. cbn in H. congruence.
  - right. right. split; [exact G|].
    rewrite nth_error_app2 in H by lia.
    destruct (i - List.length front)%nat as [|j] eqn:Ej; [lia|].
    cbn in H. eapply nth_error_In. exact H.
Qed.

(** The frame found for a time that a frame carries, when every earlier
    frame is at most that old and every later frame is younger. *)
Lemma interpolate_hits_inner
    (tl : CollisionTimeline) (t : R) (fuel : nat)
    (front : list CollisionRenderData) (a : CollisionRenderData)
    (back : list CollisionRenderData) :
  tl_frames tl = front ++ a :: back -> back <> [] ->
  (Z.of_nat (List.length (tl_frames tl)) < 2 ^ 63)%Z ->
  (List.length (tl_frames tl) <= fuel)%nat ->
  std_max 0.0 (std_min t (tl_total_duration tl)) = rd_time a ->
  Forall (fun f => rd_time f <= rd_time a) front ->
  Forall (fun f => rd_time a < rd_time f) back ->
  interpolate fuel tl t = Returns a.
Proof.
  intros El Hback Hlen Hfuel Ht Hfront Hlate.
  unfold interpolate. rewrite Ht.
  set (l := tl_frames tl) in *.
  assert (Hn : (List.length front + 2 <= List.length l)%nat).
  { rewrite El, length_app. cbn [List.length].
    destruct back; [congruence|]. cbn [List.length]. lia. }
  assert (H64 : (2 ^ 64 = 18446744073709551616)%Z) by reflexivity.
  assert (H63 : (2 ^ 63 = 9223372036854775808)%Z) by reflexivity.
  destruct l as [|f0 fr] eqn:Efr; [cbn in Hn; lia|].
  rewrite <- Efr in *. clear Efr f0 fr.
  rewrite size_t_wrap_small by lia.
  destruct (interpolate_search_spec l (rd_time a) Hlen fuel 0
              (Z.of_nat (List.length l) - 1) ltac:(lia) ltac:(lia) ltac:(lia))
    as (k & Ek & K1 & K2 & K3 & K4).
  rewrite Ek.
  rewrite Forall_forall in Hfront, Hlate.
  assert (Hk : k = Z.of_nat (List.length front)).
  { destruct (Z.lt_trichotomy k (Z.of_nat (List.length front))) as [L|[E|G]];
      [exfalso|exact E|exfalso].
    - destruct K4 as [K4|(f & Ef & Hf)]; [lia|].
      apply frame_at_nth in Ef. destruct Ef as [_ Ef]. rewrite El in Ef.
      apply nth_error_middle in Ef.
      destruct Ef as [(_ & Hin)|[(_ & ->)|(Hi & _)]]; [|lra|lia].
      apply Hfront in Hin. lra.
    - destruct K3 as [K3|(f & Ef & Hf)]; [lia|].
      apply frame_at_nth in Ef. destruct Ef as [_ Ef]. rewrite El in Ef.
      apply nth_error_middle in Ef.
      destruct Ef as [(Hi & _)|[(Hi & _)|(_ & Hin)]]; [lia|lia|].
      apply Hlate in Hin. lra. }
  assert (Ea : frame_at l k = Returns a).
  { destruct (frame_at_in_range l k ltac:(lia)) as (f & Ef & Nf).
    rewrite Ef. f_equal. rewrite El, Hk, Nat2Z.id in Nf.
    rewrite nth_error_app2, Nat.sub_diag in Nf by lia. cbn in Nf. congruence. }
  rewrite Ea.
  rewrite (proj2 (Rleb_true (rd_time a) (rd_time a))) by lra.
  rewrite orb_true_r. reflexivity.
Qed.

(** The same for the last frame, when every earlier frame is strictly
    older. *)
Lemma interpolate_hits_last
    (tl : CollisionTimeline) (t : R) (fuel : nat)
    (front : list CollisionRenderData) (a : CollisionRenderData) :
  tl_frames tl = front ++ [a] -> front <> [] ->
  (Z.of_nat (List.length (tl_frames tl)) < 2 ^ 63)%Z ->
  (List.length (tl_frames tl) <= fuel)%nat ->
  std_max 0.0 (std_min t (tl_total_duration tl)) = rd_time a ->
  Forall (fun f => rd_time f < rd_time a) front ->
  interpolate fuel tl t = Returns a.
Proof.
  intros El Hfr Hlen Hfuel Ht Hfront.
  unfold interpolate. rewrite Ht.
  set (l := tl_frames tl) in *.
  assert (Hn : (List.length l = List.length front + 1)%nat).
  { rewrite El, length_app. reflexivity. }
  assert (Hf1 : (1 <= List.length front)%nat).
  { destruct front; [congruence|]. cbn [List.length]. lia. }
  assert (H64 : (2 ^ 64 = 18446744073709551616)%Z) by reflexivity.
  assert (H63 : (2 ^ 63 = 9223372036854775808)%Z) by reflexivity.
  destruct l as [|f0 fr] eqn:Efr; [cbn in Hn; lia|].
  rewrite <- Efr in *. clear Efr f0 fr.
  rewrite size_t_wrap_small by lia.
  destruct (interpolate_search_spec l (rd_time a) Hlen fuel 0
              (Z.of_nat (List.length l) - 1) ltac:(lia) ltac:(lia) ltac:(lia))
    as (k & Ek & K1 & K2 & K3 & K4).
  rewrite Ek.
  rewrite Forall_forall in Hfront.
  assert (Hk : (k + 1)%Z = Z.of_nat (List.length front)).
  { destruct K4 as [K4|(f & Ef & Hf)]; [lia|]. exfalso.
    apply frame_at_nth in Ef. destruct Ef as [_ Ef]. rewrite El in Ef.
    apply nth_error_middle in Ef.
    destruct Ef as [(_ & Hin)|[(_ & ->)|(_ & [])]]; [|lra].
    apply Hfront in Hin. lra. }
  destruct (frame_at_in_range l k ltac:(lia)) as (b & Eb & Nb).
  rewrite Eb.
  assert (Hb : rd_time b < rd_time a).
  { rewrite El in Nb. apply nth_error_middle in Nb.
    destruct Nb as [(_ & Hin)|[(Hi & _)|(Hi & _)]]; [|lia|lia].
    apply Hfront. exact Hin. }
  replace (k =? k + 1)%Z with false by (symmetry; apply Z.eqb_neq; lia).
  rewrite (proj2 (Rleb_false (rd_time a) (rd_time b))) by lra.
  cbn [orb].
  assert (Ea : frame_at l (k + 1) = Returns a).
  { destruct (frame_at_in_range l (k + 1) ltac:(lia)) as (f & Ef & Nf).
    rewrite Ef. f_equal. rewrite El, Hk, Nat2Z.id in Nf.
    rewrite nth_error_app2, Nat.sub_diag in Nf by lia. cbn in Nf. congruence. }
  rewrite Ea.
  rewrite (proj2 (Rleb_true (rd_time a) (rd_time a))) by lra.
  reflexivity.
Qed.

Lemma StronglySorted_app_inv (l1 l2 : list R) :
  StronglySorted Rlt (l1 ++ l2) ->
  StronglySorted Rlt l1 /\ StronglySorted Rlt l2 /\
  forall x y, In x l1 -> In y l2 -> x < y.
Proof.
  induction l1 as [|a l1 IH]; cbn [app]; intros H.
  - split; [apply SSorted_nil|]. split; [exact H|]. intros x y [].
  - inversion H as [|? ? Hs Ha]; subst.
    destruct (IH Hs) as (S1 & S2 & Hxy).
    rewrite Forall_app in Ha. destruct Ha as [Ha1 Ha2].
    split; [apply SSorted_cons; assumption|]. split; [exact S2|].
    intros x y [->|Hx] Hy.
    + rewrite Forall_forall in Ha2. apply Ha2. exact Hy.
    + apply Hxy; assumption.
Qed.

(** X28.  On a timeline of at least two frames with strictly increasing times
    within [0, total_duration], asking [interpolate] for the time of a frame
    returns that frame unchanged. *)
Theorem interpolate_recovers_frames
    (tl : CollisionTimeline) (fuel : nat) :
  (2 <= List.length (tl_frames tl))%nat ->
  (Z.of_nat (List.length (tl_frames tl)) < 2 ^ 63)%Z ->
  (List.length (tl_frames tl) <= fuel)%nat ->
  StronglySorted Rlt (map rd_time (tl_frames tl)) ->
  Forall (fun f => 0 <= rd_time f <= tl_total_duration tl) (tl_frames tl) ->
  forall f : CollisionRenderData,
    In f (tl_frames tl) -> interpolate fuel tl (rd_time f) = Returns f.
Proof.
  intros Hn Hlen Hfuel Hs Hr f Hin.
  rewrite Forall_forall in Hr. pose proof (Hr f Hin) as Hrf.
  assert (Ht : std_max 0.0 (std_min (rd_time f) (tl_total_duration tl))
               = rd_time f).
  { unfold std_max, std_min.
    rewrite (proj2 (Rltb_false (tl_total_duration tl) (rd_time f))) by lra.
    destruct (0.0 <? rd_time f) eqn:E; [reflexivity|].
    apply Rltb_false in E. lra. }
  apply in_split in Hin. destruct Hin as (front & back & El).
  rewrite El, map_app in Hs. cbn [map] in Hs.
  apply StronglySorted_app_inv in Hs. destruct Hs as (_ & Hs2 & Hxy).
  inversion Hs2 as [|? ? _ Hlate]; subst.
  assert (Hfront : Forall (fun g => rd_time g < rd_time f) front).
  { apply Forall_forall. intros g Hg. apply Hxy.
    - apply in_map. exact Hg.
    - left. reflexivity. }
  destruct back as [|b back].
  - apply (interpolate_hits_last tl (rd_time f) fuel front f);
      try assumption.
    intros ->. rewrite El in Hn. cbn in Hn. lia.
  - apply (interpolate_hits_inner tl (rd_time f) fuel front f (b :: back));
      try assumption.
    + discriminate.
    + eapply Forall_impl; [|exact Hfront]. cbv beta. intros; lra.
    + rewrite Forall_map in Hlate. exact Hlate.
Qed.

Lemma interpolate_recovers_frames_witness :
  interpolate 2 two_frame_timeline (rd_time CollisionRenderData_zero)
  = Returns CollisionRenderData_zero.
Proof.
  apply (interpolate_recovers_frames two_frame_timeline 2).
  - cbn. lia.
  - cbn. lia.
  - cbn. lia.
  - cbn [two_frame_timeline tl_frames map rd_time CollisionRenderData_zero].
    apply SSorted_cons; [apply SSorted_cons; [apply SSorted_nil|apply Forall_nil]|].
    apply Forall_cons; [lra|apply Forall_nil].
  - cbn [two_frame_timeline tl_frames tl_total_duration].
    apply Forall_cons; [cbn; lra|]. apply Forall_cons; [cbn; lra|].
    apply Forall_nil.
  - left. reflexivity.
Defined.

End InterpolateAtFrame.

Section InterpolateAtMerger.

Import Exact.
Local Open Scope R_scope.




(** X30.  A run with a fixed step that does not merge at once and whose
    [max_time] is at most one step records a single frame; the timeline
    built from it has one frame and no merger index, and [interpolate] on it
    never returns. *)
Theorem single_step_run_timeline (config : SimulationConfig) :
  let c := binary config in
  m1 c + m2 c <> 0 -> 0 <= initial_separation c ->
  ~ (initial_separation c <= 0.5 * (m1 c + m2 c) \/
     2 < sqrt ((m1 c + m2 c) / initial_separation c) *
         sqrt ((1.0 + eccentricity c) / (1.0 - eccentricity c))) ->
  adaptive (integrator config) = false ->
  0 < max_time config <= dt_initial (integrator config) ->
  0 <= record_interval config ->
  let res := fst (run_simulation config) in
  merger_occurred res = false /\
  List.length (frames res) = 1%nat /\
  List.length (tl_frames (build res)) = 1%nat /\
  tl_merger_frame_index (build res) = (-1)%Z /\
  forall (fuel : nat) (t : R), interpolate fuel (build res) t = OutOfFuel.
Proof.
  intros c HM Hr Hcond Had Hmax Hri res.
  destruct (run_inspiral_single_step config HM Hr Hcond Had Hmax Hri)
    as (Em & El).
  destruct (run_simulation_unmerged config Em) as (Emo & Efr & _).
  destruct (run_inspiral_frames config) as (_ & Hno & _).
  cbv zeta in Hno. specialize (Hno Em).
  fold res in Emo, Efr. rewrite <- Efr in El, Hno.
  split; [exact Emo|]. split; [exact El|].
  pose proof (build_frames res) as Hb.
  split; [rewrite Hb, length_map; exact El|].
  destruct (frames res) as [|f [|g fr]] eqn:E; try discriminate.
  split.
  - unfold build. rewrite E. cbn [fold_left build_pass fst snd].
    inversion Hno as [|? ? Hf _]; subst. rewrite Hf.
    reflexivity.
  - intros fuel t. unfold interpolate. rewrite Hb. cbn [map List.length].
    change (size_t_wrap (Z.of_nat 1 - 1)) with 0%Z.
    rewrite interpolate_search_single. reflexivity.
Qed.

Lemma single_step_run_timeline_witness :
  let res := fst (run_simulation brief_config) in
  merger_occurred res = false /\
  List.length (frames res) = 1%nat /\
  List.length (tl_frames (build res)) = 1%nat /\
  tl_merger_frame_index (build res) = (-1)%Z /\
  forall (fuel : nat) (t : R), interpolate fuel (build res) t = OutOfFuel.
Proof.
  apply (single_step_run_timeline brief_config);
    cbn [brief_config binary default_binary m1 m2 initial_separation
         eccentricity integrator adaptive dt_initial max_time record_interval];
    try lra; try reflexivity.
  intros [H|H]; [lra|].
  replace ((1.0 + 0.0) / (1.0 - 0.0)) with 1 in H by lra.
  rewrite sqrt_1, Rmult_1_r in H.
  assert (Hs : sqrt ((0.5 + 0.5) / 20.0) <= 1).
  { rewrite <- sqrt_1 at 1. apply sqrt_le_1_alt. lra. }
  lra.
Defined.

End InterpolateAtMerger.
